(** * BaseApi: account history and extrinsic submission

    A shallow embedding of the [BaseApi] class of the SORA substrate
    library: the history getter and setter, [saveHistory] and the methods
    that read and prune the history, [formatAddress] and the other address
    methods, [submitExtrinsic] with its status callback and its rejection
    handler, and the static network fees; of the [DexModule] class; and of
    the functions of the export of the type definitions.  The properties of
    the history ledger, of the submission state machine, of the fee table,
    of the list of the DEXes and of the conversion of the types follow. *)

From Stdlib Require Import ZArith Ascii String List Bool Lia.
From stdpp Require Import base option gmap strings list.

Local Open Scope string_scope.
Local Open Scope list_scope.
Local Open Scope Z_scope.

(** ** JavaScript strings

    A string is a sequence of code units; the embedding keeps the code units
    below 256, which covers every literal of the source. *)

Module Js.

(** White space of [String.prototype.trim] among the code units below 256:
    TAB, LF, VT, FF, CR, SPACE and NBSP. *)
Definition is_white_space (c : ascii) : bool :=
  let n := nat_of_ascii c in
  ((9 <=? n) && (n <=? 13) || (n =? 32) || (n =? 160))%nat.

Fixpoint trimStart (s : string) : string :=
  match s with
  | String c r => if is_white_space c then trimStart r else s
  | EmptyString => EmptyString
  end.

(** [trimEnd] drops the trailing run of white space: a character is kept
    when it is not white space or when something is kept after it. *)
Fixpoint trimEnd (s : string) : string :=
  match s with
  | String c r =>
      match trimEnd r with
      | EmptyString => if is_white_space c then EmptyString else String c EmptyString
      | r' => String c r'
      end
  | EmptyString => EmptyString
  end.

Definition trim (s : string) : string := trimEnd (trimStart s).

(** [s.split(sep)] for a one-character separator: always at least one part. *)
Fixpoint split (sep : ascii) (s : string) : list string :=
  match s with
  | EmptyString => [EmptyString]
  | String c r =>
      if Ascii.eqb c sep then EmptyString :: split sep r
      else match split sep r with
           | p :: ps => String c p :: ps
           | [] => [String c EmptyString]
           end
  end.

(** [Array.prototype.join]. *)
Fixpoint join (sep : string) (parts : list string) : string :=
  match parts with
  | [] => EmptyString
  | [p] => p
  | p :: ps => p +:+ sep +:+ join sep ps
  end.

(** The upper-case letters below 256: A to Z, and the Latin-1 letters from
    192 to 222 but for the multiplication sign. *)
Definition lower_char (c : ascii) : ascii :=
  let n := nat_of_ascii c in
  if ((65 <=? n) && (n <=? 90) || (192 <=? n) && (n <=? 222) && negb (n =? 215))%nat
  then ascii_of_nat (n + 32) else c.

Fixpoint toLowerCase (s : string) : string :=
  match s with
  | String c r => String (lower_char c) (toLowerCase r)
  | EmptyString => EmptyString
  end.

(** Decimal rendering of an integer, as [Number.prototype.toString] gives it
    for the integers the code handles (time stamps, counters). *)
Definition digit_char (d : nat) : ascii := ascii_of_nat (48 + d).

Fixpoint digits_of_N (fuel : nat) (n : N) (acc : string) : string :=
  match fuel with
  | O => acc
  | S fuel' =>
      let acc' := String (digit_char (N.to_nat (n mod 10))) acc in
      if (n / 10 =? 0)%N then acc' else digits_of_N fuel' (n / 10)%N acc'
  end.

(** A positive number has no more decimal digits than binary ones. *)
Definition string_of_pos (p : positive) : string :=
  digits_of_N (Pos.size_nat p) (Npos p) EmptyString.

Definition string_of_Z (z : Z) : string :=
  match z with
  | Z0 => "0"
  | Zpos p => string_of_pos p
  | Zneg p => String "-" (string_of_pos p)
  end.

(** ** JavaScript values

    The JSON-representable values and [undefined].  Numbers are the
    integers that a double holds exactly and prints with all their digits
    (time stamps in milliseconds, counters, indices: magnitudes below
    [2^53]).  An object keeps its properties in insertion order. *)
#[warnings="-register-all"]
Inductive value : Type :=
| VUndef
| VNull
| VBool (b : bool)
| VNum (n : Z)
| VStr (s : string)
| VArr (items : list value)
| VObj (props : list (string * value)).

Definition obj : Type := list (string * value).

(** ToBoolean. *)
Definition truthy (v : value) : bool :=
  match v with
  | VUndef | VNull => false
  | VBool b => b
  | VNum n => negb (n =? 0)
  | VStr s => negb (String.eqb s EmptyString)
  | VArr _ | VObj _ => true
  end.

(** [a || b] *)
Definition or_else (a b : value) : value := if truthy a then a else b.

(** [v === 'literal'] *)
Definition is_str (v : value) (lit : string) : bool :=
  match v with
  | VStr s => String.eqb s lit
  | _ => false
  end.

(** [[lit1, lit2, ...].includes(v)] *)
Definition includes (lits : list string) (v : value) : bool :=
  existsb (is_str v) lits.

(** ToString, as a template literal applies it. *)
Fixpoint toString (v : value) : string :=
  match v with
  | VUndef => "undefined"
  | VNull => "null"
  | VBool true => "true"
  | VBool false => "false"
  | VNum n => string_of_Z n
  | VStr s => s
  | VArr items =>
      join "," (List.map (fun x => match x with
                                   | VUndef | VNull => EmptyString
                                   | _ => toString x
                                   end) items)
  | VObj _ => "[object Object]"
  end.

(** *** Own properties of an object

    A later entry of the list shadows an earlier one of the same name, as in
    an object literal. *)

Fixpoint lookup (k : string) (o : obj) : option value :=
  match o with
  | [] => None
  | (k', v) :: r =>
      match lookup k r with
      | Some x => Some x
      | None => if String.eqb k' k then Some v else None
      end
  end.

(** [o[k]] *)
Definition get (k : string) (o : obj) : value :=
  match lookup k o with
  | Some v => v
  | None => VUndef
  end.

(** [k in o] for own properties. *)
Definition has (k : string) (o : obj) : bool :=
  match lookup k o with
  | Some _ => true
  | None => false
  end.

Definition replace (k : string) (v : value) (o : obj) : obj :=
  List.map (fun kv => if String.eqb (fst kv) k then (k, v) else kv) o.

(** The own property [k] of [o] defined as [v]: an existing property keeps
    its place, a new one goes last.  This is what an object literal, a
    spread and [JSON.parse] do for every name, and what an assignment
    [o[k] = v] does for every name but [__proto__]. *)
Definition set (k : string) (v : value) (o : obj) : obj :=
  if has k o then replace k v o else o ++ [(k, v)].

(** The members that every object inherits from [Object.prototype]: its
    methods and the accessor [__proto__]. *)
Definition Object_prototype : list string :=
  ["constructor"; "__defineGetter__"; "__defineSetter__"; "hasOwnProperty";
   "__lookupGetter__"; "__lookupSetter__"; "isPrototypeOf"; "propertyIsEnumerable";
   "toString"; "valueOf"; "__proto__"; "toLocaleString"].

(** [o[k] = v] for any name, on an object whose prototype is
    [Object.prototype].  Unless the object has it as an own property, the
    name [__proto__] is the accessor of the prototype: the assignment gives
    the object another prototype (for an object or [null]; for another value
    it does nothing) and defines no property.  An object is given up to its
    own properties, which is all that [JSON.stringify] and a spread read of
    it. *)
Definition put (k : string) (v : value) (o : obj) : obj :=
  if String.eqb k "__proto__" && negb (has k o) then o else set k v o.

(** [delete o[k]] *)
Fixpoint delete (k : string) (o : obj) : obj :=
  match o with
  | [] => []
  | (k', v) :: r => if String.eqb k' k then delete k r else (k', v) :: delete k r
  end.

(** [Object.assign(target, source)], the step of an object spread. *)
Definition assign (target source : obj) : obj :=
  fold_left (fun acc kv => set (fst kv) (snd kv) acc) source target.

Fixpoint indexed {A : Type} (i : nat) (l : list A) : list (nat * A) :=
  match l with
  | [] => []
  | x :: r => (i, x) :: indexed (S i) r
  end.

Fixpoint chars (s : string) : list string :=
  match s with
  | EmptyString => []
  | String c r => String c EmptyString :: chars r
  end.

Definition index_key (i : nat) : string := string_of_Z (Z.of_nat i).

(** The own enumerable properties a spread copies: the properties of an
    object, the elements of an array, the characters of a string, nothing
    for the other primitives, [null] and [undefined]. *)
Definition own_props (v : value) : obj :=
  match v with
  | VObj o => o
  | VArr items => List.map (fun p => (index_key (fst p), snd p)) (indexed 0 items)
  | VStr s => List.map (fun p => (index_key (fst p), VStr (snd p))) (indexed 0 (chars s))
  | _ => []
  end.

(** [{ ...v }] *)
Definition spread (v : value) : obj := assign [] (own_props v).

(** [{ ...a, ...b }] *)
Definition spread2 (a b : value) : obj := assign (spread a) (own_props b).

(** *** Member access on any value *)

Fixpoint digits_value (acc : Z) (s : string) : option Z :=
  match s with
  | EmptyString => Some acc
  | String c r =>
      let n := nat_of_ascii c in
      if ((48 <=? n) && (n <=? 57))%nat
      then digits_value (10 * acc + Z.of_nat (n - 48)) r
      else None
  end.

(** A property key that is an array index: the canonical decimal form of
    an integer below 2^32 - 1. *)
Definition array_index (k : string) : option nat :=
  match digits_value 0 k with
  | Some n =>
      if negb (String.eqb k EmptyString) && String.eqb (string_of_Z n) k
         && (n <? 4294967295)
      then Some (Z.to_nat n) else None
  | None => None
  end.

(** [v[k]] read among the own properties of [v], for a name that [v] has
    as an own property or that no prototype defines (as [id], [from],
    [message] or [types]: the names that the code reads by name, and the
    names that a loop takes from the object itself); [None] stands for the
    [TypeError] on [null] and [undefined]. *)
Definition member (v : value) (k : string) : option value :=
  match v with
  | VUndef | VNull => None
  | VObj o => Some (get k o)
  | VArr items =>
      Some (if String.eqb k "length" then VNum (Z.of_nat (length items))
            else get k (own_props v))
  | VStr s =>
      Some (if String.eqb k "length" then VNum (Z.of_nat (String.length s))
            else get k (own_props v))
  | VBool _ | VNum _ => Some VUndef
  end.

(** What a read [v[k]] gives for any name: a value (that of an own
    property, or [undefined] when the name is found nowhere), or a member
    that [v] inherits from the prototypes of the runtime, which is a method
    or, under [__proto__], the prototype itself. *)
Inductive Member : Type :=
| Data (x : value)
| Builtin (k : string).

(** What a spread finds in a member: the value, and for a built-in, which
    is truthy and has no enumerable property of its own, what it finds in an
    empty object. *)
Definition enumerable (m : Member) : value :=
  match m with
  | Data x => x
  | Builtin _ => VObj []
  end.

(** [v[k] = x] in module (strict) code, for an object [x]; [None] stands
    for the error thrown on [null], [undefined], a primitive, or the length
    of an array.  An array is given up to what [JSON.stringify] writes of
    it: an index replaces or extends the elements, any other key adds a
    property that is not serialized (or, for [__proto__], changes the
    prototype). *)
Definition assign_member (v : value) (k : string) (x : value) : option value :=
  match v with
  | VObj o => Some (VObj (put k x o))
  | VArr items =>
      if String.eqb k "length" then None
      else match array_index k with
           | Some i =>
               Some (VArr (if (i <? length items)%nat
                           then firstn i items ++ x :: skipn (S i) items
                           else items ++ repeat VUndef (i - length items) ++ [x]))
           | None => Some v
           end
  | _ => None
  end.

End Js.

(** ** JSON text

    [JSON.stringify] and [JSON.parse] on the values above. *)

Module Json.

Import Js.

Definition hex_digit (n : nat) : ascii :=
  if (n <? 10)%nat then ascii_of_nat (48 + n) else ascii_of_nat (87 + n).

(** One code unit inside a JSON string literal: the quote, the backslash
    and the control characters are escaped. *)
Definition dquote : ascii := ascii_of_nat 34.
Definition backslash : ascii := ascii_of_nat 92.

Definition escape_char (c : ascii) : string :=
  let n := nat_of_ascii c in
  if (n =? 34)%nat then String backslash (String dquote EmptyString)
  else if (n =? 92)%nat then String backslash (String backslash EmptyString)
  else if (n =? 8)%nat then String backslash "b"
  else if (n =? 12)%nat then String backslash "f"
  else if (n =? 10)%nat then String backslash "n"
  else if (n =? 13)%nat then String backslash "r"
  else if (n =? 9)%nat then String backslash "t"
  else if (n <? 32)%nat then
    String backslash "u00"
    +:+ String (hex_digit (n / 16)) (String (hex_digit (n mod 16)) EmptyString)
  else String c EmptyString.

Fixpoint escape (s : string) : string :=
  match s with
  | EmptyString => EmptyString
  | String c r => escape_char c +:+ escape r
  end.

Definition quote (s : string) : string :=
  String dquote (escape s) +:+ String dquote EmptyString.

(** [JSON.stringify v]; [None] stands for the result [undefined].  A
    property whose value is [undefined] is left out, an [undefined] element
    of an array is written [null]. *)
Fixpoint stringify_opt (v : value) : option string :=
  match v with
  | VUndef => None
  | VNull => Some "null"
  | VBool true => Some "true"
  | VBool false => Some "false"
  | VNum n => Some (string_of_Z n)
  | VStr s => Some (quote s)
  | VArr items =>
      Some ("[" +:+ join "," (List.map (fun x => match stringify_opt x with
                                                 | Some t => t
                                                 | None => "null"
                                                 end) items) +:+ "]")
  | VObj props =>
      Some ("{" +:+ join "," (concat (List.map (fun kv =>
                                 match stringify_opt (snd kv) with
                                 | Some t => [quote (fst kv) +:+ ":" +:+ t]
                                 | None => []
                                 end) props)) +:+ "}")
  end.

(** The text handed to the store: [String(JSON.stringify v)]. *)
Definition stringify (v : value) : string :=
  match stringify_opt v with
  | Some t => t
  | None => "undefined"
  end.

Definition is_ws (c : ascii) : bool :=
  let n := nat_of_ascii c in
  ((n =? 32) || (n =? 9) || (n =? 10) || (n =? 13))%nat.

Fixpoint skip_ws (s : string) : string :=
  match s with
  | String c r => if is_ws c then skip_ws r else s
  | EmptyString => EmptyString
  end.

(** [expect lit s]: the rest of [s] after the literal [lit]. *)
Fixpoint expect (lit s : string) : option string :=
  match lit, s with
  | EmptyString, _ => Some s
  | String a l, String b r => if Ascii.eqb a b then expect l r else None
  | String _ _, EmptyString => None
  end.

Definition digit_val (c : ascii) : option Z :=
  let n := nat_of_ascii c in
  if ((48 <=? n) && (n <=? 57))%nat then Some (Z.of_nat (n - 48)) else None.

Definition hex_val (c : ascii) : option nat :=
  let n := nat_of_ascii c in
  if ((48 <=? n) && (n <=? 57))%nat then Some (n - 48)%nat
  else if ((97 <=? n) && (n <=? 102))%nat then Some (n - 87)%nat
  else if ((65 <=? n) && (n <=? 70))%nat then Some (n - 55)%nat
  else None.

Definition is_digit (c : ascii) : bool :=
  match digit_val c with Some _ => true | None => false end.

(** The digits of an integer literal, most significant first. *)
Fixpoint parse_digits (acc : Z) (s : string) : Z * string :=
  match s with
  | String c r =>
      match digit_val c with
      | Some d => parse_digits (10 * acc + d) r
      | None => (acc, s)
      end
  | EmptyString => (acc, s)
  end.

(** An integer literal: no leading zero, and no fraction or exponent part
    (the embedding has the integers only). *)
Definition parse_nat_lit (s : string) : option (Z * string) :=
  match s with
  | String c r =>
      match digit_val c with
      | Some 0 =>
          match r with
          | String c' _ =>
              if is_digit c' || Ascii.eqb c' "." || Ascii.eqb c' "e"
                 || Ascii.eqb c' "E"
              then None else Some (0, r)
          | EmptyString => Some (0, r)
          end
      | Some d =>
          let '(n, r') := parse_digits d r in
          match r' with
          | String c' _ =>
              if Ascii.eqb c' "." || Ascii.eqb c' "e" || Ascii.eqb c' "E"
              then None else Some (n, r')
          | EmptyString => Some (n, r')
          end
      | None => None
      end
  | EmptyString => None
  end.

(** The body of a string literal, after the opening quote. *)
Fixpoint parse_chars (s : string) : option (string * string) :=
  match s with
  | EmptyString => None
  | String c r =>
      let n := nat_of_ascii c in
      if (n =? 34)%nat then Some (EmptyString, r)
      else if (n <? 32)%nat then None
      else if (n =? 92)%nat then
        match r with
        | String e r1 =>
            let cont (d : ascii) (rest : string) :=
              match parse_chars rest with
              | Some (t, r2) => Some (String d t, r2)
              | None => None
              end in
            let m := nat_of_ascii e in
            if (m =? 34)%nat then cont e r1
            else if (m =? 92)%nat then cont e r1
            else if (m =? 47)%nat then cont e r1
            else if (m =? 98)%nat then cont (ascii_of_nat 8) r1
            else if (m =? 102)%nat then cont (ascii_of_nat 12) r1
            else if (m =? 110)%nat then cont (ascii_of_nat 10) r1
            else if (m =? 114)%nat then cont (ascii_of_nat 13) r1
            else if (m =? 116)%nat then cont (ascii_of_nat 9) r1
            else if (m =? 117)%nat then
              match r1 with
              | String h1 (String h2 (String h3 (String h4 r2))) =>
                  match hex_val h1, hex_val h2, hex_val h3, hex_val h4 with
                  | Some 0%nat, Some 0%nat, Some a, Some b =>
                      cont (ascii_of_nat (16 * a + b)) r2
                  | _, _, _, _ => None
                  end
              | _ => None
              end
            else None
        | EmptyString => None
        end
      else
        match parse_chars r with
        | Some (t, r2) => Some (String c t, r2)
        | None => None
        end
  end.

Definition lit (text : string) (v : value) (s : string) : option (value * string) :=
  match expect text s with
  | Some r => Some (v, r)
  | None => None
  end.

(** One JSON value at the head of [s], with the text left after it.  The
    fuel bounds the nesting depth and the number of elements of one array or
    object; [parse] supplies the length of the text. *)
Fixpoint parse_value (fuel : nat) (s : string) : option (value * string) :=
  match fuel with
  | O => None
  | S f =>
      let fix elements (n : nat) (s : string) (acc : list value) {struct n}
        : option (value * string) :=
        match n with
        | O => None
        | S n' =>
            match parse_value f s with
            | Some (v, r) =>
                match skip_ws r with
                | String c r' =>
                    if Ascii.eqb c "," then elements n' r' (v :: acc)
                    else if Ascii.eqb c "]" then Some (VArr (rev (v :: acc)), r')
                    else None
                | EmptyString => None
                end
            | None => None
            end
        end in
      let fix members (n : nat) (s : string) (acc : obj) {struct n}
        : option (value * string) :=
        match n with
        | O => None
        | S n' =>
            match skip_ws s with
            | String q r0 =>
                if Ascii.eqb q dquote then
                  match parse_chars r0 with
                  | Some (k, r1) =>
                      match skip_ws r1 with
                      | String c r2 =>
                          if Ascii.eqb c ":" then
                            match parse_value f r2 with
                            | Some (v, r3) =>
                                match skip_ws r3 with
                                | String c' r4 =>
                                    if Ascii.eqb c' "," then members n' r4 (set k v acc)
                                    else if Ascii.eqb c' "}" then Some (VObj (set k v acc), r4)
                                    else None
                                | EmptyString => None
                                end
                            | None => None
                            end
                          else None
                      | EmptyString => None
                      end
                  | None => None
                  end
                else None
            | EmptyString => None
            end
        end in
      match skip_ws s with
      | EmptyString => None
      | String c r =>
          if Ascii.eqb c "n" then lit "ull" VNull r
          else if Ascii.eqb c "t" then lit "rue" (VBool true) r
          else if Ascii.eqb c "f" then lit "alse" (VBool false) r
          else if Ascii.eqb c dquote then
            match parse_chars r with
            | Some (t, r') => Some (VStr t, r')
            | None => None
            end
          else if Ascii.eqb c "[" then
            match skip_ws r with
            | String c' r' => if Ascii.eqb c' "]" then Some (VArr [], r') else elements f r []
            | EmptyString => None
            end
          else if Ascii.eqb c "{" then
            match skip_ws r with
            | String c' r' => if Ascii.eqb c' "}" then Some (VObj [], r') else members f r []
            | EmptyString => None
            end
          else if Ascii.eqb c "-" then
            match parse_nat_lit r with
            | Some (n, r') => Some (VNum (- n), r')
            | None => None
            end
          else
            match parse_nat_lit (String c r) with
            | Some (n, r') => Some (VNum n, r')
            | None => None
            end
      end
  end.

(** [JSON.parse text]; [None] stands for the [SyntaxError] it throws. *)
Definition parse (text : string) : option value :=
  match parse_value (S (String.length text)) text with
  | Some (v, r) =>
      match skip_ws r with
      | EmptyString => Some v
      | String _ _ => None
      end
  | None => None
  end.

End Json.

(** ** Exceptions and the state of the program *)

(** What a JavaScript computation throws, or a promise rejects with: an
    [Error] object with its name and message, or any other value. *)
Inductive exn : Type :=
| JsError (name message : string)
| Thrown (v : Js.value).

Definition SyntaxError : exn := JsError "SyntaxError" "Unexpected token in JSON".
Definition TypeError (message : string) : exn := JsError "TypeError" message.
Definition Error (message : string) : exn := JsError "Error" message.

(** [KeyringPair]: the address it was created with and its lock. *)
Record KeyringPair : Type := mkPair {
  pair_address : string;
  isLocked : bool
}.

(** [CreateResult] of the keyring: the pair (the JSON export plays no part). *)
Record CreateResult : Type := mkAccount {
  pair : KeyringPair
}.

(** Modelled from the spec: the [Storage] and [AccountStorage] classes of
    ./storage, which are not part of the sources at hand.  The spec gives the
    persistent storage as [get(key) -> string|null] and [set(key, string)],
    scoped per hashed-account identity: an [AccountStorage] is a handle on
    the scope of its identity, and two handles of one identity read and write
    the same entries of the persistent medium. *)
Record Storage : Type := mkStorage {
  namespace : string
}.

Record AccountStorage : Type := mkAccountStorage {
  identity : string
}.

(** A notification to the subscriber, [ExtrinsicEvent]: the phase and the
    record as it is when the notification is sent. *)
Inductive Phase : Type := inblock | finalized | error.

Definition ExtrinsicEvent : Type := (Phase * Js.obj)%type.

(** The state: the fields of the [BaseApi] instance, the persistent medium
    behind every [AccountStorage], the clock read by [Date.now], and the
    objects one call of [submitExtrinsic] works on (the record [history],
    which the caller's [historyData] aliases, and the subscription). *)
Record State : Type := mkState {
  historyNamespace : string;
  _history : Js.value;
  storage : option Storage;
  accountStorage : option AccountStorage;
  account : option CreateResult;
  shouldObservableBeUsed : bool;
  disk : gmap (string * string) string;
  clock : list Z;
  history : Js.obj;
  notified : list ExtrinsicEvent;
  completed : bool;
  unsubscribed : bool;
  uncaught : list exn
}.

Definition with__history (v : Js.value) (s : State) : State :=
  mkState (historyNamespace s) v (storage s) (accountStorage s) (account s)
    (shouldObservableBeUsed s) (disk s) (clock s) (history s) (notified s)
    (completed s) (unsubscribed s) (uncaught s).

Definition with_storage (v : option Storage) (s : State) : State :=
  mkState (historyNamespace s) (_history s) v (accountStorage s) (account s)
    (shouldObservableBeUsed s) (disk s) (clock s) (history s) (notified s)
    (completed s) (unsubscribed s) (uncaught s).

Definition with_accountStorage (v : option AccountStorage) (s : State) : State :=
  mkState (historyNamespace s) (_history s) (storage s) v (account s)
    (shouldObservableBeUsed s) (disk s) (clock s) (history s) (notified s)
    (completed s) (unsubscribed s) (uncaught s).

Definition with_account (v : option CreateResult) (s : State) : State :=
  mkState (historyNamespace s) (_history s) (storage s) (accountStorage s) v
    (shouldObservableBeUsed s) (disk s) (clock s) (history s) (notified s)
    (completed s) (unsubscribed s) (uncaught s).


Definition with_disk (v : gmap (string * string) string) (s : State) : State :=
  mkState (historyNamespace s) (_history s) (storage s) (accountStorage s) (account s)
    (shouldObservableBeUsed s) v (clock s) (history s) (notified s)
    (completed s) (unsubscribed s) (uncaught s).

Definition with_clock (v : list Z) (s : State) : State :=
  mkState (historyNamespace s) (_history s) (storage s) (accountStorage s) (account s)
    (shouldObservableBeUsed s) (disk s) v (history s) (notified s)
    (completed s) (unsubscribed s) (uncaught s).

Definition with_history (v : Js.obj) (s : State) : State :=
  mkState (historyNamespace s) (_history s) (storage s) (accountStorage s) (account s)
    (shouldObservableBeUsed s) (disk s) (clock s) v (notified s)
    (completed s) (unsubscribed s) (uncaught s).

Definition with_notified (v : list ExtrinsicEvent) (s : State) : State :=
  mkState (historyNamespace s) (_history s) (storage s) (accountStorage s) (account s)
    (shouldObservableBeUsed s) (disk s) (clock s) (history s) v
    (completed s) (unsubscribed s) (uncaught s).

Definition with_completed (v : bool) (s : State) : State :=
  mkState (historyNamespace s) (_history s) (storage s) (accountStorage s) (account s)
    (shouldObservableBeUsed s) (disk s) (clock s) (history s) (notified s)
    v (unsubscribed s) (uncaught s).

Definition with_unsubscribed (v : bool) (s : State) : State :=
  mkState (historyNamespace s) (_history s) (storage s) (accountStorage s) (account s)
    (shouldObservableBeUsed s) (disk s) (clock s) (history s) (notified s)
    (completed s) v (uncaught s).

Definition with_uncaught (v : list exn) (s : State) : State :=
  mkState (historyNamespace s) (_history s) (storage s) (accountStorage s) (account s)
    (shouldObservableBeUsed s) (disk s) (clock s) (history s) (notified s)
    (completed s) (unsubscribed s) v.

(** *** The monad of the methods: state, and exceptions that keep it *)

Inductive outcome (A : Type) : Type :=
| Returns (a : A)
| Throws (e : exn).

Arguments Returns {A} a.
Arguments Throws {A} e.

Definition M (A : Type) : Type := State -> outcome A * State.

Definition ret {A : Type} (a : A) : M A := fun s => (Returns a, s).

Definition throw {A : Type} (e : exn) : M A := fun s => (Throws e, s).

Definition bind {A B : Type} (m : M A) (k : A -> M B) : M B :=
  fun s =>
    match m s with
    | (Returns a, s') => k a s'
    | (Throws e, s') => (Throws e, s')
    end.

(** [try { m } catch (e) { h e }] *)
Definition try_catch {A : Type} (m : M A) (h : exn -> M A) : M A :=
  fun s =>
    match m s with
    | (Returns a, s') => (Returns a, s')
    | (Throws e, s') => h e s'
    end.

Definition gets {A : Type} (f : State -> A) : M A := fun s => (Returns (f s), s).

Definition modify (f : State -> State) : M unit := fun s => (Returns tt, f s).

Definition lift {A : Type} (r : outcome A) : M A := fun s => (r, s).

Declare Scope js_scope.
Delimit Scope js_scope with js.

Notation "x <- m ;; k" := (bind m (fun x => k))
  (at level 100, m at next level, right associativity) : js_scope.
Notation "m ;;; k" := (bind m (fun _ => k))
  (at level 100, right associativity) : js_scope.
Notation "'when' b 'then' m" := (if b then m else ret tt)
  (at level 90, b at level 9) : js_scope.

Local Open Scope js_scope.

(** [Date.now()]: the next reading of the clock. *)
Definition now (s : State) : Z :=
  match clock s with
  | t :: _ => t
  | [] => 0
  end.

Definition tick (s : State) : State :=
  match clock s with
  | _ :: r => with_clock r s
  | [] => s
  end.

Definition Date_now : M Z := fun s => (Returns (now s), tick s).

(** [AccountStorage.get] and [AccountStorage.set]. *)
Definition AccountStorage_get (a : AccountStorage) (key : string) : M (option string) :=
  gets (fun s => disk s !! (identity a, key)).

Definition AccountStorage_set (a : AccountStorage) (key text : string) : M unit :=
  modify (fun s => with_disk (<[(identity a, key) := text]> (disk s)) s).

(** ** Chain data and collaborators *)

Definition PublicKey : Type := list Byte.byte.

(** [DispatchErrorModule]: the pallet index and the error index. *)
Record ModuleError : Type := mkModuleError {
  index : Z;
  error_index : Z
}.

(** What [registry.findMetaError] returns. *)
Record MetaError : Type := mkMetaError {
  docs : list string;
  section : string;
  name : string
}.

(** A decoded value of the chain, through what the code reads from it:
    [toString()], [toJSON()], the [code] member of an asset id, and
    [isModule]/[asModule] of a dispatch error. *)
Record Codec : Type := mkCodec {
  text : string;
  json : Js.value;
  code : option string;
  asModule : option ModuleError
}.

(** An event record of a block: [{ event: { data, method, section } }]. *)
Record ChainEvent : Type := mkEvent {
  ev_section : string;
  ev_method : string;
  data : list Codec
}.

(** [ExtrinsicStatus] of the node. *)
Inductive ExtrinsicStatus : Type :=
| Future
| Ready
| Broadcast (peers : list string)
| InBlock (blockHash : string)
| Retracted (blockHash : string)
| FinalityTimeout (blockHash : string)
| Finalized (blockHash : string)
| Usurped (txHash : string)
| Dropped
| Invalid.

(** [ISubmittableResult]: the status and the events of the block. *)
Record SubmittableResult : Type := mkResult {
  status : ExtrinsicStatus;
  events : list ChainEvent
}.

(** What [extrinsic.send(callback)] does: its promise rejects, or it
    resolves to the unsubscribe function and the callback receives the
    results in order. *)
Inductive SendResult : Type :=
| Rejects (e : exn)
| Delivers (results : list SubmittableResult).

(** [SubmittableExtrinsic]: its hash as given, what signing it gives (the
    hash of the signed extrinsic, or a rejection), and what sending does. *)
Record SubmittableExtrinsic : Type := mkExtrinsic {
  hash : string;
  signAsync : exn + string;
  send : SendResult
}.

(** The collaborators of [BaseApi]: the JSON object of the host and the
    names of the members of [Array.prototype] and of [String.prototype],
    which grow with the editions of the language; the address codec of
    @polkadot/util-crypto; the helpers of ./crypto; the error registry of the
    node, whose [findMetaError] throws for a module error that it does not
    find, and its nonce call; and the number formatting of
    @sora-substrate/math. *)
Class Host : Type := mkHost {
  JSON_parse : string -> option Js.value;
  JSON_stringify : Js.value -> string;
  Array_prototype : list string;
  String_prototype : list string;
  decodeAddress : Js.value -> option PublicKey;
  encodeAddress : PublicKey -> option Z -> option string;
  toHmacSHA256 : string -> string;
  crypto_encrypt : string -> string;
  findMetaError : ModuleError -> exn + MetaError;
  accountNextIndex : string -> exn + Z;
  FPNumber_toString : option Codec -> string
}.

Definition of_sum {A : Type} (r : exn + A) : outcome A :=
  match r with
  | inl e => Throws e
  | inr a => Returns a
  end.

(** ** BaseApi *)

Section BaseApi.

Context `{host : Host}.

Definition prefix : Z := 69.

(** [formatAddress(address, withSoraPrefix = true)] *)
Definition formatAddress (address : Js.value) (withSoraPrefix : bool) : outcome string :=
  match decodeAddress address with
  | None => Throws (Error "Invalid decoded address")
  | Some publicKey =>
      match encodeAddress publicKey (if withSoraPrefix then Some prefix else None) with
      | Some a => Returns a
      | None => Throws (Error "Expected a valid key to convert")
      end
  end.

(** [validateAddress(address)] *)
Definition validateAddress (address : Js.value) : bool :=
  match decodeAddress address with
  | Some _ => true
  | None => false
  end.

(** [encrypt(value)] *)
Definition encrypt (value : string) : string := crypto_encrypt value.

(** [get address()] *)
Definition address : M string :=
  fun s =>
    match account s with
    | None => (Returns EmptyString, s)
    | Some acc => (formatAddress (Js.VStr (pair_address (pair acc))) true, s)
    end.

(** [setAccount(account)] *)
Definition setAccount (acc : CreateResult) : M unit :=
  modify (with_account (Some acc)).

(** [setStorage(storage)] *)
Definition setStorage (st : Storage) : M unit :=
  modify (with_storage (Some st)).

(** [initAccountStorage()] *)
Definition initAccountStorage : M unit :=
  fun s =>
    match account s with
    | None => (Returns tt, s)
    | Some acc =>
        if negb (String.eqb (pair_address (pair acc)) EmptyString) then
          match storage s with
          | Some _ =>
              (Returns tt,
               with_accountStorage
                 (Some (mkAccountStorage (toHmacSHA256 (pair_address (pair acc))))) s)
          | None => (Returns tt, s)
          end
        else (Returns tt, s)
    end.

(** [lockPair()] *)
Definition lockPair : M unit :=
  fun s =>
    match account s with
    | None => (Throws (TypeError "Cannot read properties of undefined (reading 'pair')"), s)
    | Some acc =>
        if negb (isLocked (pair acc)) then
          (Returns tt,
           with_account (Some (mkAccount (mkPair (pair_address (pair acc)) true))) s)
        else (Returns tt, s)
    end.

(** [getAccountWithOptions()]: the address of a locked pair, or the pair. *)
Definition getAccountWithOptions : M (string + KeyringPair) :=
  fun s =>
    match account s with
    | None => (Throws (TypeError "Cannot read properties of null (reading 'isLocked')"), s)
    | Some acc =>
        (Returns (if isLocked (pair acc) then inl (pair_address (pair acc))
                  else inr (pair acc)), s)
    end.

(** [get history()] *)
Definition get_history : M Js.value :=
  fun s =>
    match accountStorage s with
    | Some st =>
        match disk s !! (identity st, historyNamespace s) with
        | Some blob =>
            if negb (String.eqb blob EmptyString) then
              match JSON_parse blob with
              | Some v => (Returns v, with__history v s)
              | None => (Throws SyntaxError, s)
              end
            else (Returns (Js.VObj []), with__history (Js.VObj []) s)
        | None => (Returns (Js.VObj []), with__history (Js.VObj []) s)
        end
    | None => (Returns (_history s), s)
    end.

(** [set history(value)] *)
Definition set_history (value : Js.value) : M unit :=
  fun s =>
    let s1 :=
      match accountStorage s with
      | Some st =>
          with_disk (<[(identity st, historyNamespace s) := JSON_stringify value]> (disk s)) s
      | None => s
      end in
    (Returns tt, with__history (Js.VObj (Js.spread value)) s1).

(** [clearHistory()] *)
Definition clearHistory : M unit := set_history (Js.VObj []).

(** The names under which a value inherits a member: those of
    [Object.prototype], and those of the prototype of its kind. *)
Definition inherited_names (v : Js.value) : list string :=
  match v with
  | Js.VObj _ | Js.VBool _ => Js.Object_prototype
  | Js.VNum _ => ["toExponential"; "toFixed"; "toPrecision"] ++ Js.Object_prototype
  | Js.VArr _ => Array_prototype ++ Js.Object_prototype
  | Js.VStr _ => String_prototype ++ Js.Object_prototype
  | Js.VUndef | Js.VNull => []
  end.

(** The own properties: those of an object, and the indices and the
    length of an array and of a string. *)
Definition has_own (v : Js.value) (k : string) : bool :=
  match v with
  | Js.VObj o => Js.has k o
  | Js.VArr _ | Js.VStr _ => String.eqb k "length" || Js.has k (Js.own_props v)
  | _ => false
  end.

(** [v[k]] for any name: an own property comes before an inherited
    member; [None] stands for the [TypeError] on [null] and [undefined]. *)
Definition read (v : Js.value) (k : string) : option Js.Member :=
  match Js.member v k with
  | Some x =>
      Some (if negb (has_own v k) && existsb (String.eqb k) (inherited_names v)
            then Js.Builtin k else Js.Data x)
  | None => None
  end.

(** [getHistory(id)] *)
Definition getHistory (id : string) : M Js.Member :=
  h <- get_history ;;
  match read h id with
  | Some (Js.Data (Js.VUndef | Js.VNull)) => ret (Js.Data Js.VNull)
  | Some m => ret m
  | None => throw (TypeError "Cannot read properties of null")
  end.

(** [SaveHistoryOptions]; an absent flag is [false]. *)
Record SaveHistoryOptions : Type := mkOptions {
  wasNotGenerated : bool;
  toCurrentAccount : bool
}.

Definition option_flag (flag : SaveHistoryOptions -> bool)
    (options : option SaveHistoryOptions) : bool :=
  match options with
  | Some o => flag o
  | None => false
  end.

Definition read_member (v : Js.value) (k : string) : M Js.value :=
  match Js.member v k with
  | Some x => ret x
  | None => throw (TypeError "Cannot read properties of null or undefined")
  end.

Definition write_member (v : Js.value) (k : string) (x : Js.value) : M Js.value :=
  match Js.assign_member v k x with
  | Some v' => ret v'
  | None => throw (TypeError "Cannot create property")
  end.

(** The stored text of a namespace read as a mapping:
    [text ? JSON.parse(text) : {}]. *)
Definition parse_or_empty (text : option string) : M Js.value :=
  match text with
  | Some blob =>
      if negb (String.eqb blob EmptyString) then
        match JSON_parse blob with
        | Some v => ret v
        | None => throw SyntaxError
        end
      else ret (Js.VObj [])
  | None => ret (Js.VObj [])
  end.

(** The local [historyItemFromAddress] of [saveHistory]. *)
Definition historyItemFromAddress (from : Js.value) : outcome string :=
  if Js.truthy from then formatAddress from false else Returns EmptyString.

(** The local [needToUpdateAddressStorage] of [saveHistory]; the operands
    of [&&] are evaluated from the left, so the address of the active
    account is formatted only when the two before it hold. *)
Definition needToUpdateAddressStorage (options : option SaveHistoryOptions)
    (fromAddress : string) : M bool :=
  if option_flag toCurrentAccount options then ret false
  else if String.eqb fromAddress EmptyString then ret false
  else
    current <- address ;;
    hasAccessToStorage <- gets (fun s => match storage s with Some _ => true | None => false end) ;;
    ret (negb (String.eqb fromAddress current) && hasAccessToStorage).

(** The record written for [historyItem] into the mapping [historyCopy]:
    [{ ...(historyCopy[id] || {}), ...historyItem }], without [txId] when
    the transaction was not generated. *)
Definition merged_item (existing historyItem : Js.value)
    (options : option SaveHistoryOptions) : Js.obj :=
  let item := Js.spread2 (Js.or_else existing (Js.VObj [])) historyItem in
  if option_flag wasNotGenerated options then Js.delete "txId" item else item.

Definition read_any (v : Js.value) (k : string) : M Js.Member :=
  match read v k with
  | Some m => ret m
  | None => throw (TypeError "Cannot read properties of null or undefined")
  end.

Definition merge_into (historyCopy historyItem id : Js.value)
    (options : option SaveHistoryOptions) : M Js.value :=
  existing <- read_any historyCopy (Js.toString id) ;;
  write_member historyCopy (Js.toString id)
    (Js.VObj (merged_item (Js.enumerable existing) historyItem options)).

(** [saveHistory(historyItem, options)] *)
Definition saveHistory (historyItem : Js.value) (options : option SaveHistoryOptions)
  : M unit :=
  if negb (Js.truthy historyItem) then ret tt
  else
    id <- read_member historyItem "id" ;;
    if negb (Js.truthy id) then ret tt
    else
      from <- read_member historyItem "from" ;;
      fromAddress <- lift (historyItemFromAddress from) ;;
      need <- needToUpdateAddressStorage options fromAddress ;;
      ns <- gets historyNamespace ;;
      if need then
        let addressStorage := mkAccountStorage (toHmacSHA256 fromAddress) in
        stored <- AccountStorage_get addressStorage ns ;;
        historyCopy <- parse_or_empty stored ;;
        historyCopy' <- merge_into historyCopy historyItem id options ;;
        AccountStorage_set addressStorage ns (JSON_stringify historyCopy')
      else
        h <- get_history ;;
        historyCopy' <- merge_into (Js.VObj (Js.spread h)) historyItem id options ;;
        set_history historyCopy'.

(** [removeHistory(...ids)], with lodash's [omit] for identifiers that are
    property names; a name with a dot or a bracket that is no property of the
    history would be a path into the records. *)
Definition removeHistory (ids : list string) : M unit :=
  match ids with
  | [] => ret tt
  | _ =>
      h <- get_history ;;
      set_history (Js.VObj (fold_left (fun o id => Js.delete id o) ids (Js.spread h)))
  end.

(** *** The enumerations *)

Inductive TransactionStatus : Type :=
| TS_Ready | TS_Broadcast | TS_InBlock | TS_Finalized | TS_Error | TS_Usurped | TS_Invalid.

Definition TransactionStatus_value (t : TransactionStatus) : string :=
  match t with
  | TS_Ready => "ready"
  | TS_Broadcast => "broadcast"
  | TS_InBlock => "inblock"
  | TS_Finalized => "finalized"
  | TS_Error => "error"
  | TS_Usurped => "usurped"
  | TS_Invalid => "invalid"
  end.

(** The operations that [submitExtrinsic] tells apart. *)
Inductive Operation : Type :=
| AddLiquidity | RemoveLiquidity | Faucet
| EthBridgeOutgoing | EthBridgeIncoming | EvmOutgoing | EvmIncoming.

Definition Operation_value (o : Operation) : string :=
  match o with
  | AddLiquidity => "AddLiquidity"
  | RemoveLiquidity => "RemoveLiquidity"
  | Faucet => "Faucet"
  | EthBridgeOutgoing => "EthBridgeOutgoing"
  | EthBridgeIncoming => "EthBridgeIncoming"
  | EvmOutgoing => "EvmOutgoing"
  | EvmIncoming => "EvmIncoming"
  end.

Definition isBridgeOperation (operation : Js.value) : bool :=
  Js.includes (List.map Operation_value [EthBridgeIncoming; EthBridgeOutgoing]) operation.

Definition isEvmOperation (operation : Js.value) : bool :=
  Js.includes (List.map Operation_value [EvmIncoming; EvmOutgoing]) operation.

Definition isLiquidityPoolOperation (operation : Js.value) : bool :=
  Js.includes (List.map Operation_value [AddLiquidity; RemoveLiquidity]) operation.

(** *** The status callback of [submitExtrinsic] *)

(** [first(Object.keys(status.toJSON()))]: the name of the variant. *)
Definition status_key (st : ExtrinsicStatus) : string :=
  match st with
  | Future => "future"
  | Ready => "ready"
  | Broadcast _ => "broadcast"
  | InBlock _ => "inBlock"
  | Retracted _ => "retracted"
  | FinalityTimeout _ => "finalityTimeout"
  | Finalized _ => "finalized"
  | Usurped _ => "usurped"
  | Dropped => "dropped"
  | Invalid => "invalid"
  end.

(** [history[key] = v] on the record of the submission. *)
Definition set_field (key : string) (v : Js.value) : M unit :=
  modify (fun s => with_history (Js.set key v (history s)) s).

Definition field (key : string) : M Js.value :=
  gets (fun s => Js.get key (history s)).

(** [subscriber?.next([phase, history])]: a completed subscriber takes no
    further notification. *)
Definition subscriber_next (subscriber : bool) (phase : Phase) : M unit :=
  modify (fun s =>
    if subscriber && negb (completed s)
    then with_notified (notified s ++ [(phase, history s)]) s
    else s).

(** [subscriber?.complete()] *)
Definition subscriber_complete (subscriber : bool) : M unit :=
  modify (fun s => if subscriber then with_completed true s else s).

Definition reading_undefined : exn :=
  TypeError "Cannot read properties of undefined".

(** The body of [result.events.forEach] for one event. *)
Definition on_event (ev : ChainEvent) : M unit :=
  type <- field "type" ;;
  if String.eqb (ev_method ev) "FeeWithdrawn" && String.eqb (ev_section ev) "xorFee" then
    match data ev with
    | _ :: soraNetworkFee :: _ => set_field "soraNetworkFee" (Js.VStr (text soraNetworkFee))
    | _ => throw reading_undefined
    end
  else if String.eqb (ev_method ev) "AssetRegistered" && String.eqb (ev_section ev) "assets" then
    match data ev with
    | assetId :: _ =>
        set_field "assetAddress"
          (Js.VStr (match code assetId with Some c => c | None => text assetId end))
    | [] => throw reading_undefined
    end
  else if String.eqb (ev_method ev) "Transfer"
          && existsb (String.eqb (ev_section ev)) ["balances"; "tokens"]
          && isLiquidityPoolOperation type then
    let amount := last (data ev) in
    let amountFormatted := FPNumber_toString amount in
    amount0 <- field "amount" ;;
    let amountKey := if negb (Js.truthy amount0) then "amount" else "amount2" in
    set_field amountKey (Js.VStr amountFormatted)
  else if (String.eqb (ev_method ev) "RequestRegistered" && isBridgeOperation type)
          || (String.eqb (ev_method ev) "RequestStatusUpdate" && isEvmOperation type) then
    set_field "hash" (match data ev with c :: _ => json c | [] => Js.VUndef end)
  else if String.eqb (ev_section ev) "system" && String.eqb (ev_method ev) "ExtrinsicFailed" then
    set_field "status" (Js.VStr (TransactionStatus_value TS_Error)) ;;;
    now <- Date_now ;;
    set_field "endTime" (Js.VNum now) ;;;
    match data ev with
    | err :: _ =>
        match asModule err with
        | Some m =>
            decoded <- lift (of_sum (findMetaError m)) ;;
            set_field "errorMessage"
              (if negb (String.eqb (section decoded) EmptyString)
                  && negb (String.eqb (name decoded) EmptyString)
               then Js.VObj [("name", Js.VStr (name decoded));
                             ("section", Js.VStr (section decoded))]
               else Js.VStr (Js.trim (Js.join " " (docs decoded))))
        | None => set_field "errorMessage" (Js.VStr (text err))
        end
    | [] => throw reading_undefined
    end
  else ret tt.

(** [events.forEach(...)]: an exception ends the loop. *)
Fixpoint forEach (evs : list ChainEvent) : M unit :=
  match evs with
  | [] => ret tt
  | ev :: rest => on_event ev ;;; forEach rest
  end.

(** The phase of the terminal notification. *)
Definition terminal_phase (h : Js.obj) : Phase :=
  if Js.is_str (Js.get "status" h) (TransactionStatus_value TS_Error) then error else finalized.

(** The callback given to [extrinsic.send]. *)
Definition on_result (subscriber : bool) (result : SubmittableResult) : M unit :=
  set_field "status" (Js.VStr (Js.toLowerCase (status_key (status result)))) ;;;
  match status result with
  | InBlock blockHash =>
      set_field "blockId" (Js.VStr blockHash) ;;;
      subscriber_next subscriber inblock
  | Finalized _ =>
      now <- Date_now ;;
      set_field "endTime" (Js.VNum now) ;;;
      forEach (events result) ;;;
      state <- gets (fun s => terminal_phase (history s)) ;;
      subscriber_next subscriber state ;;;
      subscriber_complete subscriber ;;;
      modify (with_unsubscribed true)
  | _ => ret tt
  end ;;;
  h <- gets history ;;
  saveHistory (Js.VObj h) None.

(** The results reach the callback in order, until it unsubscribes; what the
    callback throws is reported and the subscription goes on. *)
Fixpoint deliver (subscriber : bool) (results : list SubmittableResult) : M unit :=
  match results with
  | [] => ret tt
  | r :: rest =>
      fun s =>
        if unsubscribed s then (Returns tt, s)
        else
          match on_result subscriber r s with
          | (Returns _, s') => deliver subscriber rest s'
          | (Throws e, s') => deliver subscriber rest (with_uncaught (uncaught s' ++ [e]) s')
          end
  end.

(** *** The rejection handler of [submitExtrinsic] *)

(** [e?.message] *)
Definition message_of (e : exn) : Js.value :=
  match e with
  | JsError _ m => Js.VStr m
  | Thrown v =>
      match Js.member v "message" with
      | Some x => x
      | None => Js.VUndef
      end
  end.

(** [last(e?.message?.split(':'))?.trim()]; [None] stands for [undefined]. *)
Definition errorInfo_of (e : exn) : outcome (option string) :=
  match message_of e with
  | Js.VStr m => Returns (Js.trim <$> last (Js.split ":" m))
  | Js.VUndef | Js.VNull => Returns None
  | _ => Throws (TypeError "split is not a function")
  end.

Definition optional_string (o : option string) : Js.value :=
  match o with
  | Some t => Js.VStr t
  | None => Js.VUndef
  end.

(** The handler given to [.catch] on the promise of [extrinsic.send]. *)
Definition on_rejected (subscriber : bool) (e : exn) : M unit :=
  startTime <- field "startTime" ;;
  set_field "id" (Js.VStr (encrypt (Js.toString startTime))) ;;;
  set_field "status" (Js.VStr (TransactionStatus_value TS_Error)) ;;;
  now <- Date_now ;;
  set_field "endTime" (Js.VNum now) ;;;
  errorInfo <- lift (errorInfo_of e) ;;
  set_field "errorMessage" (optional_string errorInfo) ;;;
  h <- gets history ;;
  saveHistory (Js.VObj h) (Some (mkOptions true false)) ;;;
  subscriber_next subscriber error ;;;
  subscriber_complete subscriber ;;;
  throw (Error (default EmptyString errorInfo)).

(** [extrinsicFn(subscriber)]: a fresh subscription on [extrinsic.send]. *)
Definition extrinsicFn (subscriber : bool) (extrinsic : SubmittableExtrinsic) : M unit :=
  modify (fun s => with_unsubscribed false (with_completed false s)) ;;;
  match send extrinsic with
  | Delivers results => deliver subscriber results
  | Rejects e => on_rejected subscriber e
  end.


(** The identity of the record, once the extrinsic is signed: [txId] is
    the hash, and a record without [id] gets its start time and the hash as
    its [id]. *)
Definition assign_identity (signedTx_hash : string) : M unit :=
  set_field "txId" (Js.VStr signedTx_hash) ;;;
  id <- field "id" ;;
  when (negb (Js.truthy id)) then
    (now <- Date_now ;;
     set_field "startTime" (Js.VNum now) ;;;
     set_field "id" (Js.VStr signedTx_hash)).

(** The first part of [submitExtrinsic], up to the subscription: the record
    is seeded from [historyData], which it aliases, the nonce is resolved,
    the extrinsic signed, the pair locked, and [txId] and [id] are set. *)
Definition prepare (extrinsic : SubmittableExtrinsic) (signer : option KeyringPair)
    (historyData : option Js.obj) (unsigned : bool) : M unit :=
  modify (with_history (default [] historyData)) ;;;
  let isNotFaucetOperation :=
    match historyData with
    | None => true
    | Some h => negb (Js.is_str (Js.get "type" h) (Operation_value Faucet))
    end in
  (when (isNotFaucetOperation && match signer with Some _ => true | None => false end) then
     (current <- address ;; set_field "from" (Js.VStr current))) ;;;
  signer_address <-
    match signer with
    | Some p => ret (pair_address p)
    | None => throw (TypeError "Cannot read properties of null (reading 'address')")
    end ;;
  nonce <- lift (of_sum (accountNextIndex signer_address)) ;;
  accountWithOptions <- getAccountWithOptions ;;
  signedTx_hash <- (if unsigned then ret (hash extrinsic) else lift (of_sum (signAsync extrinsic))) ;;
  lockPair ;;;
  assign_identity signedTx_hash.



End BaseApi.

(** ** BaseApi: reading the history, and the public key of an address *)

(** [Object.values(v)]: the values of the own enumerable properties, one
    for each name; [None] stands for the [TypeError] on [null] and
    [undefined]. *)
Definition Object_values (v : Js.value) : option (list Js.value) :=
  match v with
  | Js.VUndef | Js.VNull => None
  | _ => Some (List.map snd (Js.spread v))
  end.

(** The names a [for (const id in v)] loop visits: the own enumerable
    properties, each once. *)
Definition for_in_keys (v : Js.value) : list string := List.map fst (Js.spread v).

(** [Buffer.from(bytes).toString('hex')]: two lower-case digits a byte. *)
Definition hex_of_byte (b : Byte.byte) : string :=
  let n := Byte.to_nat b in
  String (Json.hex_digit (n / 16)) (String (Json.hex_digit (n mod 16)) EmptyString).

Fixpoint Buffer_toString_hex (bytes : list Byte.byte) : string :=
  match bytes with
  | [] => EmptyString
  | b :: r => hex_of_byte b +:+ Buffer_toString_hex r
  end.

Section BaseApiReading.

Context `{host : Host}.

(** [get historyList()] *)
Definition historyList : M (list Js.value) :=
  h <- get_history ;;
  match Object_values h with
  | Some items => ret items
  | None => throw (TypeError "Cannot convert undefined or null to object")
  end.

(** [getFilteredHistory(filterFn)], for a filter that is a predicate. *)
Definition getFilteredHistory (filterFn : Js.value -> bool) : M Js.obj :=
  currentHistory <- get_history ;;
  ret (fold_left
         (fun filtered id =>
            let item := default Js.VUndef (Js.member currentHistory id) in
            if filterFn item then Js.put id item filtered else filtered)
         (for_in_keys currentHistory) []).

(** [getPublicKeyByAddress(address)] *)
Definition getPublicKeyByAddress (address : Js.value) : outcome string :=
  match decodeAddress address with
  | Some publicKey => Returns (Buffer_toString_hex publicKey)
  | None => Throws (Error "Invalid decoded address")
  end.

End BaseApiReading.

(** ** BaseApi: the static network fees *)

Module Fee.

(** [enum Operation], in full. *)
Inductive Operation : Type :=
| Swap
| Transfer
| AddLiquidity
| RemoveLiquidity
| CreatePair
| Faucet
| RegisterAsset
| EthBridgeOutgoing
| EthBridgeIncoming
| EvmOutgoing
| EvmIncoming
| ClaimRewards
| ClaimVestedRewards
| ClaimCrowdloanRewards
| ClaimLiquidityProvisionRewards
| ClaimExternalRewards
| TransferAll
| SwapAndSend
| ReferralReserveXor
| ReferralUnreserveXor
| ReferralSetInvitedUser
| DemeterFarmingDepositLiquidity
| DemeterFarmingWithdrawLiquidity
| DemeterFarmingStakeToken
| DemeterFarmingUnstakeToken
| DemeterFarmingGetRewards
| CeresLiquidityLockerLockLiquidity.

Definition Operation_value (o : Operation) : string :=
  match o with
  | Swap => "Swap"
  | Transfer => "Transfer"
  | AddLiquidity => "AddLiquidity"
  | RemoveLiquidity => "RemoveLiquidity"
  | CreatePair => "CreatePair"
  | Faucet => "Faucet"
  | RegisterAsset => "RegisterAsset"
  | EthBridgeOutgoing => "EthBridgeOutgoing"
  | EthBridgeIncoming => "EthBridgeIncoming"
  | EvmOutgoing => "EvmOutgoing"
  | EvmIncoming => "EvmIncoming"
  | ClaimRewards => "ClaimRewards"
  | ClaimVestedRewards => "ClaimVestedRewards"
  | ClaimCrowdloanRewards => "ClaimCrowdloanRewards"
  | ClaimLiquidityProvisionRewards => "LiquidityProvisionRewards"
  | ClaimExternalRewards => "ClaimExternalRewards"
  | TransferAll => "TransferAll"
  | SwapAndSend => "SwapAndSend"
  | ReferralReserveXor => "ReferralReserveXor"
  | ReferralUnreserveXor => "ReferralUnreserveXor"
  | ReferralSetInvitedUser => "ReferralSetInvitedUser"
  | DemeterFarmingDepositLiquidity => "DemeterFarmingDepositLiquidity"
  | DemeterFarmingWithdrawLiquidity => "DemeterFarmingWithdrawLiquidity"
  | DemeterFarmingStakeToken => "DemeterFarmingStakeToken"
  | DemeterFarmingUnstakeToken => "DemeterFarmingUnstakeToken"
  | DemeterFarmingGetRewards => "DemeterFarmingGetRewards"
  | CeresLiquidityLockerLockLiquidity => "CeresLiquidityLockerLockLiquidity"
  end.

(** [api.tx.<pallet>.<method>(...args)]: the call that an extrinsic wraps;
    an argument is a value, or the list of calls of a batch. *)
#[warnings="-register-all"]
Inductive Extrinsic : Type :=
| Call (pallet method : string) (args : list Arg)
with Arg : Type :=
| Plain (v : Js.value)
| Calls (calls : list Extrinsic).

(** The constants of ./dex/consts and ./assets/consts, and the node:
    [extrinsic.paymentInfo(address)] resolves to a partial fee or rejects,
    and [new FPNumber(fee, decimals).toCodecString()] writes it. *)
Class Node : Type := mkNode {
  DexId_XOR : Z;
  XOR_address : string;
  XOR_decimals : Z;
  paymentInfo : Extrinsic -> string -> exn + Z;
  toCodecString : Z -> Z -> string
}.

(** The table [NetworkFee], a [NetworkFeesObject]: a fee for the name of
    an operation. *)
Definition NetworkFee : gmap string string :=
  list_to_map
    (List.map (fun o => (Operation_value o, "0"))
       [AddLiquidity; CreatePair; EthBridgeIncoming; EthBridgeOutgoing; RegisterAsset;
        RemoveLiquidity; Swap; SwapAndSend; Transfer; ClaimVestedRewards;
        ClaimCrowdloanRewards; ClaimLiquidityProvisionRewards; ClaimExternalRewards;
        ReferralReserveXor; ReferralUnreserveXor; ReferralSetInvitedUser;
        DemeterFarmingDepositLiquidity; DemeterFarmingWithdrawLiquidity;
        DemeterFarmingStakeToken; DemeterFarmingUnstakeToken; DemeterFarmingGetRewards;
        CeresLiquidityLockerLockLiquidity]).

Section Fees.

Context `{node : Node}.

Definition str (s : string) : Arg := Plain (Js.VStr s).
Definition num (n : Z) : Arg := Plain (Js.VNum n).
Definition flag (b : bool) : Arg := Plain (Js.VBool b).

Definition WithDesiredInput : Arg :=
  Plain (Js.VObj [("WithDesiredInput",
                   Js.VObj [("desiredAmountIn", Js.VStr "0"); ("minAmountOut", Js.VStr "0")])]).

(** [getEmptyExtrinsic(operation)]; [None] stands for [null]. *)
Definition getEmptyExtrinsic (operation : Operation) : option Extrinsic :=
  match operation with
  | AddLiquidity =>
      Some (Call "poolXYK" "depositLiquidity"
              [num DexId_XOR; str ""; str ""; str "0"; str "0"; str "0"; str "0"])
  | CreatePair =>
      Some (Call "utility" "batchAll"
              [Calls
                 [Call "tradingPair" "register" [num DexId_XOR; str ""; str ""];
                  Call "poolXYK" "initializePool" [num DexId_XOR; str ""; str ""];
                  Call "poolXYK" "depositLiquidity"
                    [num DexId_XOR; str ""; str ""; str "0"; str "0"; str "0"; str "0"]]])
  | EthBridgeIncoming =>
      Some (Call "ethBridge" "requestFromSidechain"
              [str ""; Plain (Js.VObj [("Transaction", Js.VStr "Transfer")]); num 0])
  | EthBridgeOutgoing =>
      Some (Call "ethBridge" "transferToSidechain" [str ""; str ""; str "0"; num 0])
  | RegisterAsset =>
      Some (Call "assets" "register"
              [str ""; str ""; str "0"; flag false; flag false; Plain Js.VNull; Plain Js.VNull])
  | RemoveLiquidity =>
      Some (Call "poolXYK" "withdrawLiquidity"
              [num DexId_XOR; str ""; str ""; str "0"; str "0"; str "0"])
  | Swap =>
      Some (Call "liquidityProxy" "swap"
              [num DexId_XOR; str ""; str ""; WithDesiredInput; Plain (Js.VArr []);
               str "Disabled"])
  | SwapAndSend =>
      Some (Call "liquidityProxy" "swapTransfer"
              [str ""; num DexId_XOR; str ""; str ""; WithDesiredInput; Plain (Js.VArr []);
               str "Disabled"])
  | Transfer => Some (Call "assets" "transfer" [str ""; str ""; str "0"])
  | ClaimVestedRewards => Some (Call "vestedRewards" "claimRewards" [])
  | ClaimCrowdloanRewards =>
      Some (Call "vestedRewards" "claimCrowdloanRewards" [str XOR_address])
  | ClaimLiquidityProvisionRewards => Some (Call "pswapDistribution" "claimIncentive" [])
  | ClaimExternalRewards =>
      Some (Call "rewards" "claim"
              [str "0xa8811ca9a2f65a4e21bd82a1e121f2a7f0f94006d0d4bcacf50016aef0b67765692bb7a06367365f13a521ec129c260451a682e658048729ff514e77e4cdffab1b"])
  | ReferralReserveXor => Some (Call "referrals" "reserve" [str "0"])
  | ReferralUnreserveXor => Some (Call "referrals" "unreserve" [str "0"])
  | ReferralSetInvitedUser => Some (Call "referrals" "setReferrer" [str ""])
  | DemeterFarmingDepositLiquidity =>
      Some (Call "demeterFarmingPlatform" "deposit"
              [str XOR_address; str XOR_address; str XOR_address; flag true; num 0])
  | DemeterFarmingWithdrawLiquidity =>
      Some (Call "demeterFarmingPlatform" "withdraw"
              [str XOR_address; str XOR_address; str XOR_address; num 0; flag true])
  | DemeterFarmingStakeToken =>
      Some (Call "demeterFarmingPlatform" "deposit"
              [str XOR_address; str XOR_address; str XOR_address; flag false; num 0])
  | DemeterFarmingUnstakeToken =>
      Some (Call "demeterFarmingPlatform" "withdraw"
              [str XOR_address; str XOR_address; str XOR_address; num 0; flag false])
  | DemeterFarmingGetRewards =>
      Some (Call "demeterFarmingPlatform" "getRewards"
              [str XOR_address; str XOR_address; str XOR_address; flag true])
  | CeresLiquidityLockerLockLiquidity =>
      Some (Call "ceresLiquidityLocker" "lockLiquidity"
              [str XOR_address; str XOR_address; num 0; num 100; flag false])
  | _ => None
  end.

(** The local [operations] and [mockAccountAddress] of
    [calcStaticNetworkFees]. *)
Definition operations : list Operation :=
  [AddLiquidity; CreatePair; EthBridgeIncoming; EthBridgeOutgoing; RegisterAsset;
   RemoveLiquidity; Swap; SwapAndSend; Transfer; ClaimVestedRewards;
   ClaimCrowdloanRewards; ClaimLiquidityProvisionRewards; ClaimExternalRewards;
   ReferralReserveXor; ReferralUnreserveXor; ReferralSetInvitedUser;
   DemeterFarmingDepositLiquidity; DemeterFarmingWithdrawLiquidity;
   DemeterFarmingStakeToken; DemeterFarmingUnstakeToken; DemeterFarmingGetRewards;
   CeresLiquidityLockerLockLiquidity].

Definition mockAccountAddress : string :=
  "cnRuw2R6EVgQW3e4h8XeiFym2iU17fNsms15zRGcg9YEJndAs".

(** The loop of [calcStaticNetworkFees] over the operations, on the table:
    a rejection of [paymentInfo] ends it, and the table keeps what was
    written before. *)
Fixpoint calc_fees (ops : list Operation) (fees : gmap string string)
  : outcome unit * gmap string string :=
  match ops with
  | [] => (Returns tt, fees)
  | operation :: rest =>
      match getEmptyExtrinsic operation with
      | Some extrinsic =>
          match paymentInfo extrinsic mockAccountAddress with
          | inr partialFee =>
              calc_fees rest
                (<[Operation_value operation := toCodecString partialFee XOR_decimals]> fees)
          | inl e => (Throws e, fees)
          end
      | None => calc_fees rest fees
      end
  end.

(** [calcStaticNetworkFees()] *)
Definition calcStaticNetworkFees (fees : gmap string string)
  : outcome unit * gmap string string :=
  calc_fees operations fees.

End Fees.

End Fee.

(** ** DexModule *)

Module Dex.

(** [DexInfo] *)
Record DexInfo : Type := mkDexInfo {
  dexId : Z;
  baseAssetId : string;
  syntheticBaseAssetId : string;
  isPublic : bool
}.

(** An entry of [dexManager.dexInfos]: the number of its key, and of its
    value the codes of the base asset and of the synthetic base asset, when
    it has one, and whether the DEX is public. *)
Record DexInfoEntry : Type := mkEntry {
  key_dexId : Z;
  value_baseAssetId : string;
  value_syntheticBaseAssetId : option string;
  value_isPublic : bool
}.

(** The constants of ./consts and ../assets/consts. *)
Class Consts : Type := mkConsts {
  DexId_XOR : Z;
  XOR_address : string;
  XST_address : string
}.

Section DexModule.

Context `{consts : Consts}.

Definition defaultDexId : Z := DexId_XOR.
Definition defaultBaseAssetId : string := XOR_address.
Definition defaultSyntheticAssetId : string := XST_address.

(** The field [dexList] is the state of the module. *)
Variable dexList : list DexInfo.

(** [get publicDexes()] *)
Definition publicDexes : list DexInfo := List.filter (fun dex => isPublic dex) dexList.

(** [get poolBaseAssetsIds()] *)
Definition poolBaseAssetsIds : list string :=
  List.map (fun item => baseAssetId item) publicDexes.

(** [get baseAssetsIds()] *)
Definition baseAssetsIds : list string :=
  List.map (fun item => baseAssetId item) dexList.

(** [getDexId(baseAssetId)] *)
Definition getDexId (asset : string) : Z :=
  match List.find (fun dex => String.eqb (baseAssetId dex) asset) dexList with
  | Some dex => dexId dex
  | None => defaultDexId
  end.

(** [getBaseAssetId(dexId)] *)
Definition getBaseAssetId (id : Z) : string :=
  match List.find (fun dex => dexId dex =? id) dexList with
  | Some dex => baseAssetId dex
  | None => defaultBaseAssetId
  end.

(** [getSyntheticBaseAssetId(dexId)] *)
Definition getSyntheticBaseAssetId (id : Z) : string :=
  match List.find (fun dex => dexId dex =? id) dexList with
  | Some dex => syntheticBaseAssetId dex
  | None => defaultSyntheticAssetId
  end.

End DexModule.

(** [updateList()], for the entries that the query resolves to: the new
    [dexList]. *)
Definition updateList `{consts : Consts} (data : list DexInfoEntry) : list DexInfo :=
  List.map
    (fun entry =>
       mkDexInfo (key_dexId entry) (value_baseAssetId entry)
         (default defaultSyntheticAssetId (value_syntheticBaseAssetId entry))
         (value_isPublic entry))
    data.

End Dex.

(** ** The export of the type definitions

    The functions of the export script that work on JSON values; [None]
    stands for the [TypeError] that a read of [null] or [undefined], or a
    call of what is no function, throws. *)

Module TypesExport.

Import Js.

(** [Object.entries(v)] *)
Definition Object_entries (v : value) : option (list (string * value)) :=
  match v with
  | VUndef | VNull => None
  | _ => Some (spread v)
  end.




(** [buildArrayItem(key, value)] *)
Definition buildArrayItem (key : string) (v : value) : value := VArr [VStr key; v].

(** [buildEnumItem(a)] *)
Definition buildEnumItem (a : value) : option value :=
  match Object_entries a with
  | Some entries =>
      Some (VObj [("type", VStr "enum"); ("values_list", VArr (List.map snd entries))])
  | None => None
  end.

(** [buildStruct(tree)] *)
Definition buildStruct (tree : value) : option value :=
  match Object_entries tree with
  | Some entries =>
      Some (VObj [("type", VStr "struct");
                  ("type_mapping",
                   VArr (List.map (fun kv => buildArrayItem (fst kv) (snd kv)) entries))])
  | None => None
  end.

(** [buildEnumMapItem(o)] *)
Definition buildEnumMapItem (o : value) : option value :=
  match Object_entries o with
  | Some entries =>
      Some (VObj [("type", VStr "enum");
                  ("type_mapping",
                   VArr (List.map (fun kv => buildArrayItem (fst kv) (snd kv)) entries))])
  | None => None
  end.

(** [typeof v == 'object'] *)
Definition typeof_object (v : value) : bool :=
  match v with
  | VNull | VArr _ | VObj _ => true
  | _ => false
  end.

(** [Array.isArray(v)] *)
Definition isArray (v : value) : bool :=
  match v with
  | VArr _ => true
  | _ => false
  end.

(** What the body of the loop of [buildTypes] assigns to [builder[key]]
    for the definition [value]. *)
Definition built_type (v : value) : option value :=
  if negb (typeof_object v) then Some v
  else
    match member v "_enum" with
    | Some el =>
        if truthy el then
          if isArray el then buildEnumItem el else buildEnumMapItem el
        else buildStruct v
    | None => None
    end.

(** [buildTypes(builder, tree)]: the builder at the end of the loop. *)
Fixpoint build_entries (builder : obj) (entries : list (string * value)) : option obj :=
  match entries with
  | [] => Some builder
  | (key, v) :: rest =>
      match built_type v with
      | Some x => build_entries (set key x builder) rest
      | None => None
      end
  end.

Definition buildTypes (builder : obj) (tree : value) : option obj :=
  match Object_entries tree with
  | Some entries => build_entries builder entries
  | None => None
  end.

(** The custom types of [buildTop]. *)
Definition custom_types : obj :=
  [("String", VStr "Text"); ("FixedU128", VStr "u128"); ("U256", VStr "u256");
   ("SessionKeys2", VStr "(AccountId, AccountId)")].

(** [buildTop(inputContent, addCustom)] *)
Definition buildTop (inputContent : value) (addCustom : bool) : option obj :=
  buildTypes (if addCustom then custom_types else []) inputContent.













End TypesExport.

(** ** A host to run the definitions

    [Json] for the JSON object, and the members that arrays and strings had
    in the fifth edition of the language; an address is one character for
    the network prefix followed by the key, and the default format is 42;
    the registry knows the errors of the pallets 2 and 3. *)

Definition simple_decode (a : Js.value) : option PublicKey :=
  match a with
  | Js.VStr (String _ key) => Some (list_byte_of_string key)
  | _ => None
  end.

Definition simple_encode (key : PublicKey) (ss58Format : option Z) : option string :=
  Some (String (ascii_of_nat (Z.to_nat (default 42 ss58Format))) (string_of_list_byte key)).

Definition simple_host : Host :=
  {| JSON_parse := Json.parse;
     JSON_stringify := Json.stringify;
     Array_prototype :=
       ["concat"; "every"; "filter"; "forEach"; "indexOf"; "join"; "lastIndexOf"; "map";
        "pop"; "push"; "reduce"; "reduceRight"; "reverse"; "shift"; "slice"; "some";
        "sort"; "splice"; "unshift"];
     String_prototype :=
       ["charAt"; "charCodeAt"; "concat"; "indexOf"; "lastIndexOf"; "localeCompare";
        "match"; "replace"; "search"; "slice"; "split"; "substring"; "toLowerCase";
        "toLocaleLowerCase"; "toUpperCase"; "toLocaleUpperCase"; "trim"];
     decodeAddress := simple_decode;
     encodeAddress := simple_encode;
     toHmacSHA256 := fun s => "hmac:" +:+ s;
     crypto_encrypt := fun s => "enc:" +:+ s;
     findMetaError := fun m =>
       if index m =? 2 then inr (mkMetaError ["Pool is"; "empty "] "poolXyk" "PoolIsEmpty")
       else if index m =? 3 then inr (mkMetaError [" Unknown"; "error "] "" "")
       else inl (Error "findMetaError: Unable to find Error");
     accountNextIndex := fun _ => inr 7;
     FPNumber_toString := fun c => match c with Some x => text x | None => "NaN" end |}.

(** A host whose codec, like the one of @polkadot/util-crypto, takes the
    hexadecimal text of a key for an address, and encodes the keys of 1, 2,
    4, 8, 32 or 33 bytes only.  [bytes_of_hex] gives the bytes that an even
    number of hexadecimal digits denotes. *)
Fixpoint bytes_of_hex (digits : string) : option PublicKey :=
  match digits with
  | EmptyString => Some []
  | String c1 (String c2 rest) =>
      match Json.hex_val c1, Json.hex_val c2, bytes_of_hex rest with
      | Some a, Some b, Some key =>
          match Byte.of_nat (16 * a + b) with
          | Some x => Some (x :: key)
          | None => None
          end
      | _, _, _ => None
      end
  | String _ EmptyString => None
  end.

Definition strict_decode (a : Js.value) : option PublicKey :=
  match a with
  | Js.VStr (String "0" (String "x" digits)) =>
      match bytes_of_hex digits with
      | Some key => Some key
      | None => simple_decode a
      end
  | _ => simple_decode a
  end.

Definition strict_encode (key : PublicKey) (ss58Format : option Z) : option string :=
  match simple_encode key ss58Format with
  | Some (String c r) =>
      if existsb (Nat.eqb (length key)) [1; 2; 4; 8; 32; 33]%nat && negb (Ascii.eqb c "0")
      then Some (String c r) else None
  | _ => None
  end.

Definition strict_host : Host :=
  {| JSON_parse := Json.parse;
     JSON_stringify := Json.stringify;
     Array_prototype := Array_prototype (Host := simple_host);
     String_prototype := String_prototype (Host := simple_host);
     decodeAddress := strict_decode;
     encodeAddress := strict_encode;
     toHmacSHA256 := fun s => "hmac:" +:+ s;
     crypto_encrypt := fun s => "enc:" +:+ s;
     findMetaError := fun _ => inl (Error "findMetaError: Unable to find Error");
     accountNextIndex := fun _ => inr 7;
     FPNumber_toString := fun c => match c with Some x => text x | None => "NaN" end |}.

(** An account of key [alice], its address in the default format, with
    the common storage set and the account storage initialised. *)
Definition alice : CreateResult := mkAccount (mkPair "*alice" false).

Definition fresh : State :=
  mkState "history" (Js.VObj []) None None None false ∅ [1000; 1001; 1002; 1003]
    [] [] false false [].

Definition signed_in : State :=
  snd ((setAccount alice ;;; setStorage (mkStorage "sora") ;;;
        initAccountStorage (host := simple_host))%js fresh).

(** The same account when the stored text of its history is not JSON. *)
Definition corrupted : State :=
  with_disk (<[("hmac:*alice", "history") := "{"]> (disk signed_in)) signed_in.

(** Events of a block: a fee withdrawal, the two transfers of a liquidity
    deposit, and a failed extrinsic with a module error or with another
    error. *)
Definition plain (t : string) : Codec := mkCodec t (Js.VStr t) None None.

Definition fee_withdrawn : ChainEvent :=
  mkEvent "xorFee" "FeeWithdrawn" [plain "alice"; plain "700"].

Definition transfer (sec amount : string) : ChainEvent :=
  mkEvent sec "Transfer" [plain "alice"; plain "pool"; plain amount].

Definition failed_with (err : Codec) : ChainEvent :=
  mkEvent "system" "ExtrinsicFailed" [err; plain "info"].

Definition pool_is_empty : Codec :=
  mkCodec "module" Js.VNull None (Some (mkModuleError 2 0)).

Definition bad_origin : Codec := mkCodec "BadOrigin" (Js.VStr "BadOrigin") None None.

(** An error of a pallet that the registry does not know. *)
Definition unknown_module_error : Codec :=
  mkCodec "module" Js.VNull None (Some (mkModuleError 9 0)).

(** The account of [alice] with the record of a liquidity deposit in flight. *)
Definition depositing : State :=
  with_history [("type", Js.VStr "AddLiquidity"); ("id", Js.VStr "0x03")] signed_in.

(** A swap whose send the node rejects for its nonce, and the state of the
    account once [submitExtrinsic] has signed it; the same with the
    observable in use. *)
Definition nonce_too_low : exn := Error "1010: Invalid Transaction: nonce too low".

Definition rejected_swap : SubmittableExtrinsic :=
  mkExtrinsic "0xraw" (inr "0xsigned") (Rejects nonce_too_low).

Definition swap : Js.obj := [("type", Js.VStr "Swap")].


Definition prepared : State :=
  snd (prepare (host := simple_host) rejected_swap (Some (pair alice)) (Some swap) false
         signed_in).




(** A swap that the node includes and finalizes. *)
Definition finalized_swap : SubmittableExtrinsic :=
  mkExtrinsic "0xraw" (inr "0xsigned")
    (Delivers [mkResult Ready []; mkResult (InBlock "0xAA") [];
               mkResult (Finalized "0xAA") [fee_withdrawn]]).

(** ** The vocabulary of the statements *)

(** A record without an identifier: [null], [undefined], or an object whose
    [id] is absent, [undefined] or the empty string. *)
Definition lacks_id (item : Js.value) : Prop :=
  item = Js.VNull \/ item = Js.VUndef \/
  exists o, item = Js.VObj o /\ (Js.get "id" o = Js.VUndef \/ Js.get "id" o = Js.VStr "").

(** The law of the address codec: an encoded key decodes to itself,
    whatever the format. *)
Definition codec_round_trip `{host : Host} : Prop :=
  forall (key : PublicKey) (format : option Z) (a : string),
    encodeAddress key format = Some a -> decodeAddress (Js.VStr a) = Some key.

(** The stored text of a namespace reads as the mapping [m]: no text or
    the empty text for the empty mapping, or a text that deserializes to the
    object [m]. *)
Definition holds_mapping `{host : Host} (text : option string) (m : Js.obj) : Prop :=
  (text = None /\ m = []) \/ (text = Some EmptyString /\ m = []) \/
  exists blob, text = Some blob /\ blob <> EmptyString /\ JSON_parse blob = Some (Js.VObj m).

(** The mapping after [saveHistory] merged [item] into the mapping [m]:
    the merged record is assigned under the key of its [id] (for the key
    [__proto__] that [m] does not hold, the assignment defines no property
    and the mapping is as it was). *)
Definition merged `{host : Host} (m item : Js.obj) (options : option SaveHistoryOptions) : Js.obj :=
  let key := Js.toString (Js.get "id" item) in
  Js.put key (Js.VObj (merged_item (Js.get key m) (Js.VObj item) options)) m.

(** A record of the account [*bob], and a record of the active account as
    [submitExtrinsic] writes its [from]. *)
Definition bobs_record : Js.obj :=
  [("id", Js.VStr "0x01"); ("from", Js.VStr "Ebob"); ("type", Js.VStr "Swap")].

Definition alices_record : Js.obj :=
  [("id", Js.VStr "0x02"); ("from", Js.VStr "Ealice"); ("type", Js.VStr "Swap")].

(** The text of a message after its last colon, or the whole message when
    it has no colon. *)
Fixpoint has_colon (s : string) : bool :=
  match s with
  | EmptyString => false
  | String c r => Ascii.eqb c ":" || has_colon r
  end.

Fixpoint after_last_colon (s : string) : string :=
  match s with
  | EmptyString => EmptyString
  | String c r =>
      if has_colon r then after_last_colon r
      else if Ascii.eqb c ":" then r else s
  end.






(** The events the callback tells apart, and the data the chain gives them:
    [xorFee.FeeWithdrawn(account, fee)], [assets.AssetRegistered(asset,
    owner)] and [system.ExtrinsicFailed(error, info)]. *)
Definition is_transfer (ev : ChainEvent) : bool :=
  String.eqb (ev_method ev) "Transfer"
  && existsb (String.eqb (ev_section ev)) ["balances"; "tokens"].

Definition is_failed (ev : ChainEvent) : bool :=
  String.eqb (ev_section ev) "system" && String.eqb (ev_method ev) "ExtrinsicFailed".

Definition has_expected_data (ev : ChainEvent) : bool :=
  if String.eqb (ev_method ev) "FeeWithdrawn" && String.eqb (ev_section ev) "xorFee"
  then (2 <=? length (data ev))%nat
  else if String.eqb (ev_method ev) "AssetRegistered" && String.eqb (ev_section ev) "assets"
  then (1 <=? length (data ev))%nat
  else if is_failed ev then (1 <=? length (data ev))%nat
  else true.

Definition is_final (r : SubmittableResult) : bool :=
  match status r with
  | Finalized _ => true
  | _ => false
  end.

(** The amount an event carries, formatted: its last field. *)
Definition formatted_amount `{host : Host} (ev : ChainEvent) : string :=
  FPNumber_toString (last (data ev)).

(** A field of the record of the submission. *)
Definition record_field (k : string) (s : State) : Js.value := Js.get k (history s).

(** The two amounts of the record, and what one transfer event does to
    them in the spec's words: into [amount] if unset, else into [amount2]. *)
Definition amounts (s : State) : Js.value * Js.value :=
  (record_field "amount" s, record_field "amount2" s).

Definition record_amount (formatted : string) (p : Js.value * Js.value)
  : Js.value * Js.value :=
  if Js.truthy (fst p) then (fst p, Js.VStr formatted) else (Js.VStr formatted, snd p).

(** The module error of a failed extrinsic that the registry does not
    find: [findMetaError] throws for it. *)
Definition unknown_error `{host : Host} (ev : ChainEvent) : option exn :=
  if is_failed ev then
    match data ev with
    | err :: _ =>
        match asModule err with
        | Some m =>
            match findMetaError m with
            | inl e => Some e
            | inr _ => None
            end
        | None => None
        end
    | [] => None
    end
  else None.

Definition error_is_known `{host : Host} (ev : ChainEvent) : bool :=
  match unknown_error ev with
  | Some _ => false
  | None => true
  end.

(** The error message of a failed extrinsic, in the spec's words: the pair
    of name and section when the error is a module error the registry
    decodes with both, the documentation text of a module error otherwise,
    and the string form of any other error; there is none for a module error
    that the registry does not find. *)
Definition failure_message `{host : Host} (ev : ChainEvent) : option Js.value :=
  match data ev with
  | err :: _ =>
      match asModule err with
      | Some m =>
          match findMetaError m with
          | inr decoded =>
              Some (if negb (String.eqb (section decoded) EmptyString)
                       && negb (String.eqb (name decoded) EmptyString)
                    then Js.VObj [("name", Js.VStr (name decoded));
                                  ("section", Js.VStr (section decoded))]
                    else Js.VStr (Js.trim (Js.join " " (docs decoded))))
          | inl _ => None
          end
      | None => Some (Js.VStr (text err))
      end
  | [] => None
  end.

(** The record when the callback starts on a finalized status: the status
    and the end time are written, and the clock has advanced. *)
Definition at_finalized (s : State) : State :=
  let s1 := with_history (Js.set "status" (Js.VStr "finalized") (history s)) s in
  with_history (Js.set "endTime" (Js.VNum (now s1)) (history (tick s1))) (tick s1).

(** The end of the callback on a finalized status, after the events: the
    terminal notification, the completion and the end of the subscription. *)
Definition conclude (subscriber : bool) (s : State) : State :=
  let s1 :=
    if subscriber && negb (completed s)
    then with_notified (notified s ++ [(terminal_phase (history s), history s)]) s
    else s in
  with_unsubscribed true (if subscriber then with_completed true s1 else s1).

(** The subscription: what the subscriber was told, and whether it is
    completed and the callback unsubscribed. *)
Definition subscription (s : State) : list ExtrinsicEvent * bool * bool :=
  (notified s, completed s, unsubscribed s).

(** The record when the rejection handler saves it: the identifier derived
    from the start time, the error status, the end time and the message. *)
Definition rejection_id `{host : Host} (s : State) : string :=
  encrypt (Js.toString (record_field "startTime" s)).

Definition at_rejection `{host : Host} (info : option string) (s : State) : State :=
  let s1 :=
    with_history
      (Js.set "status" (Js.VStr "error")
         (Js.set "id" (Js.VStr (rejection_id s)) (history s))) s in
  with_history
    (Js.set "errorMessage" (optional_string info)
       (Js.set "endTime" (Js.VNum (now s1)) (history (tick s1)))) (tick s1).

(** The options of the save of the rejection handler. *)
Definition not_generated : option SaveHistoryOptions := Some (mkOptions true false).

(** The names of the properties of an object, in order. *)
Definition keys (o : Js.obj) : list string := List.map fst o.

(** [v ?? null] *)
Definition or_null (v : Js.value) : Js.value :=
  match v with
  | Js.VUndef | Js.VNull => Js.VNull
  | _ => v
  end.

(** [m ?? null] for what a read gives: a built-in is neither [null] nor
    [undefined]. *)
Definition or_null_member (mem : Js.Member) : Js.Member :=
  match mem with
  | Js.Data v => Js.Data (or_null v)
  | Js.Builtin k => Js.Builtin k
  end.

(** The law of the JSON object for a value [v]: its text is not empty and
    deserializes to [v]. *)
Definition json_round_trip `{host : Host} (v : Js.value) : Prop :=
  JSON_stringify v <> EmptyString /\ JSON_parse (JSON_stringify v) = Some v.

(** What is read after a write of [v] gives [v] back: there is no account
    storage, so that the cache is read, or the JSON object gives [v] back. *)
Definition reads_back `{host : Host} (v : Js.value) (s : State) : Prop :=
  accountStorage s = None \/ json_round_trip v.

(** A name that lodash's [omit] takes as a property name and not as a path:
    it has no dot and no opening bracket. *)
Fixpoint plain_key (id : string) : bool :=
  match id with
  | EmptyString => true
  | String c r => negb (Ascii.eqb c ".") && negb (Ascii.eqb c "[") && plain_key r
  end.

(** A history of two records in the cache, without account storage. *)
Definition browsing : State :=
  with__history (Js.VObj [("0x01", Js.VObj bobs_record); ("0x02", Js.VObj alices_record)])
    fresh.

Definition is_swap (item : Js.value) : bool :=
  match item with
  | Js.VObj o => Js.is_str (Js.get "type" o) "Swap"
  | _ => false
  end.

Definition from_bob (item : Js.value) : bool :=
  match item with
  | Js.VObj o => Js.is_str (Js.get "from" o) "Ebob"
  | _ => false
  end.

(** An update of the record [0x02]: its status only. *)
Definition finalized_update : Js.obj :=
  [("id", Js.VStr "0x02"); ("status", Js.VStr "finalized")].

Definition to_current_account : option SaveHistoryOptions := Some (mkOptions false true).

(** The byte that two hexadecimal digits write. *)
Definition hex_value (c : ascii) : nat :=
  let n := nat_of_ascii c in
  if (n <? 58)%nat then (n - 48)%nat else (n - 87)%nat.

Definition byte_of_hex (c1 c2 : ascii) : option Byte.byte :=
  Byte.of_nat (16 * hex_value c1 + hex_value c2).

(** A record without [from], as [submitExtrinsic] keeps the record of a
    faucet operation. *)
Definition faucet_record : Js.obj :=
  [("id", Js.VStr "0x05"); ("type", Js.VStr "Faucet")].

(** What [prepare] does to the pair of an account [before]: locked when it
    returns, as it was when it throws. *)
Definition locks_the_pair (before : option CreateResult) (r : outcome unit * State) : Prop :=
  match r with
  | (Returns _, s') =>
      exists acc, before = Some acc /\
                  account s' = Some (mkAccount (mkPair (pair_address (pair acc)) true))
  | (Throws _, s') => account s' = before
  end.

(** The operation of the record and, for an operation that is no liquidity
    operation, its two amounts. *)
Definition amounts_unless_liquidity (s : State) : Js.value * option (Js.value * Js.value) :=
  (record_field "type" s,
   if isLiquidityPoolOperation (record_field "type" s) then None else Some (amounts s)).



Definition numeric_rejection : exn := Thrown (Js.VObj [("message", Js.VNum 1010)]).

(** Two nodes to run the fees: one that answers every [paymentInfo] with
    the same partial fee, and one that rejects the calls of the pallet
    [rewards]. *)
Definition answering_node : Fee.Node :=
  {| Fee.DexId_XOR := 0;
     Fee.XOR_address := "0x0200000000000000000000000000000000000000000000000000000000000000";
     Fee.XOR_decimals := 18;
     Fee.paymentInfo := fun _ _ => inr 700;
     Fee.toCodecString := fun fee _ => Js.string_of_Z fee |}.

Definition rejecting_node : Fee.Node :=
  {| Fee.DexId_XOR := 0;
     Fee.XOR_address := "0x0200000000000000000000000000000000000000000000000000000000000000";
     Fee.XOR_decimals := 18;
     Fee.paymentInfo := fun extrinsic _ =>
       match extrinsic with
       | Fee.Call pallet _ _ =>
           if String.eqb pallet "rewards" then inl (Error "Transaction is outdated")
           else inr 700
       end;
     Fee.toCodecString := fun fee _ => Js.string_of_Z fee |}.

(** The constants and two entries of the DEX manager: the DEX of XOR, and
    a private DEX with a synthetic base asset of its own. *)
Definition sora_consts : Dex.Consts :=
  {| Dex.DexId_XOR := 0; Dex.XOR_address := "0x0200000000"; Dex.XST_address := "0x0200090000" |}.

Definition dex_entries : list Dex.DexInfoEntry :=
  [Dex.mkEntry 0 "0x0200000000" None true;
   Dex.mkEntry 1 "0x0200080000" (Some "0x0200070000") false].

(** The account of [alice] when the stored text of its history is the JSON
    text [null]. *)
Definition nulled : State :=
  with_disk (<[("hmac:*alice", "history") := "null"]> (disk signed_in)) signed_in.


(** Type definitions as the export reads them: a structure, a list of
    variants, and an alias. *)
Definition local_types : Js.obj :=
  [("TradingPair", Js.VObj [("base_asset_id", Js.VStr "AssetId");
                            ("target_asset_id", Js.VStr "AssetId")]);
   ("AssetKind", Js.VObj [("_enum", Js.VArr [Js.VStr "Thischain"; Js.VStr "Sidechain"])]);
   ("Amount", Js.VStr "i128")].




(** What a method leaves alone: [preserves P m] when the observation [P] of
    the state is the same after [m], whether [m] returns or throws. *)
Definition preserves {A B : Type} (P : State -> B) (m : M A) : Prop :=
  forall s, P (snd (m s)) = P s.

(** Everything but the ledger (the cache [_history] and the persistent
    medium). *)
Definition outside_ledger (s : State) :=
  (historyNamespace s, storage s, accountStorage s, account s,
   shouldObservableBeUsed s, clock s, history s, notified s, completed s,
   unsubscribed s, uncaught s).

(** * Properties *)

(** ** Objects *)

Module JsFacts.

Import Js.

Lemma lookup_app (k : string) (o1 o2 : obj) :
  lookup k (o1 ++ o2) =
  match lookup k o2 with
  | Some x => Some x
  | None => lookup k o1
  end.
Proof.
  induction o1 as [|[k' v] o1 IH]; simpl.
  - by destruct (lookup k o2).
  - rewrite IH. destruct (lookup k o2); [done|]. reflexivity.
Qed.

Lemma lookup_replace_eq (k : string) (v : value) (o : obj) :
  lookup k (replace k v o) = if has k o then Some v else None.
Proof.
  unfold has. induction o as [|[k' v'] o IH]; simpl; [done|].
  destruct (String.eqb_spec k' k) as [->|Hne]; simpl.
  - rewrite IH, String.eqb_refl. by destruct (lookup k o).
  - rewrite IH. destruct (lookup k o); [done|].
    by apply String.eqb_neq in Hne as ->.
Qed.

Lemma lookup_replace_ne (k k' : string) (v : value) (o : obj) :
  k <> k' -> lookup k' (replace k v o) = lookup k' o.
Proof.
  intros Hne. induction o as [|[k0 v0] o IH]; simpl; [done|].
  destruct (String.eqb_spec k0 k) as [->|Hne0]; simpl; rewrite IH; [|done].
  destruct (lookup k' o); [done|].
  apply String.eqb_neq in Hne as ->. done.
Qed.

Lemma lookup_set_eq (k : string) (v : value) (o : obj) :
  lookup k (set k v o) = Some v.
Proof.
  unfold set. destruct (has k o) eqn:Hh.
  - by rewrite lookup_replace_eq, Hh.
  - rewrite lookup_app. simpl. by rewrite String.eqb_refl.
Qed.

Lemma lookup_set_ne (k k' : string) (v : value) (o : obj) :
  k <> k' -> lookup k' (set k v o) = lookup k' o.
Proof.
  intros Hne. unfold set. destruct (has k o).
  - by apply lookup_replace_ne.
  - rewrite lookup_app. simpl. by apply String.eqb_neq in Hne as ->.
Qed.

Lemma get_set_eq (k : string) (v : value) (o : obj) : get k (set k v o) = v.
Proof. unfold get. by rewrite lookup_set_eq. Qed.

Lemma put_set (k : string) (v : value) (o : obj) :
  k <> "__proto__" -> put k v o = set k v o.
Proof. intros Hk. unfold put. by apply String.eqb_neq in Hk as ->. Qed.

Lemma lookup_put_eq (k : string) (v : value) (o : obj) :
  k <> "__proto__" -> lookup k (put k v o) = Some v.
Proof. intros Hk. rewrite put_set by done. apply lookup_set_eq. Qed.

Lemma lookup_put_ne (k k' : string) (v : value) (o : obj) :
  k <> k' -> lookup k' (put k v o) = lookup k' o.
Proof.
  intros Hne. unfold put. destruct (_ && _); [done|]. by apply lookup_set_ne.
Qed.


Lemma get_put_ne (k k' : string) (v : value) (o : obj) :
  k <> k' -> get k' (put k v o) = get k' o.
Proof. intros Hne. unfold get. by rewrite lookup_put_ne. Qed.

(** The assignment of the prototype defines no property. *)
Lemma put_proto (v : value) (o : obj) :
  has "__proto__" o = false -> put "__proto__" v o = o.
Proof. intros Hh. unfold put. by rewrite Hh. Qed.

Lemma get_set_ne (k k' : string) (v : value) (o : obj) :
  k <> k' -> get k' (set k v o) = get k' o.
Proof. intros. unfold get. by rewrite lookup_set_ne. Qed.

Lemma lookup_delete_eq (k : string) (o : obj) : lookup k (delete k o) = None.
Proof.
  induction o as [|[k' v] o IH]; simpl; [done|].
  destruct (String.eqb_spec k' k) as [->|Hne]; simpl; [done|].
  rewrite IH. by apply String.eqb_neq in Hne as ->.
Qed.

Lemma lookup_delete_ne (k k' : string) (o : obj) :
  k <> k' -> lookup k' (delete k o) = lookup k' o.
Proof.
  intros Hne. induction o as [|[k0 v] o IH]; simpl; [done|].
  destruct (String.eqb_spec k0 k) as [->|Hne0]; simpl.
  - rewrite IH. destruct (lookup k' o); [done|].
    by apply String.eqb_neq in Hne as ->.
  - by rewrite IH.
Qed.

(** A spread gives the properties of the source, and keeps the properties
    of the target that the source does not have. *)
Lemma lookup_assign (k : string) (source target : obj) :
  lookup k (assign target source) =
  match lookup k source with
  | Some x => Some x
  | None => lookup k target
  end.
Proof.
  unfold assign. revert target.
  induction source as [|[k' v] source IH]; intros target; simpl; [done|].
  rewrite IH. destruct (lookup k source); [done|].
  destruct (String.eqb_spec k' k) as [->|Hne].
  - apply lookup_set_eq.
  - by apply lookup_set_ne.
Qed.

Lemma lookup_spread2_obj (k : string) (a : value) (b : obj) :
  lookup k (spread2 a (VObj b)) =
  match lookup k b with
  | Some x => Some x
  | None => lookup k (own_props a)
  end.
Proof.
  unfold spread2, spread. simpl. rewrite !lookup_assign. simpl.
  destruct (lookup k b); [done|]. by destruct (lookup k (own_props a)).
Qed.

Lemma get_spread (k : string) (o : obj) : get k (spread (VObj o)) = get k o.
Proof.
  unfold get, spread. rewrite lookup_assign. simpl. by destruct (lookup k o).
Qed.


(** [split] and the text after the last separator. *)
Lemma split_no_colon (s : string) : has_colon s = false -> split ":" s = [s].
Proof.
  induction s as [|c r IH]; simpl; [done|].
  intros H. apply orb_false_iff in H as [Hc Hr].
  rewrite Hc, (IH Hr). done.
Qed.

Lemma split_colon (s : string) :
  has_colon s = true -> exists p q qs, split ":" s = p :: q :: qs.
Proof.
  induction s as [|c r IH]; simpl; [done|].
  destruct (Ascii.eqb c ":") eqn:Hc; simpl.
  - intros _. destruct (has_colon r) eqn:Hr.
    + destruct (IH eq_refl) as (p & q & qs & ->). by eexists _, _, _.
    + rewrite (split_no_colon r Hr). by eexists _, _, _.
  - intros Hr. destruct (IH Hr) as (p & q & qs & ->). by eexists _, _, _.
Qed.

Lemma after_last_colon_no_colon (s : string) :
  has_colon s = false -> after_last_colon s = s.
Proof.
  destruct s as [|c r]; simpl; [done|].
  intros H. apply orb_false_iff in H as [Hc Hr]. by rewrite Hr, Hc.
Qed.

Lemma last_split (s : string) : last (split ":" s) = Some (after_last_colon s).
Proof.
  induction s as [|c r IH]; simpl; [done|].
  destruct (has_colon r) eqn:Hr.
  - destruct (split_colon r Hr) as (p & q & qs & Hs). rewrite Hs in *.
    destruct (Ascii.eqb c ":"); exact IH.
  - rewrite (split_no_colon r Hr) in *. by destruct (Ascii.eqb c ":").
Qed.

End JsFacts.

(** ** Frames of the monad *)

Section Frames.

Context {A B C : Type} (P : State -> C).

Lemma preserves_ret (a : A) : preserves P (ret a).
Proof. by intros s. Qed.

Lemma preserves_throw (e : exn) : preserves P (throw (A := A) e).
Proof. by intros s. Qed.

Lemma preserves_lift (r : outcome A) : preserves P (lift r).
Proof. by intros s. Qed.

Lemma preserves_gets (f : State -> A) : preserves P (gets f).
Proof. by intros s. Qed.

Lemma preserves_modify (f : State -> State) :
  (forall s, P (f s) = P s) -> preserves P (modify f).
Proof. intros H s. apply H. Qed.

Lemma preserves_bind (m : M A) (k : A -> M B) :
  preserves P m -> (forall a, preserves P (k a)) -> preserves P (bind m k).
Proof.
  intros Hm Hk s. unfold bind. specialize (Hm s).
  destruct (m s) as [[a | e] s1]; simpl in *; [|done].
  by rewrite Hk.
Qed.

Lemma preserves_try_catch (m : M A) (h : exn -> M A) :
  preserves P m -> (forall e, preserves P (h e)) -> preserves P (try_catch m h).
Proof.
  intros Hm Hh s. unfold try_catch. specialize (Hm s).
  destruct (m s) as [[a | e] s1]; simpl in *; [done|].
  by rewrite Hh.
Qed.

End Frames.

Create HintDb frame.

#[local] Hint Resolve preserves_ret preserves_throw preserves_lift preserves_gets : frame.

(** One step of a frame proof: split a bind, a conditional or a match, or
    close a leaf. *)
Ltac frame_step :=
  match goal with
  | |- preserves _ (bind _ _) => apply preserves_bind; [|intros ?]
  | |- preserves _ (try_catch _ _) => apply preserves_try_catch; [|intros ?]
  | |- preserves _ (ret _) => apply preserves_ret
  | |- preserves _ (throw _) => apply preserves_throw
  | |- preserves _ (lift _) => apply preserves_lift
  | |- preserves _ (gets _) => apply preserves_gets
  | |- preserves _ (modify _) => apply preserves_modify; intros ?; reflexivity
  | |- preserves _ (if ?b then _ else _) => destruct b
  | |- preserves _ (match ?x with _ => _ end) => destruct x
  | |- preserves _ _ => solve [auto with frame]
  end.

Ltac frame := repeat frame_step.

Lemma throws_bind {A B : Type} (m : M A) (k : A -> M B) (s s' : State) (e : exn) :
  bind m k s = (Throws e, s') ->
  m s = (Throws e, s') \/ exists a s1, m s = (Returns a, s1) /\ k a s1 = (Throws e, s').
Proof.
  unfold bind. destruct (m s) as [[a|e0] s1].
  - intros H. right. by exists a, s1.
  - intros H. left. by simplify_eq.
Qed.

Lemma pure_run {A : Type} (m : M A) (s s1 : State) (r : outcome A) :
  preserves (fun s => s) m -> m s = (r, s1) -> s1 = s.
Proof. intros Hp Hm. specialize (Hp s). by rewrite Hm in Hp. Qed.

(** One step of a method that leaves the state alone, on the way to the
    step that throws. *)
Ltac pure_step H :=
  let H1 := fresh "H" in
  apply throws_bind in H as [H | (? & ? & H1 & H)];
  [ apply pure_run in H; [done | try solve [frame]]
  | apply pure_run in H1; [subst | try solve [frame]] ].

(** ** The history ledger *)

Section Ledger.

Context `{host : Host}.

(** C10: [saveHistory] of a record that is [null] or [undefined], or whose
    [id] is absent or empty, returns without an error and leaves the whole
    state as it is: the in-memory cache and every entry of the persistent
    medium. *)
Theorem saveHistory_without_id_is_noop (item : Js.value)
    (options : option SaveHistoryOptions) (s : State) :
  lacks_id item -> saveHistory item options s = (Returns tt, s).
Proof.
  intros [-> | [-> | (o & -> & Hid)]]; [reflexivity | reflexivity |].
  unfold saveHistory, bind, read_member, ret. simpl.
  by destruct Hid as [-> | ->].
Qed.

(** C1, as amended: with an account storage, reading the history returns
    the deserialized text of the namespace when it deserializes, the empty
    mapping when the namespace holds no text or the empty text, and throws
    the [SyntaxError] of [JSON.parse], leaving the cache as it was, when the
    text does not deserialize. *)
Theorem history_getter_reads_or_throws (s : State) (st : AccountStorage) :
  accountStorage s = Some st ->
  let stored := disk s !! (identity st, historyNamespace s) in
  (forall blob v, stored = Some blob -> blob <> EmptyString -> JSON_parse blob = Some v ->
     get_history s = (Returns v, with__history v s)) /\
  (stored = None \/ stored = Some EmptyString ->
     get_history s = (Returns (Js.VObj []), with__history (Js.VObj []) s)) /\
  (forall blob, stored = Some blob -> blob <> EmptyString -> JSON_parse blob = None ->
     get_history s = (Throws SyntaxError, s)).
Proof.
  intros Hst stored. subst stored. unfold get_history. rewrite Hst.
  split; [|split].
  - intros blob v -> Hne ->. by apply String.eqb_neq in Hne as ->.
  - by intros [-> | ->].
  - intros blob -> Hne ->. by apply String.eqb_neq in Hne as ->.
Qed.

(** C9, as amended: for an address that [formatAddress] formats without the
    network prefix, under the law of the codec (an encoded key decodes to
    itself), formatting the form without the prefix with the prefix does
    what formatting the address itself with the prefix does; when this
    returns, the round trip returns the same form, which decodes to the key
    of the address. *)
Theorem formatAddress_round_trip (addr : Js.value) (plain : string) :
  codec_round_trip ->
  formatAddress addr false = Returns plain ->
  formatAddress (Js.VStr plain) true = formatAddress addr true /\
  exists key,
    decodeAddress addr = Some key /\
    forall sora,
      formatAddress addr true = Returns sora ->
      formatAddress (Js.VStr plain) true = Returns sora /\
      decodeAddress (Js.VStr sora) = Some key.
Proof.
  intros Hlaw. unfold formatAddress.
  destruct (decodeAddress addr) as [key|]; [|done].
  destruct (encodeAddress key None) as [a|] eqn:Hplain; [|done].
  intros [= <-]. rewrite (Hlaw _ _ _ Hplain). split; [done|].
  exists key. split; [done|]. intros sora Hsora. split; [done|].
  destruct (encodeAddress key (Some prefix)) as [b|] eqn:Hb; [|done].
  injection Hsora as <-. by apply (Hlaw _ _ _ Hb).
Qed.

Lemma address_preserves {C : Type} (P : State -> C) : preserves P address.
Proof. intros s. unfold address. by destruct (account s). Qed.

Lemma get_history_outside : preserves outside_ledger get_history.
Proof.
  intros s. unfold get_history.
  destruct (accountStorage s); [|done].
  destruct (disk s !! _); [|done].
  destruct (negb _); [|done]. by destruct (JSON_parse _).
Qed.

Lemma set_history_outside (v : Js.value) : preserves outside_ledger (set_history v).
Proof. intros s. unfold set_history. by destruct (accountStorage s). Qed.

#[local] Hint Resolve address_preserves get_history_outside set_history_outside : frame.

(** [saveHistory] reads and writes the ledger only: the record it is given,
    the clock and the subscription are as before, whether it returns or
    throws. *)
Lemma saveHistory_outside (item : Js.value) (options : option SaveHistoryOptions) :
  preserves outside_ledger (saveHistory item options).
Proof.
  unfold saveHistory, needToUpdateAddressStorage, merge_into, read_member, read_any,
    write_member, parse_or_empty, AccountStorage_get, AccountStorage_set.
  frame.
Qed.

Lemma address_run (s : State) (r : outcome string) :
  fst (address s) = r -> address s = (r, s).
Proof. intros <-. unfold address. by destruct (account s). Qed.

Lemma parse_or_empty_holds (text : option string) (m : Js.obj) (s : State) :
  holds_mapping text m -> parse_or_empty text s = (Returns (Js.VObj m), s).
Proof.
  intros [[-> ->] | [[-> ->] | (blob & -> & Hne & Hp)]]; [done | done |].
  unfold parse_or_empty. apply String.eqb_neq in Hne as ->. simpl. by rewrite Hp.
Qed.

(** A member that the mapping inherits under the key of the record gives
    the merged record nothing, as no record does. *)
Lemma merged_item_enumerable (m : Js.obj) (key : string) (mem : Js.Member)
    (item : Js.value) (options : option SaveHistoryOptions) :
  read (Js.VObj m) key = Some mem ->
  merged_item (Js.enumerable mem) item options = merged_item (Js.get key m) item options.
Proof.
  unfold read. simpl. intros [= <-].
  destruct (negb (Js.has key m) && _) eqn:E; [|done].
  apply andb_true_iff in E as [Hh _]. apply negb_true_iff in Hh.
  unfold Js.has in Hh. unfold Js.get. by destruct (Js.lookup key m).
Qed.

Lemma merge_into_object (m item : Js.obj) (options : option SaveHistoryOptions) (s : State) :
  merge_into (Js.VObj m) (Js.VObj item) (Js.get "id" item) options s
  = (Returns (Js.VObj (merged m item options)), s).
Proof.
  unfold merge_into, read_any, bind, merged.
  destruct (read (Js.VObj m) _) as [mem|] eqn:Hr; [|done].
  unfold ret, write_member. simpl.
  by rewrite (merged_item_enumerable _ _ _ _ _ Hr).
Qed.

Lemma saveHistory_branches (item : Js.obj) (options : option SaveHistoryOptions)
    (s : State) (a : string) (need : bool) :
  Js.truthy (Js.get "id" item) = true ->
  historyItemFromAddress (Js.get "from" item) = Returns a ->
  needToUpdateAddressStorage options a s = (Returns need, s) ->
  saveHistory (Js.VObj item) options s =
  (if need then
     stored <- AccountStorage_get (mkAccountStorage (toHmacSHA256 a)) (historyNamespace s) ;;
     historyCopy <- parse_or_empty stored ;;
     historyCopy' <- merge_into historyCopy (Js.VObj item) (Js.get "id" item) options ;;
     AccountStorage_set (mkAccountStorage (toHmacSHA256 a)) (historyNamespace s)
       (JSON_stringify historyCopy')
   else
     h <- get_history ;;
     historyCopy' <- merge_into (Js.VObj (Js.spread h)) (Js.VObj item) (Js.get "id" item) options ;;
     set_history historyCopy')%js s.
Proof.
  intros Hid Hfrom Hneed.
  unfold saveHistory, bind, read_member, ret, lift, gets. simpl.
  rewrite Hid. simpl. rewrite Hfrom, Hneed. by destruct need.
Qed.

Lemma need_true (options : option SaveHistoryOptions) (a current : string) (s : State) :
  option_flag toCurrentAccount options = false ->
  a <> EmptyString ->
  fst (address s) = Returns current ->
  a <> current ->
  storage s <> None ->
  needToUpdateAddressStorage options a s = (Returns true, s).
Proof.
  intros Hflag Ha Hcur Hne Hst. apply address_run in Hcur.
  unfold needToUpdateAddressStorage. rewrite Hflag.
  apply String.eqb_neq in Ha as ->. unfold bind. rewrite Hcur.
  unfold gets, ret. apply String.eqb_neq in Hne as ->.
  by destruct (storage s).
Qed.

Lemma need_false (options : option SaveHistoryOptions) (a current : string) (s : State) :
  fst (address s) = Returns current ->
  option_flag toCurrentAccount options = true \/ a = EmptyString \/ a = current
  \/ storage s = None ->
  needToUpdateAddressStorage options a s = (Returns false, s).
Proof.
  intros Hcur Hcase. apply address_run in Hcur.
  unfold needToUpdateAddressStorage.
  destruct (option_flag toCurrentAccount options); [done|].
  destruct (String.eqb_spec a EmptyString) as [|Ha]; [done|].
  unfold bind. rewrite Hcur. unfold gets, ret.
  destruct Hcase as [? | [? | [-> | ->]]]; [done | done | |].
  - by rewrite String.eqb_refl.
  - by rewrite andb_false_r.
Qed.


Lemma save_to_address_store (item : Js.obj) (options : option SaveHistoryOptions)
    (s : State) (a : string) (m : Js.obj) :
  Js.truthy (Js.get "id" item) = true ->
  historyItemFromAddress (Js.get "from" item) = Returns a ->
  needToUpdateAddressStorage options a s = (Returns true, s) ->
  holds_mapping (disk s !! (toHmacSHA256 a, historyNamespace s)) m ->
  saveHistory (Js.VObj item) options s
  = (Returns tt,
     with_disk (<[(toHmacSHA256 a, historyNamespace s) :=
                    JSON_stringify (Js.VObj (merged m item options))]> (disk s)) s).
Proof.
  intros Hid Hfrom Hneed Hm.
  rewrite (saveHistory_branches _ _ _ _ _ Hid Hfrom Hneed).
  unfold bind, AccountStorage_get, gets. simpl.
  by rewrite (parse_or_empty_holds _ m s Hm), merge_into_object.
Qed.

Lemma save_to_active_account (item : Js.obj) (options : option SaveHistoryOptions)
    (s s1 : State) (a : string) (h : Js.value) :
  Js.truthy (Js.get "id" item) = true ->
  historyItemFromAddress (Js.get "from" item) = Returns a ->
  needToUpdateAddressStorage options a s = (Returns false, s) ->
  get_history s = (Returns h, s1) ->
  saveHistory (Js.VObj item) options s
  = set_history (Js.VObj (merged (Js.spread h) item options)) s1.
Proof.
  intros Hid Hfrom Hneed Hget.
  rewrite (saveHistory_branches _ _ _ _ _ Hid Hfrom Hneed).
  unfold bind at 1. rewrite Hget. unfold bind. by rewrite merge_into_object.
Qed.

(** C8, as amended.  For a record with an identifier, a non-empty [from]
    whose form without the prefix differs from the address of the active
    account, with the common storage set and no [toCurrentAccount], when the
    namespace of the storage whose identity is the hash of that form holds
    no text, the empty text or the JSON text of an object: the mapping with
    the merged record assigned under the identifier is written to that
    namespace, and nothing else changes (the cache, and every other entry of
    the persistent medium, so the stored history of the active account is as
    before whenever its storage has another identity).  With
    [toCurrentAccount], or when the two addresses are equal, the history of
    the active account, when it reads, is merged and written.  (Under the
    identifier [__proto__], which the mapping does not hold, the assignment
    sets the prototype: the mapping is written without the record.) *)
Theorem saveHistory_target (item : Js.obj) (options : option SaveHistoryOptions)
    (s : State) (a current : string) :
  Js.truthy (Js.get "id" item) = true ->
  Js.truthy (Js.get "from" item) = true ->
  formatAddress (Js.get "from" item) false = Returns a ->
  a <> EmptyString ->
  fst (address s) = Returns current ->
  (forall m : Js.obj,
     a <> current ->
     storage s <> None ->
     option_flag toCurrentAccount options = false ->
     holds_mapping (disk s !! (toHmacSHA256 a, historyNamespace s)) m ->
     let s' := with_disk (<[(toHmacSHA256 a, historyNamespace s) :=
                              JSON_stringify (Js.VObj (merged m item options))]> (disk s)) s in
     saveHistory (Js.VObj item) options s = (Returns tt, s') /\
     _history s' = _history s /\
     (forall key, key <> (toHmacSHA256 a, historyNamespace s) ->
        disk s' !! key = disk s !! key) /\
     (forall st, accountStorage s = Some st -> identity st <> toHmacSHA256 a ->
        disk s' !! (identity st, historyNamespace s) = disk s !! (identity st, historyNamespace s))) /\
  (forall (h : Js.value) (s1 : State),
     option_flag toCurrentAccount options = true \/ a = current ->
     get_history s = (Returns h, s1) ->
     saveHistory (Js.VObj item) options s
     = set_history (Js.VObj (merged (Js.spread h) item options)) s1).
Proof.
  intros Hid Hfrom Hfmt Ha Hcur.
  assert (Hfa : historyItemFromAddress (Js.get "from" item) = Returns a).
  { unfold historyItemFromAddress. by rewrite Hfrom. }
  split.
  - intros m Hne Hst Hflag Hm s'.
    split; [|split; [done|split]].
    + apply save_to_address_store; [done | done | | done].
      by apply need_true with current.
    + intros key Hkey. subst s'. simpl. by rewrite lookup_insert_ne.
    + intros st _ Hident. subst s'. simpl. rewrite lookup_insert_ne; [done|].
      intros [= E]. by rewrite E in Hident.
  - intros h s1 Hcase Hget.
    apply save_to_active_account with a; [done | done | | done].
    apply need_false with current; [done|]. destruct Hcase; auto.
Qed.





Lemma merged_item_lookup (existing : Js.value) (item : Js.obj)
    (options : option SaveHistoryOptions) (k : string) :
  Js.lookup k (merged_item existing (Js.VObj item) options) =
  if option_flag wasNotGenerated options && String.eqb k "txId" then None
  else match Js.lookup k item with
       | Some x => Some x
       | None => Js.lookup k (Js.own_props (Js.or_else existing (Js.VObj [])))
       end.
Proof.
  unfold merged_item. destruct (option_flag wasNotGenerated options); simpl.
  - destruct (String.eqb_spec k "txId") as [->|Hne].
    + apply JsFacts.lookup_delete_eq.
    + rewrite JsFacts.lookup_delete_ne by done. apply JsFacts.lookup_spread2_obj.
  - apply JsFacts.lookup_spread2_obj.
Qed.






Lemma need_pure (options : option SaveHistoryOptions) (a : string) :
  preserves (fun s => s) (needToUpdateAddressStorage options a).
Proof.
  unfold needToUpdateAddressStorage.
  destruct (option_flag toCurrentAccount options); [frame|].
  destruct (String.eqb a EmptyString); [frame|].
  apply preserves_bind; [apply address_preserves|]. intros ?. frame.
Qed.

Lemma merge_into_pure (historyCopy historyItem id : Js.value)
    (options : option SaveHistoryOptions) :
  preserves (fun s => s) (merge_into historyCopy historyItem id options).
Proof. unfold merge_into, read_any, write_member. frame. Qed.

Lemma merge_into_returns (m : Js.obj) (historyItem id : Js.value)
    (options : option SaveHistoryOptions) (s : State) :
  exists v, merge_into (Js.VObj m) historyItem id options s = (Returns v, s).
Proof. unfold merge_into, read_any, read, bind. simpl. by eexists. Qed.

Lemma get_history_throws (s s' : State) (e : exn) :
  get_history s = (Throws e, s') -> s' = s.
Proof.
  unfold get_history. intros H. repeat case_match; by simplify_eq.
Qed.

(** [saveHistory] writes all or nothing: when it throws, the state is as it
    was. *)
Lemma saveHistory_throws_keeps (item : Js.value) (options : option SaveHistoryOptions)
    (s s' : State) (e : exn) :
  saveHistory item options s = (Throws e, s') -> s' = s.
Proof.
  intros H. unfold saveHistory in H.
  destruct (negb (Js.truthy item)); [done|].
  pure_step H; try (unfold read_member; frame).
  destruct (negb (Js.truthy _)); [done|].
  pure_step H; try (unfold read_member; frame).
  pure_step H.
  pure_step H; try apply need_pure.
  pure_step H.
  match goal with H : (if ?need then _ else _) _ = _ |- _ => destruct need end.
  - pure_step H; try (unfold AccountStorage_get; frame).
    pure_step H; try (unfold parse_or_empty; frame).
    pure_step H; try apply merge_into_pure.
    done.
  - apply throws_bind in H as [H | (h & s1 & _ & H)];
      [by apply get_history_throws in H|].
    apply throws_bind in H as [H | (? & ? & _ & H)]; [|done].
    match type of H with
    | merge_into (Js.VObj ?m) ?i ?k ?o ?st = _ =>
        destruct (merge_into_returns m i k o st) as [v Hv]
    end.
    congruence.
Qed.

End Ledger.

(** ** The submission *)

Section Submission.

Context `{host : Host}.

Lemma history_tick (s : State) : history (tick s) = history s.
Proof. unfold tick. by destruct (clock s). Qed.

Lemma preserves_set_field (k key : string) (v : Js.value) :
  key <> k -> preserves (record_field k) (set_field key v).
Proof. intros Hne s. unfold record_field. simpl. by apply JsFacts.get_set_ne. Qed.

Lemma preserves_Date_now (k : string) : preserves (record_field k) Date_now.
Proof. intros s. unfold Date_now, tick. simpl. by destruct (clock s). Qed.

Lemma preserves_subscriber_next (k : string) (subscriber : bool) (phase : Phase) :
  preserves (record_field k) (subscriber_next subscriber phase).
Proof. intros s. simpl. by destruct (subscriber && negb (completed s)). Qed.

Lemma preserves_subscriber_complete (k : string) (subscriber : bool) :
  preserves (record_field k) (subscriber_complete subscriber).
Proof. intros s. simpl. by destruct subscriber. Qed.

Lemma preserves_saveHistory (k : string) (item : Js.value)
    (options : option SaveHistoryOptions) :
  preserves (record_field k) (saveHistory item options).
Proof.
  intros s. pose proof (saveHistory_outside item options s) as H.
  unfold outside_ledger in H. unfold record_field. congruence.
Qed.

Lemma saveHistory_history (item : Js.value) (options : option SaveHistoryOptions) :
  preserves history (saveHistory item options).
Proof.
  intros s. pose proof (saveHistory_outside item options s) as H.
  unfold outside_ledger in H. congruence.
Qed.

Lemma preserves_field (k key : string) : preserves (record_field k) (field key).
Proof. by intros s. Qed.

End Submission.

#[local] Hint Resolve preserves_Date_now preserves_subscriber_next
  preserves_subscriber_complete preserves_saveHistory preserves_field : frame.

(** A write of the record leaves the other fields; the key may be chosen by
    a conditional. *)
Ltac frame_field :=
  match goal with
  | |- preserves (record_field _) (set_field _ _) =>
      apply preserves_set_field; repeat case_match; discriminate
  | H : ?c = false, H' : ?c = true |- _ => congruence
  | H : ?c = false, H' : ?c && _ = true |- _ => rewrite H in H'; discriminate
  | |- preserves _ (if ?b then _ else _) => destruct b eqn:?
  | |- _ => frame_step
  end.

Ltac frame_fields := repeat frame_field.

Section Events.

Context `{host : Host}.


Lemma on_event_type (ev : ChainEvent) : preserves (record_field "type") (on_event ev).
Proof. unfold on_event. frame_fields. Qed.

(** Only [system.ExtrinsicFailed] writes [status] and [errorMessage]. *)
Lemma on_event_status (ev : ChainEvent) :
  is_failed ev = false -> preserves (record_field "status") (on_event ev).
Proof. unfold is_failed, on_event. intros H. frame_fields. Qed.

Lemma on_event_errorMessage (ev : ChainEvent) :
  is_failed ev = false -> preserves (record_field "errorMessage") (on_event ev).
Proof. unfold is_failed, on_event. intros H. frame_fields. Qed.

(** Only a transfer event of a liquidity operation writes the amounts. *)
Lemma on_event_amount (ev : ChainEvent) :
  is_transfer ev = false -> preserves (record_field "amount") (on_event ev).
Proof. unfold is_transfer, on_event. intros H. frame_fields. Qed.

Lemma on_event_amount2 (ev : ChainEvent) :
  is_transfer ev = false -> preserves (record_field "amount2") (on_event ev).
Proof. unfold is_transfer, on_event. intros H. frame_fields. Qed.

(** An event with the data of its kind, and with an error that the
    registry knows, is processed without an exception. *)
Lemma on_event_returns (ev : ChainEvent) (s : State) :
  has_expected_data ev = true -> error_is_known ev = true ->
  exists s', on_event ev s = (Returns tt, s').
Proof.
  unfold has_expected_data, error_is_known, unknown_error, is_failed, on_event, bind,
    field, gets, set_field, modify, Date_now, ret, throw, lift, of_sum.
  intros H Hk. repeat case_match; simplify_eq; try done; by eexists.
Qed.

Lemma error_is_known_other (ev : ChainEvent) : is_failed ev = false -> error_is_known ev = true.
Proof. unfold error_is_known, unknown_error. by intros ->. Qed.

(** A transfer event of a liquidity operation writes its formatted amount
    into [amount] if that is unset, else into [amount2]. *)
Lemma on_event_transfer (ev : ChainEvent) (s : State) :
  is_transfer ev = true ->
  isLiquidityPoolOperation (record_field "type" s) = true ->
  on_event ev s
  = (Returns tt,
     with_history
       (Js.set (if negb (Js.truthy (record_field "amount" s)) then "amount" else "amount2")
          (Js.VStr (formatted_amount ev)) (history s)) s).
Proof.
  unfold is_transfer, record_field, on_event, bind, field, gets. simpl.
  intros H Hliq. apply andb_true_iff in H as [Hm Hsec].
  pose proof Hm as Hm'. apply String.eqb_eq in Hm'. rewrite Hm'. simpl.
  rewrite Hm' in Hm. cbn in Hsec. rewrite Hsec, Hliq. reflexivity.
Qed.

Lemma on_event_amounts (ev : ChainEvent) (s : State) :
  isLiquidityPoolOperation (record_field "type" s) = true ->
  has_expected_data ev = true ->
  error_is_known ev = true ->
  exists s',
    on_event ev s = (Returns tt, s') /\
    record_field "type" s' = record_field "type" s /\
    amounts s' = if is_transfer ev then record_amount (formatted_amount ev) (amounts s)
                 else amounts s.
Proof.
  intros Hliq Hok Hk. destruct (on_event_returns ev s Hok Hk) as [s' Hrun].
  exists s'. split; [done|]. split.
  { pose proof (on_event_type ev s) as H. by rewrite Hrun in H. }
  destruct (is_transfer ev) eqn:Ht.
  - rewrite (on_event_transfer ev s Ht Hliq) in Hrun. injection Hrun as <-.
    unfold amounts, record_amount, record_field. simpl.
    destruct (Js.truthy (Js.get "amount" (history s))); simpl.
    + by rewrite JsFacts.get_set_eq, JsFacts.get_set_ne.
    + by rewrite JsFacts.get_set_eq, JsFacts.get_set_ne.
  - pose proof (on_event_amount ev Ht s) as H1.
    pose proof (on_event_amount2 ev Ht s) as H2.
    rewrite Hrun in H1, H2. unfold amounts. simpl in *. by rewrite H1, H2.
Qed.

(** The loop over the events: the amounts at its end are those of the
    start, changed by the transfer events in order. *)
Lemma forEach_amounts (evs : list ChainEvent) (s : State) :
  isLiquidityPoolOperation (record_field "type" s) = true ->
  Forall (fun ev => has_expected_data ev = true) evs ->
  Forall (fun ev => error_is_known ev = true) evs ->
  exists s',
    forEach evs s = (Returns tt, s') /\
    amounts s' = fold_left (fun p ev => record_amount (formatted_amount ev) p)
                   (List.filter is_transfer evs) (amounts s).
Proof.
  revert s. induction evs as [|ev evs IH]; intros s Hliq Hok Hknown.
  - by eexists.
  - inversion Hok as [|? ? Hev Hevs]; subst.
    inversion Hknown as [|? ? Hkev Hkevs]; subst.
    destruct (on_event_amounts ev s Hliq Hev Hkev) as (s1 & Hrun & Htype & Ham).
    rewrite <- Htype in Hliq.
    destruct (IH s1 Hliq Hevs Hkevs) as (s' & Hrest & Hfinal).
    exists s'. split.
    + simpl. unfold bind. by rewrite Hrun.
    + rewrite Hfinal, Ham. simpl. by destruct (is_transfer ev).
Qed.

Lemma forEach_preserves {C : Type} (P : State -> C) (evs : list ChainEvent) :
  Forall (fun ev => preserves P (on_event ev)) evs -> preserves P (forEach evs).
Proof.
  induction 1 as [|ev evs Hev _ IH]; simpl.
  - apply preserves_ret.
  - apply preserves_bind; [done|]. by intros _.
Qed.

Lemma forEach_returns (evs : list ChainEvent) (s : State) :
  Forall (fun ev => has_expected_data ev = true) evs ->
  Forall (fun ev => error_is_known ev = true) evs ->
  exists s', forEach evs s = (Returns tt, s').
Proof.
  revert s. induction evs as [|ev evs IH]; intros s Hok Hknown.
  - by eexists.
  - inversion Hok as [|? ? Hev Hevs]; subst.
    inversion Hknown as [|? ? Hkev Hkevs]; subst.
    destruct (on_event_returns ev s Hev Hkev) as [s1 Hrun].
    destruct (IH s1 Hevs Hkevs) as [s' Hrest].
    exists s'. simpl. unfold bind. by rewrite Hrun.
Qed.

(** The failed extrinsic: the status is the error tag and the message is
    set. *)
Lemma on_event_failed (ev : ChainEvent) (s : State) :
  is_failed ev = true ->
  has_expected_data ev = true ->
  error_is_known ev = true ->
  exists s',
    on_event ev s = (Returns tt, s') /\
    record_field "status" s' = Js.VStr "error" /\
    Some (record_field "errorMessage" s') = failure_message ev.
Proof.
  unfold is_failed, has_expected_data, error_is_known, unknown_error, failure_message.
  intros Hf Hok Hknown.
  unfold is_failed in Hok, Hknown. rewrite Hf in Hok, Hknown.
  apply andb_true_iff in Hf as [Hsec Hm].
  apply String.eqb_eq in Hsec, Hm.
  unfold on_event, bind, field, gets, set_field, modify, Date_now, ret, throw, lift,
    of_sum, record_field.
  rewrite Hsec, Hm in *. simpl in *.
  destruct (data ev) as [|err rest]; [done|]. simpl.
  destruct (asModule err) as [m|]; [destruct (findMetaError m) as [e|decoded]; [done|]|];
    eexists; (split; [reflexivity|]); simpl; rewrite history_tick; simpl; split.
  all: by rewrite ?JsFacts.get_set_eq, ?JsFacts.get_set_ne, ?JsFacts.get_set_eq by discriminate.
Qed.

(** The failed extrinsic with a module error that the registry does not
    find: the status and the end time are written, and the lookup throws
    before the error message is. *)
Lemma on_event_unknown (ev : ChainEvent) (e : exn) (s : State) :
  unknown_error ev = Some e ->
  exists s',
    on_event ev s = (Throws e, s') /\
    record_field "status" s' = Js.VStr "error" /\
    record_field "errorMessage" s' = record_field "errorMessage" s.
Proof.
  unfold unknown_error. destruct (is_failed ev) eqn:Hf; [|done].
  unfold is_failed in Hf. apply andb_true_iff in Hf as [Hsec Hm].
  apply String.eqb_eq in Hsec, Hm.
  unfold on_event, bind, field, gets, set_field, modify, Date_now, ret, throw, lift,
    of_sum, record_field.
  rewrite Hsec, Hm. simpl.
  destruct (data ev) as [|err rest]; [done|].
  destruct (asModule err) as [m|]; [|done].
  destruct (findMetaError m) as [e0|decoded]; [|done].
  intros [= ->]. eexists. split; [reflexivity|]. simpl. rewrite history_tick. simpl.
  split; by rewrite ?JsFacts.get_set_eq, ?JsFacts.get_set_ne, ?JsFacts.get_set_eq,
              ?JsFacts.get_set_ne by discriminate.
Qed.

(** The callback on a finalized status, when no event throws: the events
    are processed from [at_finalized], the subscriber is told, and the
    record is saved. *)
Lemma on_result_finalized (subscriber : bool) (blockHash : string)
    (evs : list ChainEvent) (s s2 : State) :
  forEach evs (at_finalized s) = (Returns tt, s2) ->
  on_result subscriber (mkResult (Finalized blockHash) evs) s
  = saveHistory (Js.VObj (history s2)) None (conclude subscriber s2).
Proof.
  intros Hrun. unfold at_finalized in Hrun. cbv zeta in Hrun.
  cbv beta iota zeta delta [on_result bind set_field modify Date_now gets
    subscriber_next subscriber_complete status events].
  change (Js.toLowerCase (status_key (Finalized blockHash))) with "finalized".
  rewrite Hrun. unfold conclude. by destruct subscriber, (completed s2).
Qed.

Lemma forEach_app (evs1 evs2 : list ChainEvent) (s : State) :
  forEach (evs1 ++ evs2) s = (forEach evs1 ;;; forEach evs2) s.
Proof.
  revert s. induction evs1 as [|ev evs1 IH]; intros s; simpl; [done|].
  unfold bind in *. destruct (on_event ev s) as [[[]|e] s1]; [|done]. apply IH.
Qed.

(** The events leave the subscription alone. *)
Lemma Date_now_subscription : preserves subscription Date_now.
Proof. intros s. unfold Date_now, tick. simpl. by destruct (clock s). Qed.

Lemma on_event_subscription (ev : ChainEvent) : preserves subscription (on_event ev).
Proof.
  pose proof Date_now_subscription.
  unfold on_event, set_field, field. frame.
Qed.

Lemma forEach_subscription (evs : list ChainEvent) : preserves subscription (forEach evs).
Proof.
  apply forEach_preserves, Forall_forall. intros ev _. apply on_event_subscription.
Qed.

Lemma at_finalized_field (k : string) (s : State) :
  k <> "status" -> k <> "endTime" ->
  record_field k (at_finalized s) = record_field k s.
Proof.
  intros H1 H2. unfold at_finalized, record_field. simpl.
  rewrite history_tick. simpl. by rewrite !JsFacts.get_set_ne.
Qed.

Lemma at_finalized_status (s : State) :
  record_field "status" (at_finalized s) = Js.VStr "finalized".
Proof.
  unfold at_finalized, record_field. simpl. rewrite history_tick. simpl.
  by rewrite JsFacts.get_set_ne, JsFacts.get_set_eq.
Qed.

Lemma at_finalized_subscription (s : State) :
  subscription (at_finalized s) = subscription s.
Proof. unfold at_finalized, subscription, tick. simpl. by destruct (clock s). Qed.

(** The state after the callback on a finalized status, when no event
    throws: the record is the one the events left, and the subscription is
    concluded; saving the record changes neither. *)
Lemma on_result_finalized_state (subscriber : bool) (blockHash : string)
    (evs : list ChainEvent) (s s2 : State) :
  forEach evs (at_finalized s) = (Returns tt, s2) ->
  let s' := snd (on_result subscriber (mkResult (Finalized blockHash) evs) s) in
  history s' = history s2 /\
  subscription s' = subscription (conclude subscriber s2) /\
  uncaught s' = uncaught s2.
Proof.
  intros Hrun s'. subst s'. rewrite (on_result_finalized _ _ _ _ _ Hrun).
  pose proof (saveHistory_outside (Js.VObj (history s2)) None (conclude subscriber s2)) as H.
  unfold outside_ledger in H. unfold subscription.
  assert (Hc : history (conclude subscriber s2) = history s2
               /\ uncaught (conclude subscriber s2) = uncaught s2).
  { unfold conclude. by destruct subscriber, (completed s2). }
  destruct Hc as [Hc1 Hc2]. rewrite <- Hc1, <- Hc2.
  repeat split; congruence.
Qed.

(** The callback on a finalized status, when an event throws: the callback
    stops there, before the terminal notification, the end of the
    subscription and the save. *)
Lemma on_result_finalized_throws (subscriber : bool) (blockHash : string)
    (evs : list ChainEvent) (s s2 : State) (e : exn) :
  forEach evs (at_finalized s) = (Throws e, s2) ->
  on_result subscriber (mkResult (Finalized blockHash) evs) s = (Throws e, s2).
Proof.
  intros Hrun. unfold at_finalized in Hrun. cbv zeta in Hrun.
  cbv beta iota zeta delta [on_result bind set_field modify Date_now gets
    subscriber_next subscriber_complete status events].
  change (Js.toLowerCase (status_key (Finalized blockHash))) with "finalized".
  by rewrite Hrun.
Qed.

(** The record after the callback on a finalized status is the record that
    the events left, whether an event throws or not. *)
Lemma on_result_finalized_history (subscriber : bool) (blockHash : string)
    (evs : list ChainEvent) (s : State) :
  history (snd (on_result subscriber (mkResult (Finalized blockHash) evs) s))
  = history (snd (forEach evs (at_finalized s))).
Proof.
  destruct (forEach evs (at_finalized s)) as [[[]|e] s2] eqn:Hrun.
  - by destruct (on_result_finalized_state subscriber blockHash evs s s2 Hrun) as (-> & _).
  - by rewrite (on_result_finalized_throws _ _ _ _ _ _ Hrun).
Qed.

(** The amounts after the events [evs], which are processed, and the
    events [rest], which are no transfers and may throw. *)
Lemma forEach_amounts_then (evs rest : list ChainEvent) (s : State) :
  isLiquidityPoolOperation (record_field "type" s) = true ->
  Forall (fun ev => has_expected_data ev = true) evs ->
  Forall (fun ev => error_is_known ev = true) evs ->
  Forall (fun ev => is_transfer ev = false) rest ->
  amounts (snd (forEach (evs ++ rest) s))
  = fold_left (fun p ev => record_amount (formatted_amount ev) p)
      (List.filter is_transfer evs) (amounts s).
Proof.
  intros Hliq Hok Hknown Hrest.
  destruct (forEach_amounts evs s Hliq Hok Hknown) as (s2 & Hrun & <-).
  rewrite forEach_app. unfold bind. rewrite Hrun. unfold amounts.
  by rewrite (forEach_preserves (record_field "amount") rest
                (Forall_impl _ _ _ Hrest on_event_amount) s2),
             (forEach_preserves (record_field "amount2") rest
                (Forall_impl _ _ _ Hrest on_event_amount2) s2).
Qed.

(** C4: a finalized block is processed for the record of a liquidity
    operation whose two amounts are unset.  The events [evs], up to the last
    transfer, carry the data of their kind and errors that the registry
    knows; the events [rest] after them are any events but transfers.  With
    two transfer events in the list, the first fills [amount] and the second
    fills [amount2]; with one, [amount] is filled and [amount2] stays unset.
    The formatted amount of the first transfer is a non-empty text, as every
    rendering of a number. *)
Theorem liquidity_transfers_fill_amounts (subscriber : bool) (blockHash : string)
    (evs rest : list ChainEvent) (s : State) (t1 t2 : ChainEvent) :
  isLiquidityPoolOperation (record_field "type" s) = true ->
  record_field "amount" s = Js.VUndef ->
  record_field "amount2" s = Js.VUndef ->
  Forall (fun ev => has_expected_data ev = true) evs ->
  Forall (fun ev => error_is_known ev = true) evs ->
  Forall (fun ev => is_transfer ev = false) rest ->
  let s' := snd (on_result subscriber (mkResult (Finalized blockHash) (evs ++ rest)) s) in
  (List.filter is_transfer evs = [t1; t2] ->
   formatted_amount t1 <> EmptyString ->
   record_field "amount" s' = Js.VStr (formatted_amount t1) /\
   record_field "amount2" s' = Js.VStr (formatted_amount t2)) /\
  (List.filter is_transfer evs = [t1] ->
   record_field "amount" s' = Js.VStr (formatted_amount t1) /\
   record_field "amount2" s' = Js.VUndef).
Proof.
  intros Hliq Ha Ha2 Hok Hknown Hrest s'.
  rewrite <- (at_finalized_field "type" s) in Hliq by discriminate.
  pose proof (forEach_amounts_then evs rest (at_finalized s) Hliq Hok Hknown Hrest) as Hfinal.
  pose proof (on_result_finalized_history subscriber blockHash (evs ++ rest) s) as Hh.
  fold s' in Hh. unfold amounts in Hfinal.
  rewrite !at_finalized_field, Ha, Ha2 in Hfinal by discriminate.
  unfold record_field in *. rewrite Hh.
  split; intros Hts; rewrite Hts in Hfinal; simpl in Hfinal.
  - intros Hne. unfold record_amount in Hfinal. simpl in Hfinal.
    apply String.eqb_neq in Hne. rewrite Hne in Hfinal. simpl in Hfinal.
    by injection Hfinal as -> ->.
  - unfold record_amount in Hfinal. simpl in Hfinal. by injection Hfinal as -> ->.
Qed.

(** What the events leave of the ledger and of the account: everything. *)
Lemma on_event_ledger (ev : ChainEvent) :
  preserves (fun s => (disk s, _history s, account s, storage s, accountStorage s,
                       historyNamespace s)) (on_event ev).
Proof.
  assert (Hnow : preserves (fun s => (disk s, _history s, account s, storage s,
                                      accountStorage s, historyNamespace s)) Date_now).
  { intros s. unfold Date_now, tick. simpl. by destruct (clock s). }
  unfold on_event, set_field, field. frame.
Qed.

Lemma forEach_ledger (evs : list ChainEvent) :
  preserves (fun s => (disk s, _history s, account s, storage s, accountStorage s,
                       historyNamespace s)) (forEach evs).
Proof. apply forEach_preserves, Forall_forall. intros ev _. apply on_event_ledger. Qed.

Lemma at_finalized_ledger (s : State) :
  (disk (at_finalized s), _history (at_finalized s), account (at_finalized s),
   storage (at_finalized s), accountStorage (at_finalized s),
   historyNamespace (at_finalized s))
  = (disk s, _history s, account s, storage s, accountStorage s, historyNamespace s).
Proof. unfold at_finalized, tick. simpl. by destruct (clock s). Qed.

(** C6, as amended: a finalized block whose events contain
    [system.ExtrinsicFailed] is processed; the events carry the data of
    their kind, [f] is such an event, and the registry knows the errors of
    the events before it.  The status of the record is the error tag.  When
    the registry knows the error of [f], and no event after [f] is a failed
    extrinsic, the phase of the terminal notification is [error] and the
    error message is set: the pair of name and section for a module error
    that the registry decodes with both, a string otherwise.  When the
    registry does not find the module error of [f], the callback throws what
    [findMetaError] throws: the error message is as the events before [f]
    left it, the subscriber is not told, the subscription is not ended, and
    the record is not saved. *)
Theorem failed_extrinsic_is_error (subscriber : bool) (blockHash : string)
    (before after : list ChainEvent) (f : ChainEvent) (s : State) :
  is_failed f = true ->
  Forall (fun ev => has_expected_data ev = true) (before ++ f :: after) ->
  Forall (fun ev => error_is_known ev = true) before ->
  let r := mkResult (Finalized blockHash) (before ++ f :: after) in
  let s' := snd (on_result subscriber r s) in
  (error_is_known f = true ->
   Forall (fun ev => is_failed ev = false) after ->
   record_field "status" s' = Js.VStr "error" /\
   terminal_phase (history s') = error /\
   Some (record_field "errorMessage" s') = failure_message f /\
   ((exists nm sec, nm <> EmptyString /\ sec <> EmptyString /\
       record_field "errorMessage" s' = Js.VObj [("name", Js.VStr nm); ("section", Js.VStr sec)]) \/
    (exists t, record_field "errorMessage" s' = Js.VStr t)) /\
   (subscriber = true -> completed s = false ->
    last (notified s') = Some (error, history s') /\ completed s' = true)) /\
  (forall e, unknown_error f = Some e ->
   fst (on_result subscriber r s) = Throws e /\
   record_field "status" s' = Js.VStr "error" /\
   (Forall (fun ev => is_failed ev = false) before ->
    record_field "errorMessage" s' = record_field "errorMessage" s) /\
   subscription s' = subscription s /\
   disk s' = disk s /\ _history s' = _history s).
Proof.
  intros Hf Hok Hknown r s'.
  apply Forall_app in Hok as [Hbefore Hok].
  inversion Hok as [|? ? Hfok Hafterok]; subst.
  destruct (forEach_returns before (at_finalized s) Hbefore Hknown) as [sa Hrun_a].
  split.
  - intros Hfknown Hafter.
    assert (Hafterknown : Forall (fun ev => error_is_known ev = true) after).
    { eapply Forall_impl; [exact Hafter|]. apply error_is_known_other. }
    destruct (on_event_failed f sa Hf Hfok Hfknown) as (sb & Hrun_f & Hstatus & Hmsg).
    destruct (forEach_returns after sb Hafterok Hafterknown) as [s2 Hrun_b].
    assert (Hrun : forEach (before ++ f :: after) (at_finalized s) = (Returns tt, s2)).
    { rewrite forEach_app. unfold bind. rewrite Hrun_a. simpl. unfold bind.
      by rewrite Hrun_f. }
    destruct (on_result_finalized_state subscriber blockHash _ s s2 Hrun) as (Hh & Hsub & _).
    fold r in Hh, Hsub. fold s' in Hh, Hsub.
    assert (Hstatus2 : record_field "status" s2 = Js.VStr "error").
    { pose proof (forEach_preserves (record_field "status") after) as H.
      rewrite <- Hstatus. specialize (H (Forall_impl _ _ _ Hafter on_event_status) sb).
      by rewrite Hrun_b in H. }
    assert (Hmsg2 : Some (record_field "errorMessage" s2) = failure_message f).
    { pose proof (forEach_preserves (record_field "errorMessage") after) as H.
      rewrite <- Hmsg. specialize (H (Forall_impl _ _ _ Hafter on_event_errorMessage) sb).
      rewrite Hrun_b in H. simpl in H. by rewrite H. }
    assert (Hphase : terminal_phase (history s2) = error).
    { unfold terminal_phase. unfold record_field in Hstatus2. by rewrite Hstatus2. }
    unfold record_field in *. rewrite Hh.
    split; [done|]. split; [done|]. split; [done|]. split.
    + unfold failure_message in Hmsg2.
      destruct (data f) as [|err rest]; [done|].
      destruct (asModule err) as [m|]; [|right; injection Hmsg2 as ->; by eexists].
      destruct (findMetaError m) as [e|decoded]; [done|]. injection Hmsg2 as ->.
      destruct (String.eqb_spec (section decoded) EmptyString) as [|Hs]; simpl;
        [right; by eexists|].
      destruct (String.eqb_spec (name decoded) EmptyString) as [|Hn]; simpl;
        [right; by eexists|].
      left. by exists (name decoded), (section decoded).
    + intros -> Hc.
      assert (Hc2 : completed s2 = false).
      { pose proof (forEach_subscription (before ++ f :: after) (at_finalized s)) as H.
        rewrite Hrun, at_finalized_subscription in H. unfold subscription in H.
        simpl in H. congruence. }
      unfold subscription, conclude in Hsub. rewrite Hc2 in Hsub. simpl in Hsub.
      injection Hsub as Hn Hcomp _. rewrite Hn, Hcomp, Hphase.
      split; [|done]. by rewrite last_snoc.
  - intros e Hunknown.
    destruct (on_event_unknown f e sa Hunknown) as (sb & Hrun_f & Hstatus & Hmsg).
    assert (Hrun : forEach (before ++ f :: after) (at_finalized s) = (Throws e, sb)).
    { rewrite forEach_app. unfold bind. rewrite Hrun_a. simpl. unfold bind.
      by rewrite Hrun_f. }
    pose proof (on_result_finalized_throws subscriber blockHash _ s sb e Hrun) as Hres.
    fold r in Hres. subst s'. rewrite Hres. simpl.
    pose proof (forEach_subscription (before ++ f :: after) (at_finalized s)) as Hsub.
    pose proof (forEach_ledger (before ++ f :: after) (at_finalized s)) as Hled.
    pose proof (at_finalized_ledger s) as Hat.
    rewrite Hrun in Hsub, Hled. cbv beta in Hled. cbn [snd] in Hsub, Hled.
    rewrite at_finalized_subscription in Hsub. rewrite Hat in Hled.
    injection Hled as Hdisk Hcache _ _ _ _.
    split; [done|]. split; [done|]. split; [|done].
    intros Hclean. rewrite Hmsg.
    pose proof (forEach_preserves (record_field "errorMessage") before
                  (Forall_impl _ _ _ Hclean on_event_errorMessage) (at_finalized s)) as H.
    rewrite Hrun_a in H. simpl in H. rewrite H. by apply at_finalized_field.
Qed.

(** *** The stream of results *)

Lemma deliver_returns (subscriber : bool) (results : list SubmittableResult) (s : State) :
  fst (deliver subscriber results s) = Returns tt.
Proof.
  revert s. induction results as [|r results IH]; intros s; simpl; [done|].
  destruct (unsubscribed s); [done|].
  destruct (on_result subscriber r s) as [[[]|e] s1]; apply IH.
Qed.

Lemma deliver_unsubscribed (subscriber : bool) (results : list SubmittableResult)
    (s : State) :
  unsubscribed s = true -> deliver subscriber results s = (Returns tt, s).
Proof. intros Hu. destruct results; simpl; [done|]. by rewrite Hu. Qed.

Lemma deliver_app (subscriber : bool) (results1 results2 : list SubmittableResult)
    (s : State) :
  snd (deliver subscriber (results1 ++ results2) s)
  = snd (deliver subscriber results2 (snd (deliver subscriber results1 s))).
Proof.
  revert s. induction results1 as [|r results1 IH]; intros s; simpl; [done|].
  destruct (unsubscribed s) eqn:Hu.
  - simpl. by rewrite deliver_unsubscribed.
  - destruct (on_result subscriber r s) as [[[]|e] s1]; apply IH.
Qed.

Lemma deliver_preserves {C : Type} (P : State -> C) (subscriber : bool)
    (results : list SubmittableResult) :
  (forall e s, P (with_uncaught e s) = P s) ->
  Forall (fun r => preserves P (on_result subscriber r)) results ->
  preserves P (deliver subscriber results).
Proof.
  intros Hu. induction 1 as [|r results Hr _ IH]; intros s; simpl; [done|].
  destruct (unsubscribed s); [done|]. specialize (Hr s).
  destruct (on_result subscriber r s) as [[[]|e] s1]; simpl in Hr.
  - by rewrite IH.
  - by rewrite IH, Hu.
Qed.


(** Before the finalized status, the callback leaves the error message of
    the record, and the subscription stays open. *)
Lemma on_result_errorMessage (subscriber : bool) (r : SubmittableResult) :
  is_final r = false -> preserves (record_field "errorMessage") (on_result subscriber r).
Proof.
  unfold is_final, on_result. intros H. destruct (status r); try done; frame_fields.
Qed.

Lemma saveHistory_open (item : Js.value) (options : option SaveHistoryOptions) :
  preserves (fun s => (completed s, unsubscribed s)) (saveHistory item options).
Proof.
  intros s. pose proof (saveHistory_outside item options s) as H.
  unfold outside_ledger in H. congruence.
Qed.

Lemma on_result_open (subscriber : bool) (r : SubmittableResult) :
  is_final r = false ->
  preserves (fun s => (completed s, unsubscribed s)) (on_result subscriber r).
Proof.
  pose proof saveHistory_open as Hsave.
  unfold is_final, on_result, set_field, subscriber_next. intros H.
  destruct (status r); try done; frame.
  all: intros s; simpl; by destruct (subscriber && negb (completed s)).
Qed.

(** C5: the node reports a sequence of statuses that ends with a
    finalized one (the only one, since the callback unsubscribes on it)
    whose events have no [system.ExtrinsicFailed], for a record whose error
    message is unset.  The subscription resolves, the status of the record
    is the string [finalized], its error message is still unset, and the
    phase of the terminal notification is [finalized]. *)
Theorem finalized_without_failure (subscriber : bool) (extrinsic : SubmittableExtrinsic)
    (earlier : list SubmittableResult) (blockHash : string) (evs : list ChainEvent)
    (s : State) :
  send extrinsic = Delivers (earlier ++ [mkResult (Finalized blockHash) evs]) ->
  Forall (fun r => is_final r = false) earlier ->
  Forall (fun ev => is_failed ev = false) evs ->
  Forall (fun ev => has_expected_data ev = true) evs ->
  record_field "errorMessage" s = Js.VUndef ->
  let s' := snd (extrinsicFn subscriber extrinsic s) in
  fst (extrinsicFn subscriber extrinsic s) = Returns tt /\
  record_field "status" s' = Js.VStr "finalized" /\
  record_field "errorMessage" s' = Js.VUndef /\
  terminal_phase (history s') = finalized /\
  (subscriber = true ->
   last (notified s') = Some (finalized, history s') /\ completed s' = true) /\
  unsubscribed s' = true.
Proof.
  intros Hsend Hearlier Hclean Hok Hmsg s'. subst s'.
  unfold extrinsicFn. rewrite Hsend. unfold bind, modify. simpl.
  set (s0 := with_unsubscribed false (with_completed false s)).
  split; [apply deliver_returns|].
  rewrite deliver_app. set (s1 := snd (deliver subscriber earlier s0)).
  assert (Hmsg1 : record_field "errorMessage" s1 = Js.VUndef).
  { subst s1. rewrite deliver_preserves; [done | done |].
    eapply Forall_impl; [exact Hearlier|]. intros r. apply on_result_errorMessage. }
  assert (Hopen1 : (completed s1, unsubscribed s1) = (false, false)).
  { subst s1. rewrite (deliver_preserves (fun s => (completed s, unsubscribed s)));
      [done | done |].
    eapply Forall_impl; [exact Hearlier|]. intros r. apply on_result_open. }
  injection Hopen1 as Hcompleted1 Hunsub1.
  destruct (forEach_returns evs (at_finalized s1) Hok
              (Forall_impl _ _ _ Hclean error_is_known_other)) as [s2 Hrun].
  destruct (on_result_finalized_state subscriber blockHash evs s1 s2 Hrun)
    as (Hh & Hsub & _).
  assert (Hstatus2 : record_field "status" s2 = Js.VStr "finalized").
  { pose proof (forEach_preserves (record_field "status") evs
                  (Forall_impl _ _ _ Hclean on_event_status) (at_finalized s1)) as H.
    rewrite Hrun in H. simpl in H. by rewrite H, at_finalized_status. }
  assert (Hmsg2 : record_field "errorMessage" s2 = Js.VUndef).
  { pose proof (forEach_preserves (record_field "errorMessage") evs
                  (Forall_impl _ _ _ Hclean on_event_errorMessage) (at_finalized s1)) as H.
    rewrite Hrun in H. simpl in H.
    by rewrite H, at_finalized_field, Hmsg1 by discriminate. }
  assert (Hc2 : completed s2 = false).
  { pose proof (forEach_subscription evs (at_finalized s1)) as H.
    rewrite Hrun, at_finalized_subscription in H. unfold subscription in H.
    simpl in H. congruence. }
  assert (Hphase : terminal_phase (history s2) = finalized).
  { unfold terminal_phase. unfold record_field in Hstatus2. by rewrite Hstatus2. }
  set (s3 := snd (on_result subscriber (mkResult (Finalized blockHash) evs) s1)) in *.
  assert (Hfinal : exists s',
    snd (deliver subscriber [mkResult (Finalized blockHash) evs] s1) = s' /\
    history s' = history s3 /\ subscription s' = subscription s3).
  { simpl. rewrite Hunsub1. subst s3.
    destruct (on_result subscriber _ s1) as [[[]|e] sx]; simpl; by eexists. }
  destruct Hfinal as (s' & -> & Hh' & Hsub').
  unfold record_field in *. rewrite Hh', Hh.
  rewrite Hsub in Hsub'. unfold subscription, conclude in Hsub'.
  rewrite Hc2 in Hsub'. simpl in Hsub'. injection Hsub' as Hn Hcomp Hunsub.
  split; [done|]. split; [done|]. split; [done|]. split; [|done].
  intros ->. simpl in Hn. rewrite Hn, Hphase. split; [|done]. by rewrite last_snoc.
Qed.





End Events.

(** ** The rejection of the send *)

Section Rejection.

Context `{host : Host}.

Lemma errorInfo_of_message (e : exn) (msg : string) :
  message_of e = Js.VStr msg ->
  errorInfo_of e = Returns (Some (Js.trim (after_last_colon msg))).
Proof. intros H. unfold errorInfo_of. by rewrite H, JsFacts.last_split. Qed.

(** The handler up to its save. *)
Lemma on_rejected_run (subscriber : bool) (e : exn) (info : option string) (s : State) :
  errorInfo_of e = Returns info ->
  on_rejected subscriber e s
  = (saveHistory (Js.VObj (history (at_rejection info s))) not_generated ;;;
     subscriber_next subscriber error ;;;
     subscriber_complete subscriber ;;;
     throw (Error (default EmptyString info)))%js (at_rejection info s).
Proof.
  intros Hinfo.
  cbv beta iota zeta delta [on_rejected bind set_field field modify Date_now gets lift].
  rewrite Hinfo. reflexivity.
Qed.


Lemma at_rejection_record (info : option string) (s : State) :
  record_field "id" (at_rejection info s) = Js.VStr (rejection_id s) /\
  record_field "status" (at_rejection info s) = Js.VStr "error" /\
  record_field "errorMessage" (at_rejection info s) = optional_string info.
Proof.
  unfold at_rejection, record_field. simpl. rewrite history_tick. simpl.
  repeat split.
  all: by rewrite ?JsFacts.get_set_eq, ?JsFacts.get_set_ne, ?JsFacts.get_set_eq,
         ?JsFacts.get_set_ne, ?JsFacts.get_set_eq by discriminate.
Qed.













End Rejection.

Lemma saveHistory_without_id_is_noop_witness :
  lacks_id (Js.VObj [("type", Js.VStr "Swap"); ("id", Js.VStr "")]) /\
  saveHistory (host := simple_host)
    (Js.VObj [("type", Js.VStr "Swap"); ("id", Js.VStr "")]) None signed_in
  = (Returns tt, signed_in).
Proof.
  assert (H : lacks_id (Js.VObj [("type", Js.VStr "Swap"); ("id", Js.VStr "")])).
  { right. right. eexists. split; [reflexivity|]. right. reflexivity. }
  split; [exact H|].
  exact (saveHistory_without_id_is_noop (host := simple_host) _ None signed_in H).
Defined.

(** C1, the claim as stated fails: the stored text is an opening brace, and
    reading the history throws instead of returning the empty mapping. *)
Lemma history_getter_throws_on_malformed_text :
  accountStorage corrupted = Some (mkAccountStorage "hmac:*alice") /\
  disk corrupted !! ("hmac:*alice", historyNamespace corrupted) = Some "{" /\
  Json.parse "{" = None /\
  get_history (host := simple_host) corrupted = (Throws SyntaxError, corrupted).
Proof. repeat split; vm_compute; reflexivity. Qed.

Lemma history_getter_reads_or_throws_witness :
  get_history (host := simple_host) corrupted = (Throws SyntaxError, corrupted).
Proof.
  refine (proj2 (proj2 (history_getter_reads_or_throws (host := simple_host) corrupted
            (mkAccountStorage "hmac:*alice") _)) "{" _ _ _).
  - reflexivity.
  - vm_compute. reflexivity.
  - discriminate.
  - vm_compute. reflexivity.
Defined.

Lemma simple_codec_round_trip : codec_round_trip (host := simple_host).
Proof.
  intros key format a H. injection H as <-. simpl.
  by rewrite list_byte_of_string_of_list_byte.
Qed.

(** C9, the claim as stated fails: the hexadecimal text of a key of three
    bytes is an address that [validateAddress] accepts, under a codec that
    keeps the law, and [formatAddress] throws on it, as the codec encodes no
    key of three bytes. *)
Lemma strict_codec_round_trip : codec_round_trip (host := strict_host).
Proof.
  intros key format a. simpl. unfold strict_encode, simple_encode.
  destruct (existsb _ _); [|done]. simpl.
  set (c := ascii_of_nat (Z.to_nat (default 42 format))).
  destruct (Ascii.eqb c "0") eqn:Hc; [done|]. simpl. intros [= <-].
  assert (Hkey : simple_decode (Js.VStr (String c (string_of_list_byte key))) = Some key).
  { simpl. by rewrite list_byte_of_string_of_list_byte. }
  clearbody c. unfold strict_decode.
  destruct c as [b0 b1 b2 b3 b4 b5 b6 b7].
  by destruct b0, b1, b2, b3, b4, b5, b6, b7.
Qed.

(** C9, the claim as stated fails.  The codec takes the hexadecimal text of
    three bytes for an address, so that [validateAddress] accepts it, and
    encodes no key of three bytes: [formatAddress] throws in both modes, and
    there is no round trip. *)
Lemma formatAddress_throws_on_a_valid_address :
  codec_round_trip (host := strict_host) /\
  validateAddress (host := strict_host) (Js.VStr "0x616263") = true /\
  formatAddress (host := strict_host) (Js.VStr "0x616263") false
  = Throws (Error "Expected a valid key to convert") /\
  formatAddress (host := strict_host) (Js.VStr "0x616263") true
  = Throws (Error "Expected a valid key to convert").
Proof.
  split; [exact strict_codec_round_trip|]. repeat split; vm_compute; reflexivity.
Qed.

Lemma formatAddress_round_trip_witness :
  formatAddress (host := simple_host) (Js.VStr "*alice") true
  = formatAddress (host := simple_host) (Js.VStr "Xalice") true /\
  exists key,
    decodeAddress (Host := simple_host) (Js.VStr "Xalice") = Some key /\
    forall sora,
      formatAddress (host := simple_host) (Js.VStr "Xalice") true = Returns sora ->
      formatAddress (host := simple_host) (Js.VStr "*alice") true = Returns sora /\
      decodeAddress (Host := simple_host) (Js.VStr sora) = Some key.
Proof.
  refine (formatAddress_round_trip (host := simple_host) (Js.VStr "Xalice")
            "*alice" simple_codec_round_trip _).
  vm_compute. reflexivity.
Defined.

(** C8, the claim as stated fails.  The record carries the address of the
    active account as [submitExtrinsic] writes it; its form without the
    prefix differs from that address, the common storage is set and
    [toCurrentAccount] is not passed; yet the write lands in the storage of
    the active account, whose stored history changes. *)
Lemma saveHistory_changes_active_account_store :
  let s' := snd (saveHistory (host := simple_host) (Js.VObj alices_record) None signed_in) in
  Js.get "from" alices_record = Js.VStr "Ealice" /\
  formatAddress (host := simple_host) (Js.VStr "Ealice") false = Returns "*alice" /\
  fst (address (host := simple_host) signed_in) = Returns "Ealice" /\
  "*alice" <> "Ealice" /\
  storage signed_in = Some (mkStorage "sora") /\
  accountStorage signed_in = Some (mkAccountStorage "hmac:*alice") /\
  disk signed_in !! ("hmac:*alice", "history") = None /\
  (disk s' !! ("hmac:*alice", "history")) ≫= Json.parse
  = Some (Js.VObj [("0x02", Js.VObj alices_record)]).
Proof. repeat split; try discriminate; vm_compute; reflexivity. Qed.

Lemma saveHistory_target_witness :
  (saveHistory (host := simple_host) (Js.VObj bobs_record) None signed_in
   = (Returns tt,
      with_disk (<[("hmac:*bob", "history") :=
                     Json.stringify (Js.VObj [("0x01", Js.VObj bobs_record)])]>
                   (disk signed_in)) signed_in)) /\
  (saveHistory (host := simple_host) (Js.VObj bobs_record) (Some (mkOptions false true))
     signed_in
   = set_history (host := simple_host) (Js.VObj [("0x01", Js.VObj bobs_record)])
       (with__history (Js.VObj []) signed_in)).
Proof.
  split.
  - refine (proj1 (proj1 (saveHistory_target (host := simple_host) bobs_record None
              signed_in "*bob" "Ealice" _ _ _ _ _) [] _ _ _ _)).
    all: first [ left; split; vm_compute; reflexivity
               | discriminate
               | vm_compute; reflexivity ].
  - refine (proj2 (saveHistory_target (host := simple_host) bobs_record
              (Some (mkOptions false true)) signed_in "*bob" "Ealice" _ _ _ _ _)
              (Js.VObj []) (with__history (Js.VObj []) signed_in) _ _).
    all: first [ left; reflexivity | discriminate | vm_compute; reflexivity ].
Defined.









Lemma liquidity_transfers_fill_amounts_witness :
  (let s' := snd (on_result (host := simple_host) false
                    (mkResult (Finalized "0xAA")
                       [fee_withdrawn; transfer "tokens" "10"; transfer "balances" "20";
                        failed_with unknown_module_error])
                    depositing) in
   record_field "amount" s' = Js.VStr "10" /\ record_field "amount2" s' = Js.VStr "20") /\
  (let s' := snd (on_result (host := simple_host) false
                    (mkResult (Finalized "0xAA") [fee_withdrawn; transfer "balances" "20"])
                    depositing) in
   record_field "amount" s' = Js.VStr "20" /\ record_field "amount2" s' = Js.VUndef).
Proof.
  split.
  - refine (proj1 (liquidity_transfers_fill_amounts (host := simple_host) false "0xAA"
              [fee_withdrawn; transfer "tokens" "10"; transfer "balances" "20"]
              [failed_with unknown_module_error]
              depositing (transfer "tokens" "10") (transfer "balances" "20")
              _ _ _ _ _ _) _ _).
    + reflexivity.
    + reflexivity.
    + reflexivity.
    + repeat constructor.
    + repeat constructor.
    + repeat constructor.
    + reflexivity.
    + vm_compute. discriminate.
  - refine (proj2 (liquidity_transfers_fill_amounts (host := simple_host) false "0xAA"
              [fee_withdrawn; transfer "balances" "20"] []
              depositing (transfer "balances" "20") (transfer "balances" "20")
              _ _ _ _ _ _) _).
    + reflexivity.
    + reflexivity.
    + reflexivity.
    + repeat constructor.
    + repeat constructor.
    + constructor.
    + reflexivity.
Defined.

Lemma finalized_without_failure_witness :
  let s' := snd (extrinsicFn (host := simple_host) true finalized_swap prepared) in
  fst (extrinsicFn (host := simple_host) true finalized_swap prepared) = Returns tt /\
  record_field "status" s' = Js.VStr "finalized" /\
  record_field "errorMessage" s' = Js.VUndef /\
  List.map fst (notified s') = [inblock; finalized].
Proof.
  destruct (finalized_without_failure (host := simple_host) true finalized_swap
              [mkResult Ready []; mkResult (InBlock "0xAA") []] "0xAA" [fee_withdrawn]
              prepared) as (Hreturns & Hstatus & Hmsg & _).
  - reflexivity.
  - repeat constructor.
  - repeat constructor.
  - repeat constructor.
  - reflexivity.
  - split; [exact Hreturns|]. split; [exact Hstatus|]. split; [exact Hmsg|].
    vm_compute. reflexivity.
Defined.

(** C6, the claim as stated fails: the only event of the finalized block
    is a failed extrinsic with an error of a pallet that the registry does
    not know.  The callback throws what [findMetaError] throws: the status
    of the record is [error], its error message is left absent, the
    subscriber is not told, the subscription is not ended, and nothing is
    saved. *)
Lemma unknown_module_error_leaves_no_message :
  let run := on_result (host := simple_host) true
               (mkResult (Finalized "0xAA") [failed_with unknown_module_error]) prepared in
  is_failed (failed_with unknown_module_error) = true /\
  has_expected_data (failed_with unknown_module_error) = true /\
  record_field "errorMessage" prepared = Js.VUndef /\
  fst run = Throws (Error "findMetaError: Unable to find Error") /\
  record_field "status" (snd run) = Js.VStr "error" /\
  record_field "errorMessage" (snd run) = Js.VUndef /\
  notified (snd run) = [] /\
  completed (snd run) = false /\
  unsubscribed (snd run) = false /\
  disk (snd run) = disk prepared.
Proof. repeat split; vm_compute; reflexivity. Qed.

Lemma failed_extrinsic_is_error_witness :
  (let s' := snd (on_result (host := simple_host) true
                    (mkResult (Finalized "0xAA") [fee_withdrawn; failed_with pool_is_empty])
                    prepared) in
   record_field "status" s' = Js.VStr "error" /\
   Some (record_field "errorMessage" s')
   = Some (Js.VObj [("name", Js.VStr "PoolIsEmpty"); ("section", Js.VStr "poolXyk")])) /\
  (let s' := snd (on_result (host := simple_host) true
                    (mkResult (Finalized "0xAA") [failed_with bad_origin; fee_withdrawn])
                    prepared) in
   record_field "status" s' = Js.VStr "error" /\
   Some (record_field "errorMessage" s') = Some (Js.VStr "BadOrigin")) /\
  (let run := on_result (host := simple_host) true
                (mkResult (Finalized "0xAA") [failed_with unknown_module_error]) prepared in
   fst run = Throws (Error "findMetaError: Unable to find Error") /\
   record_field "status" (snd run) = Js.VStr "error").
Proof.
  split; [|split].
  - destruct (failed_extrinsic_is_error (host := simple_host) true "0xAA"
                [fee_withdrawn] [] (failed_with pool_is_empty) prepared)
      as (Hknown & _).
    + reflexivity.
    + repeat constructor.
    + repeat constructor.
    + destruct Hknown as (Hstatus & _ & Hmsg & _); [reflexivity | constructor |].
      split; [exact Hstatus | exact Hmsg].
  - destruct (failed_extrinsic_is_error (host := simple_host) true "0xAA"
                [] [fee_withdrawn] (failed_with bad_origin) prepared)
      as (Hknown & _).
    + reflexivity.
    + repeat constructor.
    + constructor.
    + destruct Hknown as (Hstatus & _ & Hmsg & _); [reflexivity | repeat constructor |].
      split; [exact Hstatus | exact Hmsg].
  - destruct (failed_extrinsic_is_error (host := simple_host) true "0xAA"
                [] [] (failed_with unknown_module_error) prepared)
      as (_ & Hunknown).
    + reflexivity.
    + repeat constructor.
    + constructor.
    + destruct (Hunknown (Error "findMetaError: Unable to find Error") eq_refl)
        as (Hthrows & Hstatus & _).
      split; [exact Hthrows | exact Hstatus].
Defined.


(** ** The names of an object *)

Module JsKeys.

Import Js.

Lemma has_keys (k : string) (o : obj) : has k o = existsb (String.eqb k) (keys o).
Proof.
  unfold has. induction o as [|[k' v] o IH]; simpl; [done|].
  rewrite <- IH, (String.eqb_sym k k').
  destruct (lookup k o); [by rewrite orb_true_r|]. rewrite orb_false_r.
  by destruct (String.eqb k' k).
Qed.

Lemma existsb_eqb (k : string) (l : list string) :
  existsb (String.eqb k) l = true <-> k ∈ l.
Proof.
  rewrite existsb_exists, list_elem_of_In. split.
  - intros (x & Hx & He). by apply String.eqb_eq in He as ->.
  - intros Hin. exists k. split; [done|]. apply String.eqb_refl.
Qed.

Lemma has_elem (k : string) (o : obj) : has k o = true <-> k ∈ keys o.
Proof. rewrite has_keys. apply existsb_eqb. Qed.

Lemma has_false (k : string) (o : obj) : has k o = false <-> k ∉ keys o.
Proof. rewrite <- has_elem. by destruct (has k o). Qed.

Lemma lookup_None (k : string) (o : obj) : lookup k o = None <-> k ∉ keys o.
Proof. rewrite <- has_false. unfold has. by destruct (lookup k o). Qed.

Lemma keys_replace (k : string) (v : value) (o : obj) : keys (replace k v o) = keys o.
Proof.
  unfold keys, replace. induction o as [|[k' v'] o IH]; simpl; [done|].
  rewrite IH. destruct (String.eqb_spec k' k) as [->|]; done.
Qed.

Lemma keys_set (k : string) (v : value) (o : obj) :
  keys (set k v o) = if has k o then keys o else keys o ++ [k].
Proof.
  unfold set. destruct (has k o); [apply keys_replace|].
  unfold keys. by rewrite map_app.
Qed.

Lemma NoDup_set (k : string) (v : value) (o : obj) :
  NoDup (keys o) -> NoDup (keys (set k v o)).
Proof.
  intros Hnd. rewrite keys_set. destruct (has k o) eqn:Hh; [done|].
  apply has_false in Hh. apply NoDup_app. split; [done|].
  split; [|apply NoDup_singleton].
  intros x Hx Hin. by apply list_elem_of_singleton in Hin as ->.
Qed.

Lemma NoDup_put (k : string) (v : value) (o : obj) :
  NoDup (keys o) -> NoDup (keys (put k v o)).
Proof. intros Hnd. unfold put. destruct (_ && _); [done | by apply NoDup_set]. Qed.

Lemma NoDup_assign (target source : obj) :
  NoDup (keys target) -> NoDup (keys (assign target source)).
Proof.
  unfold assign. revert target.
  induction source as [|[k v] source IH]; intros target Hnd; simpl; [done|].
  apply IH. by apply NoDup_set.
Qed.

Lemma NoDup_spread (v : value) : NoDup (keys (spread v)).
Proof. apply NoDup_assign. constructor. Qed.

Lemma lookup_spread (k : string) (v : value) :
  lookup k (spread v) = lookup k (own_props v).
Proof.
  unfold spread. rewrite JsFacts.lookup_assign. simpl.
  by destruct (lookup k (own_props v)).
Qed.

Lemma keys_delete (k : string) (o : obj) :
  keys (delete k o) = List.filter (fun k' => negb (String.eqb k' k)) (keys o).
Proof.
  unfold keys. induction o as [|[k' v] o IH]; simpl; [done|].
  destruct (String.eqb k' k); simpl; by rewrite IH.
Qed.

Lemma NoDup_delete (k : string) (o : obj) : NoDup (keys o) -> NoDup (keys (delete k o)).
Proof.
  intros Hnd. rewrite keys_delete. apply NoDup_ListNoDup, List.NoDup_filter.
  by apply NoDup_ListNoDup.
Qed.

(** Among objects without a repeated name, the names and the values they
    give tell an object. *)
Lemma lookup_cons_NoDup (k k' : string) (v : value) (o : obj) :
  k ∉ keys o ->
  lookup k' ((k, v) :: o) = if String.eqb k k' then Some v else lookup k' o.
Proof.
  intros Hk. simpl. destruct (String.eqb_spec k k') as [<-|Hne].
  - apply lookup_None in Hk. by rewrite Hk.
  - by destruct (lookup k' o).
Qed.

Lemma obj_ext (o1 o2 : obj) :
  keys o1 = keys o2 -> NoDup (keys o1) ->
  (forall k, lookup k o1 = lookup k o2) -> o1 = o2.
Proof.
  revert o2. induction o1 as [|[k v] o1 IH]; intros [|[k2 v2] o2] Hk Hnd Hl;
    try done.
  simpl in Hk. injection Hk as <- Hk.
  apply NoDup_cons in Hnd as [Hin Hnd]. simpl in Hin.
  assert (Hin2 : k ∉ keys o2) by by rewrite <- Hk.
  pose proof (Hl k) as Hv.
  rewrite !lookup_cons_NoDup, String.eqb_refl in Hv by done.
  injection Hv as <-. f_equal.
  apply IH; [done | done |].
  intros k'. specialize (Hl k'). rewrite !lookup_cons_NoDup in Hl by done.
  destruct (String.eqb_spec k k') as [E|Hne]; [|done].
  subst k'. apply lookup_None in Hin, Hin2. by rewrite Hin, Hin2.
Qed.

End JsKeys.

(** ** Reading and pruning the history *)

Section Reading.

Context `{host : Host}.

Lemma has_put_proto (id : string) (item : Js.value) (acc : Js.obj) :
  Js.has "__proto__" acc = false -> Js.has "__proto__" (Js.put id item acc) = false.
Proof.
  intros Hacc. destruct (String.eqb_spec id "__proto__") as [->|Hne].
  - by rewrite JsFacts.put_proto.
  - unfold Js.has in *. by rewrite JsFacts.lookup_put_ne.
Qed.

Lemma filter_fold_lookup (f : Js.value -> bool) (m : Js.obj) (ids : list string)
    (acc : Js.obj) (k : string) :
  Js.has "__proto__" acc = false ->
  Js.lookup k
    (fold_left
       (fun filtered id =>
          let item := default Js.VUndef (Js.member (Js.VObj m) id) in
          if f item then Js.put id item filtered else filtered) ids acc)
  = if negb (String.eqb k "__proto__") && existsb (String.eqb k) ids && f (Js.get k m)
    then Some (Js.get k m)
    else Js.lookup k acc.
Proof.
  revert acc. induction ids as [|id ids IH]; intros acc Hacc; simpl.
  { by rewrite andb_false_r. }
  rewrite IH; cycle 1.
  { simpl. destruct (f (Js.get id m)); [by apply has_put_proto | done]. }
  destruct (negb (String.eqb k "__proto__") && existsb (String.eqb k) ids && f (Js.get k m))
    eqn:E.
  - apply andb_true_iff in E as [E ->]. apply andb_true_iff in E as [-> ->].
    by rewrite orb_true_r.
  - destruct (String.eqb_spec k id) as [Ek|Hne]; simpl.
    + subst id. destruct (f (Js.get k m)); [|by rewrite andb_false_r].
      rewrite !andb_true_r. destruct (String.eqb_spec k "__proto__") as [Ek|Hk]; simpl.
      * rewrite Ek. by rewrite JsFacts.put_proto.
      * by apply JsFacts.lookup_put_eq.
    + rewrite E. destruct (f (Js.get id m)); [|done].
      apply JsFacts.lookup_put_ne. congruence.
Qed.

(** X1: [getFilteredHistory] returns the records of the history that the
    filter accepts, each under its identifier, and no other; the identifier
    [__proto__] apart, under which the assignment of a record defines no
    property. *)
Theorem getFilteredHistory_selects (f : Js.value -> bool) (m : Js.obj) (s s1 : State) :
  get_history s = (Returns (Js.VObj m), s1) ->
  exists filtered,
    getFilteredHistory f s = (Returns filtered, s1) /\
    forall id, Js.lookup id filtered =
               if String.eqb id "__proto__" then None
               else match Js.lookup id m with
                    | Some item => if f item then Some item else None
                    | None => None
                    end.
Proof.
  intros Hget. unfold getFilteredHistory, bind, ret. rewrite Hget.
  eexists. split; [reflexivity|]. intros id.
  rewrite filter_fold_lookup by done. unfold for_in_keys.
  change (List.map fst (Js.spread (Js.VObj m))) with (keys (Js.spread (Js.VObj m))).
  rewrite <- JsKeys.has_keys. unfold Js.has, Js.get.
  rewrite JsKeys.lookup_spread. simpl.
  destruct (String.eqb id "__proto__"); [done|]. simpl.
  by destruct (Js.lookup id m).
Qed.

Lemma elem_lookup_NoDup (k : string) (v : Js.value) (o : Js.obj) :
  NoDup (keys o) -> ((k, v) ∈ o <-> Js.lookup k o = Some v).
Proof.
  induction o as [|[k0 v0] o IH]; intros Hnd.
  - split; [by intros ?%elem_of_nil | done].
  - apply NoDup_cons in Hnd as [Hin Hnd]. simpl in Hin.
    rewrite JsKeys.lookup_cons_NoDup by done.
    rewrite elem_of_cons, (IH Hnd).
    destruct (String.eqb_spec k0 k) as [E|Hne].
    + subst k0. split; [|intros [= ->]; by left].
      intros [[= ->] | Hl]; [done|].
      apply JsKeys.lookup_None in Hin. congruence.
    + split; [|by right]. intros [[= ? ?] | Hl]; [congruence | done].
Qed.

(** X2: [historyList] lists the records of the history: a value is in the
    list exactly when it is the record of some identifier. *)
Theorem historyList_lists (m : Js.obj) (s s1 : State) :
  get_history s = (Returns (Js.VObj m), s1) ->
  exists items,
    historyList s = (Returns items, s1) /\
    forall item, item ∈ items <-> exists id, Js.lookup id m = Some item.
Proof.
  intros Hget. unfold historyList, bind, ret. rewrite Hget. simpl.
  eexists. split; [reflexivity|]. intros item.
  rewrite list_elem_of_fmap. split.
  - intros ([id v] & -> & Hin). exists id.
    apply elem_lookup_NoDup in Hin; [|apply JsKeys.NoDup_spread].
    by rewrite JsKeys.lookup_spread in Hin.
  - intros (id & Hl). exists (id, item). split; [done|].
    apply elem_lookup_NoDup; [apply JsKeys.NoDup_spread|].
    by rewrite JsKeys.lookup_spread.
Qed.

Lemma lookup_fold_delete (ids : list string) (o : Js.obj) (k : string) :
  Js.lookup k (fold_left (fun o id => Js.delete id o) ids o)
  = if existsb (String.eqb k) ids then None else Js.lookup k o.
Proof.
  revert o. induction ids as [|id ids IH]; intros o; simpl; [done|].
  rewrite IH. destruct (existsb (String.eqb k) ids); [by rewrite orb_true_r|].
  rewrite orb_false_r. destruct (String.eqb_spec k id) as [E|Hne].
  - subst id. apply JsFacts.lookup_delete_eq.
  - apply JsFacts.lookup_delete_ne. congruence.
Qed.

(** X3: [removeHistory] without an identifier does nothing, not even a read
    of the history; with identifiers that are property names, it writes the
    history back without the records of these identifiers, and with every
    other record as it was. *)
Theorem removeHistory_removes (ids : list string) (h : Js.value) (s s1 : State) :
  Forall (fun id => plain_key id = true) ids ->
  get_history s = (Returns h, s1) ->
  removeHistory [] s = (Returns tt, s) /\
  (ids <> [] ->
   exists kept,
     removeHistory ids s = set_history (Js.VObj kept) s1 /\
     forall id, Js.lookup id kept =
                if existsb (String.eqb id) ids then None
                else Js.lookup id (Js.own_props h)).
Proof.
  intros _ Hget. split; [done|]. intros Hne.
  destruct ids as [|id0 ids]; [done|].
  unfold removeHistory, bind. rewrite Hget.
  eexists. split; [reflexivity|]. intros id.
  by rewrite lookup_fold_delete, JsKeys.lookup_spread.
Qed.

Lemma set_then_get (v : Js.value) (s : State) :
  reads_back v s ->
  get_history (snd (set_history v s)) =
  match accountStorage s with
  | Some _ => (Returns v, with__history v (snd (set_history v s)))
  | None => (Returns (Js.VObj (Js.spread v)), snd (set_history v s))
  end.
Proof.
  intros Hback. unfold set_history, get_history. simpl.
  destruct (accountStorage s) as [st|] eqn:Hst; simpl; rewrite Hst; [|done].
  destruct Hback as [? | [Hne Hparse]]; [congruence|].
  rewrite lookup_insert_eq. apply String.eqb_neq in Hne as ->. simpl.
  by rewrite Hparse.
Qed.

(** X4: reading the history after writing it.  With an account storage and
    a value that the JSON object gives back, the getter returns the value
    written; without an account storage it returns the shallow copy of the
    value that the setter keeps in the cache. *)
Theorem history_set_then_get (v : Js.value) (s : State) :
  reads_back v s ->
  fst ((set_history v ;;; get_history)%js s) =
  Returns (match accountStorage s with
           | Some _ => v
           | None => Js.VObj (Js.spread v)
           end).
Proof.
  intros Hback. unfold bind.
  change (set_history v s) with (Returns tt, snd (set_history v s)).
  cbv beta iota. rewrite (set_then_get v s Hback). by destruct (accountStorage s).
Qed.

Lemma accountStorage_get_history (s s1 : State) (h : Js.value) :
  get_history s = (Returns h, s1) -> accountStorage s1 = accountStorage s.
Proof.
  intros Hget. pose proof (get_history_outside s) as Ho.
  rewrite Hget in Ho. simpl in Ho. by injection Ho.
Qed.

Lemma getHistory_run (h : Js.value) (id : string) (s s1 : State) :
  get_history s = (Returns h, s1) ->
  getHistory id s = match read h id with
                    | Some mem => (Returns (or_null_member mem), s1)
                    | None => (Throws (TypeError "Cannot read properties of null"), s1)
                    end.
Proof.
  intros Hget. unfold getHistory, bind. rewrite Hget.
  destruct (read h id) as [[[]|]|]; reflexivity.
Qed.

(** A read of an object depends on its own property of the name only. *)
Lemma read_same (o1 o2 : Js.obj) (k : string) :
  Js.lookup k o1 = Js.lookup k o2 -> read (Js.VObj o1) k = read (Js.VObj o2) k.
Proof. intros H. unfold read, Js.member, has_own, Js.get, Js.has. by rewrite H. Qed.

Lemma read_own (o : Js.obj) (k : string) (x : Js.value) :
  Js.lookup k o = Some x -> read (Js.VObj o) k = Some (Js.Data x).
Proof. intros H. unfold read, Js.member, has_own, Js.get, Js.has. by rewrite H. Qed.

Lemma read_proto (o : Js.obj) :
  Js.has "__proto__" o = false -> read (Js.VObj o) "__proto__" = Some (Js.Builtin "__proto__").
Proof. intros H. unfold read, Js.member, has_own. by rewrite H. Qed.

(** X5: a record saved into the history of the active account is read back
    merged.  For an identifier other than [__proto__], [getHistory] of the
    identifier returns the record whose fields are those of the saved
    record, then those of the record the history had under the identifier
    ([txId] apart when the transaction was not generated).  [getHistory] of
    another name returns what it returned before the save, a record, [null]
    or a member that the history inherits.  Under the identifier
    [__proto__], which the history does not hold, nothing is stored:
    [getHistory] returns the prototype as before. *)
Theorem saved_record_is_read_back (item m : Js.obj) (options : option SaveHistoryOptions)
    (s s1 : State) (a : string) :
  let key := Js.toString (Js.get "id" item) in
  Js.truthy (Js.get "id" item) = true ->
  historyItemFromAddress (Js.get "from" item) = Returns a ->
  needToUpdateAddressStorage options a s = (Returns false, s) ->
  get_history s = (Returns (Js.VObj m), s1) ->
  reads_back (Js.VObj (merged (Js.spread (Js.VObj m)) item options)) s ->
  (key <> "__proto__" ->
   exists record,
     fst ((saveHistory (Js.VObj item) options ;;; getHistory key)%js s)
     = Returns (Js.Data (Js.VObj record)) /\
     forall k, Js.lookup k record =
               if option_flag wasNotGenerated options && String.eqb k "txId" then None
               else match Js.lookup k item with
                    | Some x => Some x
                    | None => Js.lookup k (Js.own_props (Js.or_else (Js.get key m) (Js.VObj [])))
                    end) /\
  (forall key', key' <> key ->
     fst ((saveHistory (Js.VObj item) options ;;; getHistory key')%js s)
     = fst (getHistory key' s)) /\
  (key = "__proto__" -> Js.has key m = false ->
   fst ((saveHistory (Js.VObj item) options ;;; getHistory key)%js s)
   = Returns (Js.Builtin "__proto__")).
Proof.
  intros key Hid Hfrom Hneed Hget Hback.
  set (M := merged (Js.spread (Js.VObj m)) item options) in *.
  assert (Hrun : forall key',
    fst ((saveHistory (Js.VObj item) options ;;; getHistory key')%js s)
    = match read (Js.VObj M) key' with
      | Some mem => Returns (or_null_member mem)
      | None => Throws (TypeError "Cannot read properties of null")
      end).
  { intros key'. unfold bind at 1.
    rewrite (save_to_active_account _ _ _ _ _ _ Hid Hfrom Hneed Hget). fold M.
    change (set_history (Js.VObj M) s1) with (Returns tt, snd (set_history (Js.VObj M) s1)).
    cbv beta iota.
    assert (Hback1 : reads_back (Js.VObj M) s1).
    { destruct Hback as [Hn | Hj]; [left | by right].
      by rewrite (accountStorage_get_history _ _ _ Hget). }
    pose proof (set_then_get _ s1 Hback1) as Hget2.
    destruct (accountStorage s1).
    - rewrite (getHistory_run _ _ _ _ Hget2). by destruct (read (Js.VObj M) key').
    - rewrite (getHistory_run _ _ _ _ Hget2).
      rewrite (read_same (Js.spread (Js.VObj M)) M key') by apply JsKeys.lookup_spread.
      by destruct (read (Js.VObj M) key'). }
  split; [|split].
  - intros Hkey. eexists. rewrite Hrun.
    rewrite (read_own M key (Js.VObj (merged_item (Js.get key (Js.spread (Js.VObj m)))
                                         (Js.VObj item) options)))
      by (subst M; unfold merged; fold key; by apply JsFacts.lookup_put_eq).
    split; [reflexivity|].
    intros k. rewrite merged_item_lookup, JsFacts.get_spread. done.
  - intros key' Hne. rewrite Hrun, (getHistory_run _ _ _ _ Hget).
    rewrite (read_same M m key'); [by destruct (read (Js.VObj m) key')|].
    subst M. unfold merged. fold key.
    rewrite JsFacts.lookup_put_ne by done. apply JsKeys.lookup_spread.
  - intros Hkey Hhas. rewrite Hrun.
    assert (HM : M = Js.spread (Js.VObj m)).
    { subst M. unfold merged. fold key. rewrite Hkey. apply JsFacts.put_proto.
      unfold Js.has in *. rewrite JsKeys.lookup_spread. simpl. by rewrite <- Hkey. }
    rewrite HM, Hkey, read_proto; [done|].
    unfold Js.has in *. rewrite JsKeys.lookup_spread. simpl. by rewrite <- Hkey.
Qed.

(** X6: [saveHistory] writes all or nothing: when it throws (for a [from]
    that is no address, for a stored text that is no JSON, for a stored
    value that takes no property), the cache and the persistent medium are
    as they were. *)
Theorem saveHistory_throws_unchanged (item : Js.value) (options : option SaveHistoryOptions)
    (s s' : State) (e : exn) :
  saveHistory item options s = (Throws e, s') -> s' = s.
Proof. apply saveHistory_throws_keeps. Qed.

End Reading.

(** ** Merging twice *)

Module JsMerge.

Import Js.

Lemma keys_app (o1 o2 : obj) : keys (o1 ++ o2) = keys o1 ++ keys o2.
Proof. unfold keys. apply map_app. Qed.

Lemma assign_app (target source : obj) :
  NoDup (keys (target ++ source)) -> assign target source = target ++ source.
Proof.
  unfold assign. revert target.
  induction source as [|[k v] source IH]; intros target Hnd; simpl.
  - by rewrite app_nil_r.
  - assert (Hk : has k target = false).
    { apply JsKeys.has_false. rewrite keys_app in Hnd.
      apply NoDup_app in Hnd as (_ & Hdis & _). intros Hin.
      apply (Hdis k Hin). simpl. left. }
    unfold set. rewrite Hk. rewrite IH; rewrite <- app_assoc; done.
Qed.

Lemma spread_NoDup (o : obj) : NoDup (keys o) -> spread (VObj o) = o.
Proof. intros Hnd. unfold spread. simpl. by rewrite assign_app. Qed.

Lemma replace_absent (k : string) (v : value) (o : obj) :
  k ∉ keys o -> replace k v o = o.
Proof.
  unfold replace. induction o as [|[k' v'] o IH]; simpl; [done|].
  intros Hk. apply not_elem_of_cons in Hk as [Hne Hk].
  rewrite (IH Hk). destruct (String.eqb_spec k' k); [congruence | done].
Qed.

Lemma replace_replace (k : string) (v : value) (o : obj) :
  replace k v (replace k v o) = replace k v o.
Proof.
  unfold replace. rewrite map_map. apply map_ext. intros [k' v']. simpl.
  destruct (String.eqb k' k) eqn:E; simpl; [by rewrite String.eqb_refl | by rewrite E].
Qed.

Lemma set_set_same (k : string) (v : value) (o : obj) :
  set k v (set k v o) = set k v o.
Proof.
  unfold set at 1.
  replace (has k (set k v o)) with true
    by (unfold has; by rewrite JsFacts.lookup_set_eq).
  unfold set. destruct (has k o) eqn:Hh; [apply replace_replace|].
  apply JsKeys.has_false in Hh.
  unfold replace. rewrite map_app. simpl. rewrite String.eqb_refl.
  f_equal. by apply replace_absent.
Qed.

Lemma has_set (k k' : string) (v : value) (o : obj) :
  has k' (set k v o) = String.eqb k k' || has k' o.
Proof.
  unfold has. destruct (String.eqb_spec k k') as [<-|Hne]; simpl.
  - by rewrite JsFacts.lookup_set_eq.
  - by rewrite JsFacts.lookup_set_ne.
Qed.

(** Assigning properties that the target has, or the property [x], adds no
    name but [x]. *)
Lemma keys_assign_but (x : string) (target source : obj) :
  (forall k, k ∈ keys source -> k = x \/ has k target = true) ->
  List.filter (fun k => negb (String.eqb k x)) (keys (assign target source))
  = List.filter (fun k => negb (String.eqb k x)) (keys target).
Proof.
  unfold assign. revert target.
  induction source as [|[k v] source IH]; intros target Hin; simpl; [done|].
  rewrite IH.
  - rewrite JsKeys.keys_set. destruct (has k target) eqn:Hh; [done|].
    destruct (Hin k) as [-> | Hk]; [by left | | congruence].
    rewrite List.filter_app. simpl. rewrite String.eqb_refl. simpl.
    by rewrite app_nil_r.
  - intros k' Hk'. rewrite has_set.
    destruct (Hin k') as [-> | ->]; [by right | by left | right; apply orb_true_r].
Qed.

Lemma keys_assign_absorb (target source : obj) :
  (forall k, k ∈ keys source -> has k target = true) ->
  keys (assign target source) = keys target.
Proof.
  unfold assign. revert target.
  induction source as [|[k v] source IH]; intros target Hin; simpl; [done|].
  rewrite IH.
  - rewrite JsKeys.keys_set. by rewrite (Hin k) by by left.
  - intros k' Hk'. rewrite has_set, (Hin k') by by right. apply orb_true_r.
Qed.

Lemma filter_filter_same {A : Type} (f : A -> bool) (l : list A) :
  List.filter f (List.filter f l) = List.filter f l.
Proof.
  induction l as [|x l IH]; simpl; [done|].
  destruct (f x) eqn:E; simpl; [by rewrite E, IH | done].
Qed.

End JsMerge.

Section Idempotence.

Context `{host : Host}.

Lemma NoDup_merged_item (existing historyItem : Js.value)
    (options : option SaveHistoryOptions) :
  NoDup (keys (merged_item existing historyItem options)).
Proof.
  unfold merged_item.
  assert (NoDup (keys (Js.spread2 (Js.or_else existing (Js.VObj [])) historyItem))).
  { apply JsKeys.NoDup_assign, JsKeys.NoDup_spread. }
  destruct (option_flag wasNotGenerated options); [|done].
  by apply JsKeys.NoDup_delete.
Qed.

Lemma has_spread2 (k : string) (a : Js.value) (b : Js.obj) :
  k ∈ keys b -> Js.has k (Js.spread2 a (Js.VObj b)) = true.
Proof.
  intros Hin. apply JsKeys.has_elem in Hin. unfold Js.has in *.
  rewrite JsFacts.lookup_spread2_obj. by destruct (Js.lookup k b).
Qed.

(** Merging a record into the record that the merge gave changes nothing. *)
Lemma merged_item_idem (existing : Js.value) (item : Js.obj)
    (options : option SaveHistoryOptions) :
  merged_item (Js.VObj (merged_item existing (Js.VObj item) options)) (Js.VObj item) options
  = merged_item existing (Js.VObj item) options.
Proof.
  apply JsKeys.obj_ext; [|apply NoDup_merged_item|].
  - set (r1 := merged_item existing (Js.VObj item) options).
    assert (Hnd : NoDup (keys r1)) by apply NoDup_merged_item.
    unfold merged_item at 1. unfold Js.or_else, Js.spread2. simpl.
    rewrite (JsMerge.spread_NoDup r1 Hnd).
    subst r1. unfold merged_item in *.
    destruct (option_flag wasNotGenerated options).
    + rewrite JsKeys.keys_delete, JsMerge.keys_assign_but.
      * by rewrite JsKeys.keys_delete, JsMerge.filter_filter_same.
      * intros k Hk. destruct (String.eqb_spec k "txId") as [|Hne]; [by left|].
        right. unfold Js.has. rewrite JsFacts.lookup_delete_ne by done.
        by apply has_spread2.
    + apply JsMerge.keys_assign_absorb. intros k Hk. by apply has_spread2.
  - intros k. rewrite !merged_item_lookup. simpl.
    destruct (option_flag wasNotGenerated options && String.eqb k "txId") eqn:E;
      [done|].
    destruct (Js.lookup k item) eqn:El; [done|].
    by rewrite merged_item_lookup, E, El.
Qed.

Lemma merged_idem (m item : Js.obj) (options : option SaveHistoryOptions) :
  NoDup (keys m) ->
  merged (Js.spread (Js.VObj (merged m item options))) item options
  = merged m item options.
Proof.
  intros Hnd.
  rewrite JsMerge.spread_NoDup by (unfold merged; by apply JsKeys.NoDup_put).
  unfold merged.
  set (key := Js.toString (Js.get "id" item)).
  set (X := Js.VObj (merged_item (Js.get key m) (Js.VObj item) options)).
  unfold Js.put at 2 3.
  destruct (String.eqb key "__proto__" && negb (Js.has key m)) eqn:E.
  - unfold Js.put. by rewrite E.
  - assert (Hhas : Js.has key (Js.set key X m) = true).
    { unfold Js.has. by rewrite JsFacts.lookup_set_eq. }
    unfold Js.put. rewrite Hhas, andb_false_r.
    rewrite JsFacts.get_set_eq. subst X. rewrite merged_item_idem, ?E.
    apply JsMerge.set_set_same.
Qed.

Lemma need_elsewhere (options : option SaveHistoryOptions) (a : string)
    (s s2 : State) (need : bool) :
  needToUpdateAddressStorage options a s = (Returns need, s) ->
  account s2 = account s -> storage s2 = storage s ->
  needToUpdateAddressStorage options a s2 = (Returns need, s2).
Proof.
  unfold needToUpdateAddressStorage.
  destruct (option_flag toCurrentAccount options);
    [unfold ret; intros; by simplify_eq|].
  destruct (String.eqb a EmptyString); [unfold ret; intros; by simplify_eq|].
  unfold address, bind, gets, ret. intros H Ha Hs. rewrite Ha.
  destruct (account s) as [acc|]; [destruct (formatAddress _ true)|];
    cbv beta iota in *; rewrite ?Hs; by simplify_eq.
Qed.

(** X7: saving a record twice is saving it once.  When the record goes to
    the history of the active account, and what is written is read back, the
    second [saveHistory] of the same record leaves the cache and the
    persistent medium as the first left them. *)
Theorem saveHistory_twice (item m : Js.obj) (options : option SaveHistoryOptions)
    (s s1 : State) (a : string) :
  Js.truthy (Js.get "id" item) = true ->
  historyItemFromAddress (Js.get "from" item) = Returns a ->
  needToUpdateAddressStorage options a s = (Returns false, s) ->
  get_history s = (Returns (Js.VObj m), s1) ->
  reads_back (Js.VObj (merged (Js.spread (Js.VObj m)) item options)) s ->
  (saveHistory (Js.VObj item) options ;;; saveHistory (Js.VObj item) options)%js s
  = saveHistory (Js.VObj item) options s.
Proof.
  intros Hid Hfrom Hneed Hget Hback.
  set (M := merged (Js.spread (Js.VObj m)) item options) in *.
  pose proof (accountStorage_get_history _ _ _ Hget) as Hacc.
  pose proof (get_history_outside s) as Hout. rewrite Hget in Hout. simpl in Hout.
  assert (Hback1 : reads_back (Js.VObj M) s1).
  { destruct Hback as [Hn | Hj]; [left; congruence | by right]. }
  unfold bind.
  rewrite (save_to_active_account _ _ _ _ _ _ Hid Hfrom Hneed Hget). fold M.
  change (set_history (Js.VObj M) s1) with (Returns tt, snd (set_history (Js.VObj M) s1)).
  cbv beta iota.
  set (s2 := snd (set_history (Js.VObj M) s1)).
  assert (Hneed2 : needToUpdateAddressStorage options a s2 = (Returns false, s2)).
  { apply need_elsewhere with s; [done | |]; subst s2; unfold set_history; simpl;
      injection Hout; intros; by destruct (accountStorage s1). }
  pose proof (set_then_get _ s1 Hback1) as Hget2. fold s2 in Hget2.
  assert (HM : merged (Js.spread (Js.VObj M)) item options = M)
    by apply merged_idem, JsKeys.NoDup_spread.
  assert (HMnd : Js.spread (Js.VObj M) = M).
  { apply JsMerge.spread_NoDup. subst M. unfold merged.
    apply JsKeys.NoDup_put, JsKeys.NoDup_spread. }
  destruct (accountStorage s1) as [st|] eqn:Hst.
  - rewrite (save_to_active_account _ _ _ _ _ _ Hid Hfrom Hneed2 Hget2), HM.
    subst s2. unfold set_history, with__history, with_disk.
    repeat (progress (simpl; rewrite ?Hst)).
    by rewrite insert_insert_eq.
  - rewrite (save_to_active_account _ _ _ _ _ _ Hid Hfrom Hneed2 Hget2).
    rewrite HMnd, HM. subst s2. unfold set_history, with__history, with_disk.
    by repeat (progress (simpl; rewrite ?Hst)).
Qed.

End Idempotence.

Section OwnRecords.

Context `{host : Host}.

(** X8: the records of the active account are found in its history.  For
    an account with an address in the default format and the common storage
    set, after [initAccountStorage], a record whose [from] is the address of
    the account (with the network prefix, as [submitExtrinsic] writes it) is
    saved through the storage of the address without the prefix, which is
    the storage of the account: for an identifier other than [__proto__],
    [getHistory] of the identifier returns the merged record. *)
Theorem own_record_is_visible (item m : Js.obj) (options : option SaveHistoryOptions)
    (s : State) (acc : CreateResult) (stg : Storage) (key : PublicKey) (sora : string) :
  let plain_address := pair_address (pair acc) in
  let id := Js.toString (Js.get "id" item) in
  codec_round_trip ->
  account s = Some acc ->
  storage s = Some stg ->
  plain_address <> EmptyString ->
  decodeAddress (Js.VStr plain_address) = Some key ->
  encodeAddress key None = Some plain_address ->
  encodeAddress key (Some prefix) = Some sora ->
  sora <> EmptyString ->
  sora <> plain_address ->
  Js.get "from" item = Js.VStr sora ->
  Js.truthy (Js.get "id" item) = true ->
  id <> "__proto__" ->
  option_flag toCurrentAccount options = false ->
  holds_mapping (disk s !! (toHmacSHA256 plain_address, historyNamespace s)) m ->
  json_round_trip (Js.VObj (merged m item options)) ->
  fst ((initAccountStorage ;;; saveHistory (Js.VObj item) options ;;; getHistory id)%js s)
  = Returns (Js.Data (Js.VObj (merged_item (Js.get id m) (Js.VObj item) options))).
Proof.
  intros plain_address id Hlaw Hacc Hstg Hplain Hdec Henc Hsora Hsne Hne Hfrom Hid Hkey
    Hflag Hm [Hjne Hj].
  set (s0 := with_accountStorage (Some (mkAccountStorage (toHmacSHA256 plain_address))) s).
  assert (Hinit : initAccountStorage s = (Returns tt, s0)).
  { unfold initAccountStorage. rewrite Hacc, Hstg. fold plain_address.
    by apply String.eqb_neq in Hplain as ->. }
  assert (Hcur : fst (address s0) = Returns sora).
  { unfold address. simpl. rewrite Hacc. simpl. unfold formatAddress.
    fold plain_address. by rewrite Hdec, Hsora. }
  assert (Hfa : historyItemFromAddress (Js.get "from" item) = Returns plain_address).
  { unfold historyItemFromAddress, formatAddress. rewrite Hfrom. simpl.
    apply String.eqb_neq in Hsne as ->. simpl.
    by rewrite (Hlaw _ _ _ Hsora), Henc. }
  assert (Hneed : needToUpdateAddressStorage options plain_address s0 = (Returns true, s0)).
  { apply need_true with sora; try done. simpl. by rewrite Hstg. }
  unfold bind at 1. rewrite Hinit. unfold bind at 1.
  rewrite (save_to_address_store _ _ _ _ m Hid Hfa Hneed) by done.
  match goal with
  | |- fst (getHistory id ?st) = _ =>
      assert (Hget : get_history st
                     = (Returns (Js.VObj (merged m item options)),
                        with__history (Js.VObj (merged m item options)) st))
  end.
  { unfold get_history. simpl. rewrite lookup_insert_eq.
    apply String.eqb_neq in Hjne as ->. simpl. by rewrite Hj. }
  rewrite (getHistory_run _ _ _ _ Hget).
  rewrite (read_own _ id (Js.VObj (merged_item (Js.get id m) (Js.VObj item) options)));
    [done|].
  unfold merged. fold id. by apply JsFacts.lookup_put_eq.
Qed.

End OwnRecords.

(** ** The properties of the ledger on the accounts of the examples *)

Lemma getFilteredHistory_selects_witness :
  exists filtered,
    getFilteredHistory (host := simple_host) from_bob browsing = (Returns filtered, browsing) /\
    forall id, Js.lookup id filtered =
               if String.eqb id "__proto__" then None
               else match Js.lookup id [("0x01", Js.VObj bobs_record);
                                        ("0x02", Js.VObj alices_record)] with
                    | Some item => if from_bob item then Some item else None
                    | None => None
                    end.
Proof.
  apply (getFilteredHistory_selects (host := simple_host) from_bob _ browsing browsing).
  reflexivity.
Defined.

Lemma historyList_lists_witness :
  exists items,
    historyList (host := simple_host) browsing = (Returns items, browsing) /\
    forall item, item ∈ items <->
      exists id, Js.lookup id [("0x01", Js.VObj bobs_record); ("0x02", Js.VObj alices_record)]
                 = Some item.
Proof.
  apply (historyList_lists (host := simple_host) _ browsing browsing).
  reflexivity.
Defined.

Lemma removeHistory_removes_witness :
  removeHistory (host := simple_host) [] browsing = (Returns tt, browsing) /\
  (["0x01"] <> [] ->
   exists kept,
     removeHistory (host := simple_host) ["0x01"] browsing
     = set_history (host := simple_host) (Js.VObj kept) browsing /\
     forall id, Js.lookup id kept =
                if existsb (String.eqb id) ["0x01"] then None
                else Js.lookup id [("0x01", Js.VObj bobs_record); ("0x02", Js.VObj alices_record)]).
Proof.
  apply (removeHistory_removes (host := simple_host) ["0x01"]
           (Js.VObj [("0x01", Js.VObj bobs_record); ("0x02", Js.VObj alices_record)])
           browsing browsing).
  - constructor; [reflexivity | constructor].
  - reflexivity.
Defined.

Lemma history_set_then_get_witness :
  fst ((set_history (host := simple_host) (Js.VObj [("0x01", Js.VObj bobs_record)]) ;;;
        get_history (host := simple_host))%js signed_in)
  = Returns (Js.VObj [("0x01", Js.VObj bobs_record)]).
Proof.
  apply (history_set_then_get (host := simple_host)
           (Js.VObj [("0x01", Js.VObj bobs_record)]) signed_in).
  right. split; [vm_compute; discriminate | vm_compute; reflexivity].
Defined.

Lemma saved_record_is_read_back_witness :
  (exists record,
     fst ((saveHistory (host := simple_host) (Js.VObj finalized_update) None ;;;
           getHistory (host := simple_host) "0x02")%js browsing)
     = Returns (Js.Data (Js.VObj record)) /\
     forall k, Js.lookup k record =
               match Js.lookup k finalized_update with
               | Some x => Some x
               | None => Js.lookup k alices_record
               end) /\
  fst ((saveHistory (host := simple_host) (Js.VObj finalized_update) None ;;;
        getHistory (host := simple_host) "constructor")%js browsing)
  = fst (getHistory (host := simple_host) "constructor" browsing).
Proof.
  destruct (saved_record_is_read_back (host := simple_host) finalized_update
              [("0x01", Js.VObj bobs_record); ("0x02", Js.VObj alices_record)]
              None browsing browsing "") as (Hsame & Hother & _).
  - reflexivity.
  - reflexivity.
  - reflexivity.
  - reflexivity.
  - left. reflexivity.
  - split.
    + apply Hsame. discriminate.
    + apply Hother. discriminate.
Defined.

Lemma saveHistory_throws_unchanged_witness :
  snd (saveHistory (host := simple_host) (Js.VObj alices_record) to_current_account corrupted)
  = corrupted.
Proof.
  apply (saveHistory_throws_unchanged (host := simple_host) (Js.VObj alices_record)
           to_current_account corrupted _ SyntaxError).
  vm_compute. reflexivity.
Defined.

Lemma saveHistory_twice_witness :
  (saveHistory (host := simple_host) (Js.VObj finalized_update) None ;;;
   saveHistory (host := simple_host) (Js.VObj finalized_update) None)%js browsing
  = saveHistory (host := simple_host) (Js.VObj finalized_update) None browsing.
Proof.
  apply (saveHistory_twice (host := simple_host) finalized_update
           [("0x01", Js.VObj bobs_record); ("0x02", Js.VObj alices_record)]
           None browsing browsing "").
  - reflexivity.
  - reflexivity.
  - reflexivity.
  - reflexivity.
  - left. reflexivity.
Defined.

Lemma own_record_is_visible_witness :
  fst ((initAccountStorage (host := simple_host) ;;;
        saveHistory (host := simple_host) (Js.VObj alices_record) None ;;;
        getHistory (host := simple_host) "0x02")%js
         (snd ((setAccount alice ;;; setStorage (mkStorage "sora"))%js fresh)))
  = Returns (Js.Data (Js.VObj alices_record)).
Proof.
  refine (own_record_is_visible (host := simple_host) alices_record [] None
            (snd ((setAccount alice ;;; setStorage (mkStorage "sora"))%js fresh))
            alice (mkStorage "sora") (list_byte_of_string "alice") "Ealice"
            simple_codec_round_trip _ _ _ _ _ _ _ _ _ _ _ _ _ _).
  all: first [ left; split; vm_compute; reflexivity
             | discriminate
             | split; [vm_compute; discriminate | vm_compute; reflexivity]
             | vm_compute; reflexivity ].
Defined.

(** ** Addresses and the pair *)

Section Addresses.

Context `{host : Host}.

(** X9: a formatted address is stable.  Under the law of the codec, what
    [formatAddress] returns is an address that [validateAddress] accepts,
    that formats to itself in the same mode, and that formats as the
    original address does in the other mode. *)
Theorem formatted_address_is_stable (a : Js.value) (withSoraPrefix other : bool)
    (b : string) :
  codec_round_trip ->
  formatAddress a withSoraPrefix = Returns b ->
  validateAddress (Js.VStr b) = true /\
  formatAddress (Js.VStr b) withSoraPrefix = Returns b /\
  formatAddress (Js.VStr b) other = formatAddress a other.
Proof.
  intros Hlaw. unfold formatAddress, validateAddress.
  destruct (decodeAddress a) as [key|]; [|done].
  destruct (encodeAddress key (if withSoraPrefix then _ else _)) as [b'|] eqn:Henc; [|done].
  intros [= ->]. rewrite (Hlaw _ _ _ Henc), Henc. done.
Qed.

Lemma byte_of_hex_of_byte (b : Byte.byte) :
  exists c1 c2, hex_of_byte b = String c1 (String c2 EmptyString) /\
                byte_of_hex c1 c2 = Some b.
Proof. destruct b; eexists _, _; split; reflexivity. Qed.

Lemma Buffer_toString_hex_inj (k1 k2 : PublicKey) :
  Buffer_toString_hex k1 = Buffer_toString_hex k2 -> k1 = k2.
Proof.
  revert k2. induction k1 as [|b1 k1 IH]; intros [|b2 k2]; simpl.
  - done.
  - destruct (byte_of_hex_of_byte b2) as (c1 & c2 & -> & _). done.
  - destruct (byte_of_hex_of_byte b1) as (c1 & c2 & -> & _). done.
  - destruct (byte_of_hex_of_byte b1) as (c1 & c2 & -> & H1).
    destruct (byte_of_hex_of_byte b2) as (d1 & d2 & -> & H2).
    simpl. intros [= -> -> Hrest]. rewrite H1 in H2. injection H2 as ->.
    f_equal. by apply IH.
Qed.

(** X10: the public key in hexadecimal tells the account.  Two addresses
    with the same result of [getPublicKeyByAddress] are formatted alike by
    [formatAddress]; and, under the law of the codec, a formatted address
    has the public key of the address it was formatted from. *)
Theorem public_key_tells_the_account (a b : Js.value) (hex : string) :
  getPublicKeyByAddress a = Returns hex ->
  (getPublicKeyByAddress b = Returns hex ->
   forall withSoraPrefix, formatAddress a withSoraPrefix = formatAddress b withSoraPrefix) /\
  (codec_round_trip ->
   forall withSoraPrefix c, formatAddress a withSoraPrefix = Returns c ->
     getPublicKeyByAddress (Js.VStr c) = Returns hex).
Proof.
  unfold getPublicKeyByAddress, formatAddress.
  destruct (decodeAddress a) as [ka|]; [|done]. intros [= <-]. split.
  - destruct (decodeAddress b) as [kb|]; [|done]. intros [= Hhex].
    apply Buffer_toString_hex_inj in Hhex. by subst kb.
  - intros Hlaw withSoraPrefix c.
    destruct (encodeAddress ka _) as [c'|] eqn:Henc; [|done].
    intros [= ->]. by rewrite (Hlaw _ _ _ Henc).
Qed.

(** X11: a record without [from] goes to the history of the active
    account, whatever the options, the common storage and the address of the
    account: what is written is the history that is read, with the merged
    record assigned under the identifier of the record (under [__proto__],
    when the history does not hold it, the assignment defines no property,
    and the history is written as it was read). *)
Theorem record_without_from_goes_to_active_account (item : Js.obj)
    (options : option SaveHistoryOptions) (s s1 : State) (h : Js.value) :
  Js.truthy (Js.get "id" item) = true ->
  Js.truthy (Js.get "from" item) = false ->
  get_history s = (Returns h, s1) ->
  saveHistory (Js.VObj item) options s
  = set_history (Js.VObj (merged (Js.spread h) item options)) s1.
Proof.
  intros Hid Hfrom Hget.
  apply save_to_active_account with EmptyString; [done | | | done].
  - unfold historyItemFromAddress. by rewrite Hfrom.
  - unfold needToUpdateAddressStorage.
    by destruct (option_flag toCurrentAccount options).
Qed.

Lemma returns_bind {A B : Type} (m : M A) (k : A -> M B) (s s' : State) (b : B) :
  bind m k s = (Returns b, s') ->
  exists a s1, m s = (Returns a, s1) /\ k a s1 = (Returns b, s').
Proof.
  unfold bind. destruct (m s) as [[a|e0] s1]; [|done].
  intros H. by exists a, s1.
Qed.

Lemma Date_now_account : preserves account Date_now.
Proof. intros s. unfold Date_now, tick. simpl. by destruct (clock s). Qed.

Lemma assign_identity_account (signedTx_hash : string) :
  preserves account (assign_identity signedTx_hash).
Proof.
  pose proof Date_now_account.
  unfold assign_identity, set_field, field. frame.
Qed.

Lemma assign_identity_returns (signedTx_hash : string) (s : State) :
  exists s', assign_identity signedTx_hash s = (Returns tt, s').
Proof.
  unfold assign_identity, bind, set_field, field, modify, gets, Date_now, ret. simpl.
  destruct (negb (Js.truthy _)); by eexists.
Qed.

Lemma locks_the_pair_bind {A : Type} (m : M A) (k : A -> M unit) (s : State) :
  preserves account m ->
  (forall a s1, locks_the_pair (account s1) (k a s1)) ->
  locks_the_pair (account s) (bind m k s).
Proof.
  intros Hm Hk. unfold bind. specialize (Hm s).
  destruct (m s) as [[a|e] s1]; simpl in Hm; [|done].
  rewrite <- Hm. apply Hk.
Qed.

Lemma lockPair_locks (signedTx_hash : string) (s : State) :
  locks_the_pair (account s) ((lockPair ;;; assign_identity signedTx_hash)%js s).
Proof.
  unfold bind, lockPair.
  destruct (account s) as [[[addr locked]]|] eqn:Hacc; [|done]. simpl.
  destruct locked; simpl.
  - pose proof (assign_identity_account signedTx_hash s) as Hp.
    destruct (assign_identity_returns signedTx_hash s) as [s' Hrun].
    rewrite Hrun in *. simpl in *. eexists. split; [done|]. by rewrite Hp, Hacc.
  - set (s0 := with_account (Some (mkAccount (mkPair addr true))) s).
    pose proof (assign_identity_account signedTx_hash s0) as Hp.
    destruct (assign_identity_returns signedTx_hash s0) as [s' Hrun].
    rewrite Hrun in *. simpl in *. eexists. split; [done|]. by rewrite Hp.
Qed.

(** X12: [submitExtrinsic] locks the pair once the extrinsic is signed.
    When the part before the subscription returns, the pair of the account
    is locked; when it throws (no signer, no account, no nonce, a signing
    that fails), the account is as it was. *)
Theorem prepare_locks_the_pair (extrinsic : SubmittableExtrinsic)
    (signer : option KeyringPair) (historyData : option Js.obj) (unsigned : bool)
    (s : State) :
  match prepare extrinsic signer historyData unsigned s with
  | (Returns _, s') =>
      exists acc, account s = Some acc /\
                  account s' = Some (mkAccount (mkPair (pair_address (pair acc)) true))
  | (Throws _, s') => account s' = account s
  end.
Proof.
  change (locks_the_pair (account s) (prepare extrinsic signer historyData unsigned s)).
  unfold prepare.
  apply locks_the_pair_bind; [frame|]. intros _ s1.
  apply locks_the_pair_bind.
  { destruct (_ && _); [|frame]. unfold set_field.
    apply preserves_bind; [apply address_preserves|]. intros ?. frame. }
  intros _ s2.
  apply locks_the_pair_bind; [frame|]. intros signer_address s3.
  apply locks_the_pair_bind; [frame|]. intros nonce s4.
  apply locks_the_pair_bind.
  { intros s'. unfold getAccountWithOptions. by destruct (account s') eqn:E. }
  intros accountWithOptions s5.
  apply locks_the_pair_bind; [frame|]. intros signedTx_hash s6.
  apply lockPair_locks.
Qed.

End Addresses.

(** ** The statuses and the events, continued *)

Section Statuses.

Context `{host : Host}.

Lemma on_event_other_transfer (ev : ChainEvent) (s : State) :
  is_transfer ev = true ->
  isLiquidityPoolOperation (record_field "type" s) = false ->
  on_event ev s = (Returns tt, s).
Proof.
  unfold is_transfer, record_field, on_event, bind, field, gets. simpl.
  intros H Hliq. apply andb_true_iff in H as [Hm Hsec].
  pose proof Hm as Hm'. apply String.eqb_eq in Hm'. rewrite Hm'. simpl.
  rewrite Hliq, andb_false_r. by destruct (String.eqb (ev_section ev) "system").
Qed.

Lemma on_event_unless_liquidity (ev : ChainEvent) :
  preserves amounts_unless_liquidity (on_event ev).
Proof.
  intros s. unfold amounts_unless_liquidity. rewrite (on_event_type ev s).
  destruct (isLiquidityPoolOperation (record_field "type" s)) eqn:Hliq; [done|].
  do 2 f_equal. destruct (is_transfer ev) eqn:Ht.
  - by rewrite on_event_other_transfer.
  - unfold amounts. by rewrite (on_event_amount ev Ht s), (on_event_amount2 ev Ht s).
Qed.

Lemma set_field_unless_liquidity (key : string) (v : Js.value) :
  key <> "type" -> key <> "amount" -> key <> "amount2" ->
  preserves amounts_unless_liquidity (set_field key v).
Proof.
  intros H1 H2 H3 s. unfold amounts_unless_liquidity, amounts, record_field. simpl.
  by rewrite !JsFacts.get_set_ne.
Qed.

Lemma history_unless_liquidity {A : Type} (m : M A) :
  preserves history m -> preserves amounts_unless_liquidity m.
Proof.
  intros H s. unfold amounts_unless_liquidity, amounts, record_field.
  by rewrite (H s).
Qed.

Lemma on_result_unless_liquidity (subscriber : bool) (r : SubmittableResult) :
  preserves amounts_unless_liquidity (on_result subscriber r).
Proof.
  pose proof (fun evs => forEach_preserves amounts_unless_liquidity evs
                (proj2 (Forall_forall _ _) (fun ev _ => on_event_unless_liquidity ev)))
    as Hevents.
  assert (Hnow : preserves amounts_unless_liquidity Date_now)
    by (apply history_unless_liquidity; intros s; apply history_tick).
  assert (Hnext : forall phase,
            preserves amounts_unless_liquidity (subscriber_next subscriber phase)).
  { intros phase. apply history_unless_liquidity. intros s. simpl.
    by destruct (subscriber && negb (completed s)). }
  assert (Hcomplete : preserves amounts_unless_liquidity (subscriber_complete subscriber)).
  { apply history_unless_liquidity. intros s. simpl. by destruct subscriber. }
  assert (Hsave : forall item options,
            preserves amounts_unless_liquidity (saveHistory item options)).
  { intros. apply history_unless_liquidity, saveHistory_history. }
  unfold on_result.
  apply preserves_bind; [by apply set_field_unless_liquidity|]. intros _.
  apply preserves_bind; [|intros _; apply preserves_bind; [frame | intros ?; apply Hsave]].
  destruct (status r); try apply preserves_ret.
  - apply preserves_bind; [by apply set_field_unless_liquidity | intros _; apply Hnext].
  - apply preserves_bind; [apply Hnow|]. intros ?.
    apply preserves_bind; [by apply set_field_unless_liquidity|]. intros _.
    apply preserves_bind; [apply Hevents|]. intros _.
    apply preserves_bind; [frame|]. intros ?.
    apply preserves_bind; [apply Hnext|]. intros _.
    apply preserves_bind; [apply Hcomplete|]. intros _. frame.
Qed.

(** X13: the events fill the amounts of liquidity operations only.  For a
    record whose operation is neither [AddLiquidity] nor [RemoveLiquidity],
    whatever the node reports (statuses, events, with or without the data of
    their kind), [amount] and [amount2] are after the subscription as they
    were before. *)
Theorem amounts_of_other_operations (subscriber : bool) (results : list SubmittableResult)
    (s : State) :
  isLiquidityPoolOperation (record_field "type" s) = false ->
  amounts (snd (deliver subscriber results s)) = amounts s.
Proof.
  intros Hliq.
  pose proof (deliver_preserves amounts_unless_liquidity subscriber results
                (fun _ _ => eq_refl)
                (proj2 (Forall_forall _ _)
                   (fun r _ => on_result_unless_liquidity subscriber r)) s) as H.
  unfold amounts_unless_liquidity in H. injection H as Htype H.
  rewrite Htype, Hliq in H. congruence.
Qed.

Lemma fold_amounts_set (evs : list ChainEvent) (a b : Js.value) :
  Js.truthy a = true ->
  fold_left (fun p ev => record_amount (formatted_amount ev) p) evs (a, b)
  = (a, match last evs with
        | Some t => Js.VStr (formatted_amount t)
        | None => b
        end).
Proof.
  intros Ha. revert b. induction evs as [|ev evs IH]; intros b; simpl; [done|].
  unfold record_amount at 2. simpl. rewrite Ha, IH.
  destruct evs as [|ev' evs]; [done|].
  change (last (ev :: ev' :: evs)) with (last (ev' :: evs)).
  destruct (last (ev' :: evs)) eqn:E; [done|]. by apply last_None in E.
Qed.

(** X14: with any number of transfer events, [amount] is the amount of the
    first and [amount2] the amount of the last of the others.  A finalized
    block is processed for the record of a liquidity operation whose amounts
    are unset; the events [evs], up to the last transfer, carry the data of
    their kind and errors that the registry knows, and the events [rest]
    after them are any events but transfers.  The first transfer fills
    [amount], and each later transfer overwrites [amount2]. *)
Theorem transfers_first_and_last (subscriber : bool) (blockHash : string)
    (evs rest : list ChainEvent) (s : State) (t1 : ChainEvent) (others : list ChainEvent) :
  isLiquidityPoolOperation (record_field "type" s) = true ->
  record_field "amount" s = Js.VUndef ->
  record_field "amount2" s = Js.VUndef ->
  Forall (fun ev => has_expected_data ev = true) evs ->
  Forall (fun ev => error_is_known ev = true) evs ->
  Forall (fun ev => is_transfer ev = false) rest ->
  List.filter is_transfer evs = t1 :: others ->
  formatted_amount t1 <> EmptyString ->
  let s' := snd (on_result subscriber (mkResult (Finalized blockHash) (evs ++ rest)) s) in
  record_field "amount" s' = Js.VStr (formatted_amount t1) /\
  record_field "amount2" s' = match last others with
                              | Some t => Js.VStr (formatted_amount t)
                              | None => Js.VUndef
                              end.
Proof.
  intros Hliq Ha Ha2 Hok Hknown Hrest Hts Hne s'.
  rewrite <- (at_finalized_field "type" s) in Hliq by discriminate.
  pose proof (forEach_amounts_then evs rest (at_finalized s) Hliq Hok Hknown Hrest) as Hfinal.
  pose proof (on_result_finalized_history subscriber blockHash (evs ++ rest) s) as Hh.
  fold s' in Hh. unfold amounts in Hfinal.
  rewrite !at_finalized_field, Ha, Ha2, Hts in Hfinal by discriminate.
  simpl in Hfinal. unfold record_amount at 2 in Hfinal. simpl in Hfinal.
  rewrite fold_amounts_set in Hfinal
    by (simpl; by apply String.eqb_neq in Hne as ->).
  unfold record_field in *. rewrite Hh. by injection Hfinal as -> ->.
Qed.

(** X15: the finalized status ends the subscription when its events are
    processed.  When the events of the finalized block have the data of
    their kind and errors that the registry knows, the callback
    unsubscribes, and the results that the node would report after it are
    not processed.  When an event throws, the callback does not reach the
    end of the subscription: the exception is reported and the next result
    is processed. *)
Theorem results_after_finalized_are_ignored (subscriber : bool) (blockHash : string)
    (evs : list ChainEvent) (later : list SubmittableResult) (s : State) :
  (Forall (fun ev => has_expected_data ev = true) evs ->
   Forall (fun ev => error_is_known ev = true) evs ->
   deliver subscriber (mkResult (Finalized blockHash) evs :: later) s
   = deliver subscriber [mkResult (Finalized blockHash) evs] s) /\
  (forall e s2,
     unsubscribed s = false ->
     forEach evs (at_finalized s) = (Throws e, s2) ->
     unsubscribed s2 = false /\
     deliver subscriber (mkResult (Finalized blockHash) evs :: later) s
     = deliver subscriber later (with_uncaught (uncaught s2 ++ [e]) s2)).
Proof.
  split.
  - intros Hok Hknown. simpl. destruct (unsubscribed s); [done|].
    destruct (forEach_returns evs (at_finalized s) Hok Hknown) as [s2 Hrun].
    destruct (on_result_finalized_state subscriber blockHash evs s s2 Hrun)
      as (_ & Hsub & _).
    unfold subscription, conclude in Hsub. simpl in Hsub. injection Hsub as _ _ Hunsub.
    destruct (on_result subscriber _ s) as [[[]|e] s1]; simpl in Hunsub;
      by rewrite deliver_unsubscribed.
  - intros e s2 Hopen Hrun.
    pose proof (forEach_subscription evs (at_finalized s)) as Hsub.
    rewrite Hrun, at_finalized_subscription in Hsub. unfold subscription in Hsub.
    simpl in Hsub. injection Hsub as _ _ Hunsub.
    split; [congruence|]. simpl. rewrite Hopen.
    by rewrite (on_result_finalized_throws _ _ _ _ _ _ Hrun).
Qed.


End Statuses.

(** ** The rejection of the send, continued *)

Section Rejections.

Context `{host : Host}.


(** X18: a rejection whose message is no string.  The handler throws the
    [TypeError] of the call of [split] after it has written the identifier,
    the status and the end time into the record: nothing is saved, and the
    subscriber is not told. *)
Theorem rejection_with_a_message_that_is_no_string (subscriber : bool) (e : exn)
    (s : State) :
  match message_of e with
  | Js.VStr _ | Js.VUndef | Js.VNull => False
  | _ => True
  end ->
  exists s',
    on_rejected subscriber e s = (Throws (TypeError "split is not a function"), s') /\
    record_field "id" s' = Js.VStr (rejection_id s) /\
    record_field "status" s' = Js.VStr "error" /\
    (disk s', _history s', notified s', completed s')
    = (disk s, _history s, notified s, completed s).
Proof.
  intros Hmsg.
  assert (Hinfo : errorInfo_of e = Throws (TypeError "split is not a function")).
  { unfold errorInfo_of. by destruct (message_of e). }
  cbv beta iota zeta delta [on_rejected bind set_field field modify Date_now gets lift].
  rewrite Hinfo. eexists. split; [reflexivity|].
  unfold record_field, rejection_id, record_field, tick. simpl.
  destruct (clock s); simpl.
  all: by rewrite ?JsFacts.get_set_eq, ?JsFacts.get_set_ne, ?JsFacts.get_set_eq,
         ?JsFacts.get_set_ne, ?JsFacts.get_set_eq by discriminate.
Qed.

Lemma has_colon_after_last_colon (msg : string) : has_colon (after_last_colon msg) = false.
Proof.
  induction msg as [|c r IH]; simpl; [done|].
  destruct (has_colon r) eqn:Hr; [done|].
  destruct (Ascii.eqb c ":") eqn:Hc; [done|]. simpl. by rewrite Hc, Hr.
Qed.

Lemma has_colon_trimStart (t : string) : has_colon t = false -> has_colon (Js.trimStart t) = false.
Proof.
  induction t as [|c r IH]; simpl; [done|].
  intros H. apply orb_false_iff in H as [Hc Hr].
  destruct (Js.is_white_space c); [by apply IH|]. simpl. by rewrite Hc, Hr.
Qed.

Lemma has_colon_trimEnd (t : string) : has_colon t = false -> has_colon (Js.trimEnd t) = false.
Proof.
  induction t as [|c r IH]; simpl; [done|].
  intros H. apply orb_false_iff in H as [Hc Hr]. specialize (IH Hr).
  destruct (Js.trimEnd r) as [|c' r'].
  - destruct (Js.is_white_space c); [done|]. simpl. by rewrite Hc.
  - change (has_colon (String c (String c' r')))
      with (Ascii.eqb c ":" || has_colon (String c' r')).
    by rewrite Hc, IH.
Qed.

(** X19: the error message that the rejection handler records has no
    colon.  Whatever the ledger and the subscriber, when the send rejects
    with a message that is a string, the error message of the record is a
    string without a colon: the text after the last colon of the message,
    trimmed, or the whole message trimmed when it has none. *)
Theorem recorded_message_has_no_colon (subscriber : bool) (e : exn) (msg : string)
    (s : State) :
  message_of e = Js.VStr msg ->
  exists info,
    record_field "errorMessage" (snd (on_rejected subscriber e s)) = Js.VStr info /\
    has_colon info = false /\
    (has_colon msg = false -> info = Js.trim msg).
Proof.
  intros Hmsg. pose proof (errorInfo_of_message e msg Hmsg) as Hinfo.
  exists (Js.trim (after_last_colon msg)). split; [|split].
  - rewrite (on_rejected_run _ _ _ _ Hinfo).
    destruct (at_rejection_record (Some (Js.trim (after_last_colon msg))) s)
      as (_ & _ & Hrec).
    match goal with
    | |- record_field _ (snd (?m ?s0)) = _ =>
        assert (Htail : preserves (record_field "errorMessage") m) by frame;
        rewrite (Htail s0)
    end.
    exact Hrec.
  - unfold Js.trim. apply has_colon_trimEnd, has_colon_trimStart,
      has_colon_after_last_colon.
  - intros Hno. by rewrite JsFacts.after_last_colon_no_colon.
Qed.

End Rejections.

(** ** The properties of addresses, statuses and rejections on the examples *)

Lemma formatted_address_is_stable_witness :
  validateAddress (host := simple_host) (Js.VStr "*alice") = true /\
  formatAddress (host := simple_host) (Js.VStr "*alice") false = Returns "*alice" /\
  formatAddress (host := simple_host) (Js.VStr "*alice") true
  = formatAddress (host := simple_host) (Js.VStr "Ealice") true.
Proof.
  apply (formatted_address_is_stable (host := simple_host) (Js.VStr "Ealice") false true
           "*alice" simple_codec_round_trip).
  reflexivity.
Defined.

Lemma public_key_tells_the_account_witness :
  getPublicKeyByAddress (host := simple_host) (Js.VStr "*alice") = Returns "616c696365" /\
  formatAddress (host := simple_host) (Js.VStr "*alice") true
  = formatAddress (host := simple_host) (Js.VStr "Ealice") true.
Proof.
  split; [reflexivity|].
  refine (proj1 (public_key_tells_the_account (host := simple_host) (Js.VStr "*alice")
                   (Js.VStr "Ealice") "616c696365" _) _ true); reflexivity.
Defined.

Lemma record_without_from_goes_to_active_account_witness :
  saveHistory (host := simple_host) (Js.VObj faucet_record) None signed_in
  = set_history (host := simple_host)
      (Js.VObj (merged (host := simple_host) (Js.spread (Js.VObj [])) faucet_record None))
      (with__history (Js.VObj []) signed_in).
Proof.
  apply (record_without_from_goes_to_active_account (host := simple_host) faucet_record
           None signed_in (with__history (Js.VObj []) signed_in) (Js.VObj []));
    reflexivity.
Defined.

Lemma amounts_of_other_operations_witness :
  amounts (snd (deliver (host := simple_host) true
                  [mkResult (InBlock "0xAA") [];
                   mkResult (Finalized "0xAA") [transfer "balances" "5"; fee_withdrawn]]
                  prepared))
  = amounts prepared.
Proof.
  apply (amounts_of_other_operations (host := simple_host)). reflexivity.
Defined.

Lemma transfers_first_and_last_witness :
  let s' := snd (on_result (host := simple_host) false
                   (mkResult (Finalized "0xAA")
                      [transfer "tokens" "10"; fee_withdrawn; transfer "balances" "20";
                       transfer "tokens" "30"; failed_with unknown_module_error])
                   depositing) in
  record_field "amount" s' = Js.VStr "10" /\ record_field "amount2" s' = Js.VStr "30".
Proof.
  refine (transfers_first_and_last (host := simple_host) false "0xAA"
            [transfer "tokens" "10"; fee_withdrawn; transfer "balances" "20";
             transfer "tokens" "30"]
            [failed_with unknown_module_error]
            depositing (transfer "tokens" "10")
            [transfer "balances" "20"; transfer "tokens" "30"] _ _ _ _ _ _ _ _).
  - reflexivity.
  - reflexivity.
  - reflexivity.
  - repeat constructor.
  - repeat constructor.
  - repeat constructor.
  - reflexivity.
  - vm_compute. discriminate.
Defined.

Lemma results_after_finalized_are_ignored_witness :
  (deliver (host := simple_host) true
     [mkResult (Finalized "0xAA") [fee_withdrawn]; mkResult (Finalized "0xBB") []] depositing
   = deliver (host := simple_host) true [mkResult (Finalized "0xAA") [fee_withdrawn]]
       depositing) /\
  (exists s2,
     unsubscribed s2 = false /\
     deliver (host := simple_host) true
       [mkResult (Finalized "0xAA") [failed_with unknown_module_error];
        mkResult (Finalized "0xBB") []] depositing
     = deliver (host := simple_host) true [mkResult (Finalized "0xBB") []]
         (with_uncaught (uncaught s2 ++ [Error "findMetaError: Unable to find Error"]) s2)).
Proof.
  split.
  - apply (results_after_finalized_are_ignored (host := simple_host) true "0xAA"
             [fee_withdrawn] [mkResult (Finalized "0xBB") []] depositing);
      repeat constructor.
  - eexists.
    apply (proj2 (results_after_finalized_are_ignored (host := simple_host) true "0xAA"
                    [failed_with unknown_module_error] [mkResult (Finalized "0xBB") []]
                    depositing)).
    + reflexivity.
    + vm_compute. reflexivity.
Defined.






Lemma rejection_with_a_message_that_is_no_string_witness :
  exists s',
    on_rejected (host := simple_host) true numeric_rejection prepared
    = (Throws (TypeError "split is not a function"), s') /\
    record_field "id" s' = Js.VStr "enc:1000" /\
    record_field "status" s' = Js.VStr "error" /\
    (disk s', _history s', notified s', completed s')
    = (disk prepared, _history prepared, notified prepared, completed prepared).
Proof.
  apply (rejection_with_a_message_that_is_no_string (host := simple_host) true
           numeric_rejection prepared).
  exact I.
Defined.

Lemma recorded_message_has_no_colon_witness :
  exists info,
    record_field "errorMessage"
      (snd (on_rejected (host := simple_host) false nonce_too_low prepared))
    = Js.VStr info /\
    has_colon info = false /\
    (has_colon "1010: Invalid Transaction: nonce too low" = false ->
     info = Js.trim "1010: Invalid Transaction: nonce too low").
Proof.
  apply (recorded_message_has_no_colon (host := simple_host) false nonce_too_low
           "1010: Invalid Transaction: nonce too low" prepared).
  reflexivity.
Defined.

(** ** The static network fees *)

Section FeeTable.

Import Fee.

Context `{node : Node}.

Lemma calc_fees_other (ops : list Operation) (fees : gmap string string) (k : string) :
  k ∉ List.map Operation_value ops ->
  snd (calc_fees ops fees) !! k = fees !! k.
Proof.
  revert fees. induction ops as [|op ops IH]; intros fees Hk; simpl; [done|].
  simpl in Hk. apply not_elem_of_cons in Hk as [Hne Hk].
  destruct (getEmptyExtrinsic op) as [ex|]; [|by apply IH].
  destruct (paymentInfo ex mockAccountAddress) as [e|fee]; [done|].
  rewrite IH by done. by apply lookup_insert_ne.
Qed.

Lemma calc_fees_refreshed (ops : list Operation) (fees fees' : gmap string string) :
  NoDup (List.map Operation_value ops) ->
  calc_fees ops fees = (Returns tt, fees') ->
  forall op ex, op ∈ ops -> getEmptyExtrinsic op = Some ex ->
    exists fee, paymentInfo ex mockAccountAddress = inr fee /\
                fees' !! Operation_value op = Some (toCodecString fee XOR_decimals).
Proof.
  revert fees. induction ops as [|op0 ops IH]; intros fees Hnd Hrun op ex Hin Hex.
  - by apply elem_of_nil in Hin.
  - simpl in Hnd. apply NoDup_cons in Hnd as [Hfresh Hnd]. simpl in Hrun.
    apply elem_of_cons in Hin as [-> | Hin].
    + rewrite Hex in Hrun.
      destruct (paymentInfo ex mockAccountAddress) as [e|fee]; [done|].
      exists fee. split; [done|].
      pose proof (calc_fees_other ops
                    (<[Operation_value op0 := toCodecString fee XOR_decimals]> fees)
                    (Operation_value op0) Hfresh) as Hkeep.
      rewrite Hrun, lookup_insert_eq in Hkeep. exact Hkeep.
    + destruct (getEmptyExtrinsic op0) as [ex0|]; [|by eapply IH].
      destruct (paymentInfo ex0 mockAccountAddress) as [e|fee]; [done|].
      by eapply IH.
Qed.

Lemma calc_fees_returns (ops : list Operation) (fees : gmap string string) :
  (forall op ex, op ∈ ops -> getEmptyExtrinsic op = Some ex ->
     exists fee, paymentInfo ex mockAccountAddress = inr fee) ->
  exists fees', calc_fees ops fees = (Returns tt, fees').
Proof.
  revert fees. induction ops as [|op ops IH]; intros fees Hok; simpl; [by eexists|].
  assert (Hrest : forall op' ex, op' ∈ ops -> getEmptyExtrinsic op' = Some ex ->
            exists fee, paymentInfo ex mockAccountAddress = inr fee).
  { intros op' ex Hin. apply Hok. by right. }
  destruct (getEmptyExtrinsic op) as [ex|] eqn:Hex; [|by apply IH].
  destruct (Hok op ex) as [fee ->]; [by left | done |]. by apply IH.
Qed.

Lemma calc_fees_app (before rest : list Operation) (fees : gmap string string) :
  calc_fees (before ++ rest) fees =
  match calc_fees before fees with
  | (Returns _, fees1) => calc_fees rest fees1
  | (Throws e, fees1) => (Throws e, fees1)
  end.
Proof.
  revert fees. induction before as [|op before IH]; intros fees; simpl; [done|].
  destruct (getEmptyExtrinsic op) as [ex|]; [|apply IH].
  destruct (paymentInfo ex mockAccountAddress) as [e|fee]; [done|]. apply IH.
Qed.

Lemma Operation_value_inj (a b : Operation) :
  Operation_value a = Operation_value b -> a = b.
Proof. destruct a, b; simpl; intros H; try reflexivity; discriminate H. Qed.

Lemma operations_NoDup : NoDup (List.map Operation_value operations).
Proof. apply (bool_decide_unpack _). vm_compute. reflexivity. Qed.

Lemma operations_have_extrinsics (op : Operation) :
  op ∈ operations <-> getEmptyExtrinsic op <> None.
Proof.
  split.
  - intros Hin. apply list_elem_of_In in Hin. simpl in Hin.
    repeat (destruct Hin as [<- | Hin]; [done|]). done.
  - intros Hex. apply list_elem_of_In.
    destruct op; simpl in *; try done; tauto.
Qed.

Lemma operations_are_the_table (k : string) :
  NetworkFee !! k <> None <-> exists op, op ∈ operations /\ k = Operation_value op.
Proof.
  split.
  - intros Hk. apply not_eq_None_Some in Hk as [v Hv].
    unfold NetworkFee in Hv. apply elem_of_list_to_map_2 in Hv.
    apply list_elem_of_fmap in Hv as (op & [= -> _] & Hin).
    by exists op.
  - intros (op & Hin & ->). apply list_elem_of_In in Hin. simpl in Hin.
    repeat (destruct Hin as [<- | Hin]; [by vm_compute|]). done.
Qed.

(** X20: [calcStaticNetworkFees] refreshes the table [NetworkFee].  When
    the node answers [paymentInfo] for the empty extrinsics, every entry of
    the table [NetworkFee] is written with the fee of the empty extrinsic of
    its operation, and no other entry of the table is written. *)
Theorem calcStaticNetworkFees_refreshes_the_table (fees : gmap string string) :
  (forall op ex, getEmptyExtrinsic op = Some ex ->
     exists fee, paymentInfo ex mockAccountAddress = inr fee) ->
  exists fees',
    calcStaticNetworkFees fees = (Returns tt, fees') /\
    (forall k, NetworkFee !! k <> None ->
       exists op ex fee,
         k = Operation_value op /\ getEmptyExtrinsic op = Some ex /\
         paymentInfo ex mockAccountAddress = inr fee /\
         fees' !! k = Some (toCodecString fee XOR_decimals)) /\
    (forall k, NetworkFee !! k = None -> fees' !! k = fees !! k).
Proof.
  intros Hok. unfold calcStaticNetworkFees.
  destruct (calc_fees_returns operations fees) as [fees' Hrun].
  { intros op ex _. apply Hok. }
  exists fees'. split; [done|]. split.
  - intros k Hk. apply operations_are_the_table in Hk as (op & Hin & ->).
    pose proof (proj1 (operations_have_extrinsics op) Hin) as Hex.
    destruct (getEmptyExtrinsic op) as [ex|] eqn:Hop; [|done].
    destruct (calc_fees_refreshed operations fees fees' operations_NoDup Hrun op ex Hin Hop)
      as (fee & Hfee & Hlook).
    by exists op, ex, fee.
  - intros k Hk.
    pose proof (calc_fees_other operations fees k) as Hkeep.
    rewrite Hrun in Hkeep. apply Hkeep.
    intros Hin. apply list_elem_of_fmap in Hin as (op & -> & Hin).
    assert (NetworkFee !! Operation_value op <> None); [|done].
    apply operations_are_the_table. by exists op.
Qed.

(** X21: a rejection of [paymentInfo] stops [calcStaticNetworkFees], which
    rejects with it: the fees of the operations before the one whose
    extrinsic the node rejects are written, and the fees of this operation
    and of the operations after it are as they were. *)
Theorem calcStaticNetworkFees_stops_at_a_rejection (fees : gmap string string)
    (before after : list Operation) (op : Operation) (ex : Extrinsic) (e : exn) :
  operations = before ++ op :: after ->
  (forall o ex', o ∈ before -> getEmptyExtrinsic o = Some ex' ->
     exists fee, paymentInfo ex' mockAccountAddress = inr fee) ->
  getEmptyExtrinsic op = Some ex ->
  paymentInfo ex mockAccountAddress = inl e ->
  exists fees',
    calcStaticNetworkFees fees = (Throws e, fees') /\
    (forall o ex', o ∈ before -> getEmptyExtrinsic o = Some ex' ->
       exists fee, paymentInfo ex' mockAccountAddress = inr fee /\
                   fees' !! Operation_value o = Some (toCodecString fee XOR_decimals)) /\
    (forall o, o ∈ op :: after -> fees' !! Operation_value o = fees !! Operation_value o).
Proof.
  intros Hops Hok Hex Hreject. unfold calcStaticNetworkFees.
  pose proof operations_NoDup as Hnd. rewrite Hops in *.
  rewrite map_app in Hnd. apply NoDup_app in Hnd as (Hnd1 & Hdis & _).
  destruct (calc_fees_returns before fees Hok) as [fees1 Hrun].
  exists fees1. split; [|split].
  - rewrite calc_fees_app, Hrun. simpl. by rewrite Hex, Hreject.
  - intros o ex' Hin Hex'. by eapply calc_fees_refreshed.
  - intros o Hin.
    pose proof (calc_fees_other before fees (Operation_value o)) as Hkeep.
    rewrite Hrun in Hkeep. apply Hkeep.
    intros Hb. apply (Hdis _ Hb). apply list_elem_of_fmap. by exists o.
Qed.

End FeeTable.

Lemma calcStaticNetworkFees_refreshes_the_table_witness :
  exists fees',
    Fee.calcStaticNetworkFees (node := answering_node) Fee.NetworkFee = (Returns tt, fees') /\
    (forall k, Fee.NetworkFee !! k <> None -> fees' !! k = Some "700").
Proof.
  destruct (calcStaticNetworkFees_refreshes_the_table (node := answering_node) Fee.NetworkFee)
    as (fees' & Hrun & Hfresh & _).
  - intros op ex _. by exists 700.
  - exists fees'. split; [exact Hrun|].
    intros k Hk. destruct (Hfresh k Hk) as (op & ex & fee & _ & _ & [= <-] & Hlook).
    exact Hlook.
Defined.

Lemma calcStaticNetworkFees_stops_at_a_rejection_witness :
  exists fees',
    Fee.calcStaticNetworkFees (node := rejecting_node) Fee.NetworkFee
    = (Throws (Error "Transaction is outdated"), fees') /\
    fees' !! "ClaimExternalRewards" = Some "0" /\
    fees' !! "ReferralReserveXor" = Some "0".
Proof.
  destruct (calcStaticNetworkFees_stops_at_a_rejection (node := rejecting_node) Fee.NetworkFee
              [Fee.AddLiquidity; Fee.CreatePair; Fee.EthBridgeIncoming; Fee.EthBridgeOutgoing;
               Fee.RegisterAsset; Fee.RemoveLiquidity; Fee.Swap; Fee.SwapAndSend; Fee.Transfer;
               Fee.ClaimVestedRewards; Fee.ClaimCrowdloanRewards;
               Fee.ClaimLiquidityProvisionRewards]
              [Fee.ReferralReserveXor; Fee.ReferralUnreserveXor; Fee.ReferralSetInvitedUser;
               Fee.DemeterFarmingDepositLiquidity; Fee.DemeterFarmingWithdrawLiquidity;
               Fee.DemeterFarmingStakeToken; Fee.DemeterFarmingUnstakeToken;
               Fee.DemeterFarmingGetRewards; Fee.CeresLiquidityLockerLockLiquidity]
              Fee.ClaimExternalRewards
              (Fee.Call "rewards" "claim"
                 [Fee.str "0xa8811ca9a2f65a4e21bd82a1e121f2a7f0f94006d0d4bcacf50016aef0b67765692bb7a06367365f13a521ec129c260451a682e658048729ff514e77e4cdffab1b"])
              (Error "Transaction is outdated"))
    as (fees' & Hrun & _ & Hkept).
  - reflexivity.
  - intros o ex' Hin Hex. apply list_elem_of_In in Hin. simpl in Hin.
    repeat (destruct Hin as [<- | Hin];
            [injection Hex as <-; by exists 700|]).
    done.
  - reflexivity.
  - reflexivity.
  - exists fees'. split; [exact Hrun|]. split.
    + transitivity (Fee.NetworkFee !! Fee.Operation_value Fee.ClaimExternalRewards);
        [apply (Hkept Fee.ClaimExternalRewards); left | vm_compute; reflexivity].
    + transitivity (Fee.NetworkFee !! Fee.Operation_value Fee.ReferralReserveXor);
        [apply (Hkept Fee.ReferralReserveXor); right; left | vm_compute; reflexivity].
Defined.

(** ** The list of the DEXes *)

Section DexList.

Import Dex.

Context `{consts : Consts}.

Lemma same_dexId (dexList : list DexInfo) (d1 d2 : DexInfo) :
  NoDup (List.map dexId dexList) ->
  d1 ∈ dexList -> d2 ∈ dexList -> dexId d1 = dexId d2 -> d1 = d2.
Proof.
  induction dexList as [|d dexList IH]; intros Hnd H1 H2 Heq.
  - by apply elem_of_nil in H1.
  - simpl in Hnd. apply NoDup_cons in Hnd as [Hfresh Hnd].
    apply elem_of_cons in H1 as [-> | H1], H2 as [-> | H2].
    + done.
    + destruct Hfresh. rewrite Heq. apply list_elem_of_fmap. by exists d2.
    + destruct Hfresh. rewrite <- Heq. apply list_elem_of_fmap. by exists d1.
    + by apply IH.
Qed.

(** X22: the base asset of a DEX is found back through its identifier.
    When no two DEXes of the list have the same identifier,
    [getBaseAssetId(getDexId(asset))] is [asset] for the base asset of every
    DEX of the list; for an asset that is the base asset of none,
    [getDexId] gives the default identifier. *)
Theorem base_asset_round_trip (dexList : list DexInfo) (asset : string) :
  NoDup (List.map dexId dexList) ->
  (asset ∈ baseAssetsIds dexList ->
   getBaseAssetId dexList (getDexId dexList asset) = asset) /\
  (asset ∉ baseAssetsIds dexList -> getDexId dexList asset = defaultDexId).
Proof.
  intros Hnd. unfold getDexId, getBaseAssetId, baseAssetsIds. split.
  - intros Hin. apply list_elem_of_fmap in Hin as (d0 & -> & Hin0).
    destruct (List.find (fun dex => String.eqb (baseAssetId dex) (baseAssetId d0)) dexList)
      as [d1|] eqn:Hfind.
    + apply find_some in Hfind as [Hin1 Heq1]. apply String.eqb_eq in Heq1.
      destruct (List.find (fun dex => dexId dex =? dexId d1) dexList) as [d2|] eqn:Hfind2.
      * apply find_some in Hfind2 as [Hin2 Heq2]. apply Z.eqb_eq in Heq2.
        apply list_elem_of_In in Hin1, Hin2.
        by rewrite (same_dexId dexList d2 d1 Hnd Hin2 Hin1 Heq2).
      * apply (find_none _ _ Hfind2) in Hin1. by rewrite Z.eqb_refl in Hin1.
    + apply list_elem_of_In in Hin0. apply (find_none _ _ Hfind) in Hin0.
      by rewrite String.eqb_refl in Hin0.
  - intros Hout. destruct (List.find _ dexList) as [d1|] eqn:Hfind; [|done].
    apply find_some in Hfind as [Hin1 Heq1]. apply String.eqb_eq in Heq1.
    destruct Hout. apply list_elem_of_fmap. exists d1.
    split; [done | by apply list_elem_of_In].
Qed.

Lemma find_updateList (data : list DexInfoEntry) (entry : DexInfoEntry) :
  NoDup (List.map key_dexId data) ->
  entry ∈ data ->
  List.find (fun dex => dexId dex =? key_dexId entry) (updateList data)
  = Some (mkDexInfo (key_dexId entry) (value_baseAssetId entry)
            (default defaultSyntheticAssetId (value_syntheticBaseAssetId entry))
            (value_isPublic entry)).
Proof.
  induction data as [|e data IH]; intros Hnd Hin.
  - by apply elem_of_nil in Hin.
  - simpl in Hnd. apply NoDup_cons in Hnd as [Hfresh Hnd]. simpl.
    apply elem_of_cons in Hin as [-> | Hin]; [by rewrite Z.eqb_refl|].
    destruct (Z.eqb_spec (key_dexId e) (key_dexId entry)) as [Heq|_]; [|by apply IH].
    destruct Hfresh. rewrite Heq. apply list_elem_of_fmap. by exists entry.
Qed.

(** X23: the list that [updateList] builds answers for the entries of the
    DEX manager.  When the entries have distinct keys, the base asset of the
    key of an entry is the base asset of the entry, its synthetic base asset
    is the one of the entry, or the default one when the entry has none, and
    the base assets of the pools are those of the public entries, in
    order. *)
Theorem updateList_answers (data : list DexInfoEntry) :
  NoDup (List.map key_dexId data) ->
  (forall entry, entry ∈ data ->
     getBaseAssetId (updateList data) (key_dexId entry) = value_baseAssetId entry /\
     getSyntheticBaseAssetId (updateList data) (key_dexId entry)
     = default defaultSyntheticAssetId (value_syntheticBaseAssetId entry)) /\
  poolBaseAssetsIds (updateList data)
  = List.map value_baseAssetId (List.filter value_isPublic data).
Proof.
  intros Hnd. split.
  - intros entry Hin. unfold getBaseAssetId, getSyntheticBaseAssetId.
    by rewrite (find_updateList data entry Hnd Hin).
  - unfold poolBaseAssetsIds, publicDexes, updateList. clear Hnd.
    induction data as [|e data IH]; simpl; [done|].
    destruct (value_isPublic e); simpl; by rewrite IH.
Qed.

End DexList.

Lemma base_asset_round_trip_witness :
  Dex.getBaseAssetId (consts := sora_consts) (Dex.updateList (consts := sora_consts) dex_entries)
    (Dex.getDexId (consts := sora_consts) (Dex.updateList (consts := sora_consts) dex_entries)
       "0x0200080000")
  = "0x0200080000".
Proof.
  refine (proj1 (base_asset_round_trip (consts := sora_consts)
                   (Dex.updateList (consts := sora_consts) dex_entries) "0x0200080000" _) _).
  - apply (bool_decide_unpack _). vm_compute. reflexivity.
  - apply (bool_decide_unpack _). vm_compute. reflexivity.
Defined.

Lemma updateList_answers_witness :
  Dex.poolBaseAssetsIds (Dex.updateList (consts := sora_consts) dex_entries) = ["0x0200000000"].
Proof.
  refine (proj2 (updateList_answers (consts := sora_consts) dex_entries _)).
  apply (bool_decide_unpack _). vm_compute. reflexivity.
Defined.

(** ** An empty history, and a history that is [null] *)

Section EmptyHistory.

Context `{host : Host}.

(** X24: [clearHistory] empties the history.  When what is written is
    read back, after [clearHistory] the list of the records is empty, no
    record passes a filter, and [getHistory] returns [null] for every
    identifier that is not the name of a member of [Object.prototype]; for
    such a name ([constructor], [toString], [__proto__], ...) it returns
    that inherited member. *)
Theorem clearHistory_empties (s : State) :
  reads_back (Js.VObj []) s ->
  fst ((clearHistory ;;; historyList)%js s) = Returns [] /\
  (forall id, fst ((clearHistory ;;; getHistory id)%js s)
              = Returns (if existsb (String.eqb id) Js.Object_prototype
                         then Js.Builtin id else Js.Data Js.VNull)) /\
  (forall filterFn, fst ((clearHistory ;;; getFilteredHistory filterFn)%js s) = Returns []).
Proof.
  intros Hback.
  assert (Hget : get_history (snd (clearHistory s))
                 = (Returns (Js.VObj []),
                    match accountStorage s with
                    | Some _ => with__history (Js.VObj []) (snd (clearHistory s))
                    | None => snd (clearHistory s)
                    end)).
  { unfold clearHistory. rewrite (set_then_get _ s Hback).
    by destruct (accountStorage s). }
  unfold bind. change (clearHistory s) with (Returns tt, snd (clearHistory s)).
  cbv beta iota. unfold historyList, getHistory, getFilteredHistory, bind.
  rewrite Hget. split; [done|]. split; [|done].
  intros id. unfold read. cbn [Js.member has_own Js.has inherited_names negb andb].
  by destruct (existsb (String.eqb id) Js.Object_prototype).
Qed.

(** X25: a stored history that is [null].  When the text of the history
    namespace is the JSON text of [null], [getHistory] and [historyList]
    throw a [TypeError], [getFilteredHistory] returns the empty mapping, and
    [saveHistory] of a record for the active account writes a history with
    this record only; when the identifier of the record is [__proto__], the
    assignment defines no property and the history written is empty. *)
Theorem history_that_is_null (s : State) (st : AccountStorage) (blob : string)
    (item : Js.obj) (options : option SaveHistoryOptions) :
  accountStorage s = Some st ->
  disk s !! (identity st, historyNamespace s) = Some blob ->
  blob <> EmptyString ->
  JSON_parse blob = Some Js.VNull ->
  Js.truthy (Js.get "id" item) = true ->
  Js.truthy (Js.get "from" item) = false ->
  (forall id, fst (getHistory id s) = Throws (TypeError "Cannot read properties of null")) /\
  fst (historyList s) = Throws (TypeError "Cannot convert undefined or null to object") /\
  (forall filterFn, fst (getFilteredHistory filterFn s) = Returns []) /\
  saveHistory (Js.VObj item) options s
  = set_history
      (Js.VObj (let key := Js.toString (Js.get "id" item) in
                if String.eqb key "__proto__" then []
                else [(key, Js.VObj (merged_item Js.VUndef (Js.VObj item) options))]))
      (with__history Js.VNull s).
Proof.
  intros Hst Hblob Hne Hparse Hid Hfrom.
  assert (Hget : get_history s = (Returns Js.VNull, with__history Js.VNull s)).
  { unfold get_history. rewrite Hst, Hblob. apply String.eqb_neq in Hne as ->.
    simpl. by rewrite Hparse. }
  split; [|split; [|split]].
  - intros id. unfold getHistory, bind. by rewrite Hget.
  - unfold historyList, bind. by rewrite Hget.
  - intros filterFn. unfold getFilteredHistory, bind. by rewrite Hget.
  - rewrite (save_to_active_account item options s (with__history Js.VNull s) EmptyString
               Js.VNull); [| done | | | done].
    + f_equal. f_equal. unfold merged, Js.put. cbn [Js.spread Js.has negb].
      rewrite andb_true_r.
      by destruct (String.eqb (Js.toString (Js.get "id" item)) "__proto__").
    + unfold historyItemFromAddress. by rewrite Hfrom.
    + unfold needToUpdateAddressStorage.
      by destruct (option_flag toCurrentAccount options).
Qed.

End EmptyHistory.

Lemma clearHistory_empties_witness :
  fst ((clearHistory (host := simple_host) ;;; historyList (host := simple_host))%js browsing)
  = Returns [] /\
  fst ((clearHistory (host := simple_host) ;;; getHistory (host := simple_host) "0x01")%js
         browsing) = Returns (Js.Data Js.VNull) /\
  fst ((clearHistory (host := simple_host) ;;; getHistory (host := simple_host) "constructor")%js
         browsing) = Returns (Js.Builtin "constructor").
Proof.
  assert (Hback : reads_back (host := simple_host) (Js.VObj []) browsing)
    by (left; reflexivity).
  split; [|split].
  - exact (proj1 (clearHistory_empties (host := simple_host) browsing Hback)).
  - exact (proj1 (proj2 (clearHistory_empties (host := simple_host) browsing Hback)) "0x01").
  - exact (proj1 (proj2 (clearHistory_empties (host := simple_host) browsing Hback))
             "constructor").
Defined.

Lemma history_that_is_null_witness :
  fst (historyList (host := simple_host) nulled)
  = Throws (TypeError "Cannot convert undefined or null to object") /\
  saveHistory (host := simple_host) (Js.VObj faucet_record) None nulled
  = set_history (host := simple_host)
      (Js.VObj [("0x05", Js.VObj faucet_record)])
      (with__history Js.VNull nulled).
Proof.
  destruct (history_that_is_null (host := simple_host) nulled (mkAccountStorage "hmac:*alice")
              "null" faucet_record None) as (_ & Hlist & _ & Hsave).
  - reflexivity.
  - reflexivity.
  - discriminate.
  - vm_compute. reflexivity.
  - reflexivity.
  - reflexivity.
  - split; [exact Hlist | exact Hsave].
Defined.

(** ** The export of the type definitions *)

Section ExportOfTypes.

Import TypesExport.











Lemma built_enum_Some (el : Js.value) :
  Js.truthy el = true ->
  (if isArray el then buildEnumItem el else buildEnumMapItem el) <> None.
Proof. by destruct el. Qed.

Lemma built_type_None (v : Js.value) : built_type v = None <-> v = Js.VNull.
Proof.
  split; [|by intros ->].
  unfold built_type. destruct v as [| | | | |items|props]; try done; simpl.
  - destruct (Js.truthy (Js.get "_enum" _)) eqn:Hel; [|done].
    intros H. by apply built_enum_Some in H.
  - destruct (Js.truthy (Js.get "_enum" props)) eqn:Hel; [|done].
    intros H. by apply built_enum_Some in H.
Qed.

Lemma build_entries_lookup (entries : list (string * Js.value)) (builder built : Js.obj) :
  build_entries builder entries = Some built ->
  forall k, Js.lookup k built =
            match Js.lookup k entries with
            | Some v => built_type v
            | None => Js.lookup k builder
            end.
Proof.
  revert builder. induction entries as [|[k0 v0] entries IH]; intros builder Hrun k; simpl.
  - by injection Hrun as ->.
  - simpl in Hrun. destruct (built_type v0) as [x0|] eqn:Hx0; [|done].
    rewrite (IH _ Hrun k). destruct (Js.lookup k entries); [done|].
    destruct (String.eqb_spec k0 k) as [->|Hne].
    + by rewrite JsFacts.lookup_set_eq.
    + by rewrite JsFacts.lookup_set_ne.
Qed.

Lemma build_entries_None (entries : list (string * Js.value)) (builder : Js.obj) :
  build_entries builder entries = None -> exists k, (k, Js.VNull) ∈ entries.
Proof.
  revert builder. induction entries as [|[k0 v0] entries IH]; intros builder; simpl; [done|].
  destruct (built_type v0) as [x0|] eqn:Hx0.
  - intros H. destruct (IH _ H) as [k Hin]. exists k. by right.
  - apply built_type_None in Hx0 as ->. intros _. exists k0. by left.
Qed.

Lemma build_entries_null (entries : list (string * Js.value)) (builder : Js.obj) (k : string) :
  (k, Js.VNull) ∈ entries -> build_entries builder entries = None.
Proof.
  revert builder. induction entries as [|[k0 v0] entries IH]; intros builder Hin.
  - by apply elem_of_nil in Hin.
  - simpl. apply elem_of_cons in Hin as [[= <- <-] | Hin]; [done|].
    destruct (built_type v0); [by apply IH | done].
Qed.

(** X27: [buildTop] builds every definition on its own.  For an object of
    definitions that has no property of the name [__proto__], [buildTop]
    throws exactly when a definition is [null]; when it returns, the result
    has, for each name of the object, what the loop of [buildTypes] builds
    from its definition, and, for the other names, the custom types when
    they are asked for: a definition of the object replaces the custom type
    of its name. *)
Theorem buildTop_builds_each_definition (types : Js.obj) (addCustom : bool) :
  Js.has "__proto__" types = false ->
  (buildTop (Js.VObj types) addCustom = None <->
   exists k, Js.lookup k types = Some Js.VNull) /\
  (forall built,
     buildTop (Js.VObj types) addCustom = Some built ->
     forall k, Js.lookup k built =
               match Js.lookup k types with
               | Some v => built_type v
               | None => if addCustom then Js.lookup k custom_types else None
               end).
Proof.
  intros _. unfold buildTop, buildTypes. simpl.
  set (builder := if addCustom then custom_types else []).
  set (entries := Js.spread (Js.VObj types)).
  assert (Hentries : forall k v, (k, v) ∈ entries <-> Js.lookup k types = Some v).
  { intros k v. subst entries.
    rewrite (elem_lookup_NoDup k v _ (JsKeys.NoDup_spread _)).
    by rewrite JsKeys.lookup_spread. }
  split; [split|].
  - intros Hrun. destruct (build_entries_None _ _ Hrun) as [k Hin].
    exists k. by apply Hentries.
  - intros [k Hk]. apply build_entries_null with k. by apply Hentries.
  - intros built Hrun k. rewrite (build_entries_lookup _ _ _ Hrun k).
    subst entries. rewrite JsKeys.lookup_spread. simpl.
    destruct (Js.lookup k types); [done|]. subst builder. by destruct addCustom.
Qed.

End ExportOfTypes.


Lemma buildTop_builds_each_definition_witness :
  TypesExport.buildTop (Js.VObj [("Amount", Js.VStr "i128"); ("Gone", Js.VNull)]) true = None /\
  exists built,
    TypesExport.buildTop (Js.VObj local_types) true = Some built /\
    Js.lookup "Amount" built = Some (Js.VStr "i128") /\
    Js.lookup "String" built = Some (Js.VStr "Text").
Proof.
  split.
  - apply (proj1 (buildTop_builds_each_definition
                    [("Amount", Js.VStr "i128"); ("Gone", Js.VNull)] true eq_refl)).
    exists "Gone". reflexivity.
  - eexists. split; [vm_compute; reflexivity|]. split.
    + refine (proj2 (buildTop_builds_each_definition local_types true eq_refl) _ _ "Amount").
      vm_compute. reflexivity.
    + refine (proj2 (buildTop_builds_each_definition local_types true eq_refl) _ _ "String").
      vm_compute. reflexivity.
Defined.

(** ** The file of types, converted twice *)

Section ConvertTypes.

Import TypesExport.





















End ConvertTypes.


